(** * Conveyor-belt: the HEIC-to-JPG converter and renamer

    A shallow embedding of [convert_heic_to_jpg.py]: the two passes
    [convert_and_rename_heic_to_jpg] and [rename_jpg_files] over a model of
    the dataset directory, and the properties of the numbering scheme
    ([good1.jpg], [good2.jpg], ...) they maintain.

    Conventions of the model.

    - The dataset directory ([source_dir]) is a finite map from the names of
      its sub-directories to directories; a directory is a finite map from
      file names to file contents (bytes).  Names are compared byte for
      byte, as on a POSIX system: [pathlib] matches glob patterns with case
      there, and two names that differ in case are two files.
    - File names are taken in the ASCII range: [str.lower], [\d] and
      [re.IGNORECASE] act on the letters and digits of ASCII only.
    - Python's [int] is [Z].
    - Every call that reaches the file system is a step of a state and
      exception monad.  Before each such call the environment (another
      process, a sync client) may change the tree, and the call may fail for
      a reason outside the model (permissions, a full disk).  Both are
      given by an [env]; [quiet_env] is the environment that does neither.
      The calls that can fail are those that open, write, remove or rename
      a file.  The checks [exists()], the globs and [print] are taken to
      answer: an exception of theirs (they stand outside every [try]) is
      not part of the model, and "in every environment" is to be read with
      that.
    - Each call leaves an [event] in the log of the world, newest first. *)

From Stdlib Require Import ZArith Ascii String.
From stdpp Require Import base gmap sets list strings pretty sorting.

Open Scope Z_scope.

(** ** Text: the pieces of [str], [re] and [fnmatch] the script uses *)

Module Text.

(** [\d] on ASCII. *)
Definition is_digit (c : ascii) : bool :=
  let n := N_of_ascii c in (48 <=? n)%N && (n <=? 57)%N.

(** [str.lower] on one ASCII character. *)
Definition lower_ascii (c : ascii) : ascii :=
  let n := N_of_ascii c in
  if (65 <=? n)%N && (n <=? 90)%N then ascii_of_N (n + 32) else c.

(** [s.lower()] *)
Fixpoint lower (s : string) : string :=
  match s with
  | EmptyString => EmptyString
  | String c s' => String (lower_ascii c) (lower s')
  end.

(** The line feed, and [c * n] for a one-character string [c]. *)
Definition nl : string := String "010"%char EmptyString.

Fixpoint times (c : ascii) (n : nat) : string :=
  match n with
  | O => EmptyString
  | S n' => String c (times c n')
  end.

(** [fnmatch] for the patterns the script builds: literal characters and
    [*].  ([?] and [[] never occur in them.)  The whole name has to match. *)
Fixpoint fnmatch (pat name : string) : bool :=
  match pat with
  | EmptyString => if name is EmptyString then true else false
  | String p pat' =>
      if Ascii.eqb p "*"%char then
        (fix star (name : string) : bool :=
           fnmatch pat' name ||
           match name with
           | EmptyString => false
           | String _ name' => star name'
           end) name
      else
        match name with
        | EmptyString => false
        | String c name' => Ascii.eqb p c && fnmatch pat' name'
        end
  end.

(** The digits a string starts with, and what follows them. *)
Fixpoint span_digits (s : string) : string * string :=
  match s with
  | EmptyString => (EmptyString, EmptyString)
  | String c s' =>
      if is_digit c then
        let '(ds, rest) := span_digits s' in (String c ds, rest)
      else (EmptyString, s)
  end.

(** [re.search(r'\d+', s)]: the leftmost run of digits, as long as it goes;
    [None] when [s] has no digit.  The value is what [.group()] returns. *)
Fixpoint re_search_digits (s : string) : option string :=
  match s with
  | EmptyString => None
  | String c s' =>
      if is_digit c then Some (fst (span_digits s)) else re_search_digits s'
  end.

(** [int(ds)] for a string of digits, most significant first. *)
Definition digit_value (c : ascii) : Z := Z.of_N (N_of_ascii c) - 48.

Fixpoint int_acc (acc : Z) (ds : string) : Z :=
  match ds with
  | EmptyString => acc
  | String c ds' => int_acc (10 * acc + digit_value c) ds'
  end.

Definition int (ds : string) : Z := int_acc 0 ds.

(** Equality of two strings under [re.IGNORECASE]. *)
Definition eq_nocase (a b : string) : bool := String.eqb (lower a) (lower b).

(** [s] without the literal [lit] it starts with, compared without case. *)
Fixpoint strip_nocase (lit s : string) : option string :=
  match lit with
  | EmptyString => Some s
  | String a lit' =>
      match s with
      | EmptyString => None
      | String c s' =>
          if Ascii.eqb (lower_ascii a) (lower_ascii c)
          then strip_nocase lit' s' else None
      end
  end.

(** [re.compile(rf"^{label}\d+\.jpg$", re.IGNORECASE).match(name)] as a
    truth value.  [\d+] is greedy and what follows it is not a digit, so the
    run of digits is the longest one; [$] also matches just before a line
    feed that ends the name. *)
Definition pattern_match (label name : string) : bool :=
  match strip_nocase label name with
  | None => false
  | Some rest =>
      let '(ds, tail) := span_digits rest in
      negb (String.eqb ds EmptyString) &&
      (eq_nocase tail ".jpg" || eq_nocase tail (".jpg" +:+ nl))
  end.

End Text.

Arguments Text.fnmatch : simpl never.
Arguments Text.lower : simpl never.
Arguments Text.times : simpl never.

(** ** The world: a directory tree, a clock and a log *)

(** A directory maps file names to their bytes; the tree under
    [source_dir] maps the names of its sub-directories to directories. *)
Abbreviation dir := (gmap string string).
Abbreviation tree := (gmap string (gmap string string)).

(** The exceptions the modelled calls raise. *)
Inductive exn : Type :=
| FileNotFoundError (name : string)
| PermissionError (name : string)
| UnidentifiedImageError (name : string)
| DecodeError (name : string)
| AttributeError.

Inductive result (A : Type) : Type :=
| Ok (a : A)
| Raise (e : exn).
Arguments Ok {A} a.
Arguments Raise {A} e.

(** How a call that changes the tree ended. [Replaced]: it succeeded and
    destroyed a file that was at the destination. *)
Inductive outcome : Type :=
| Done
| Replaced
| Failed (e : exn).

(** What the script does to the outside, one event per call. *)
Inductive event : Type :=
| Print (line : string)
| DirExists (cls : string) (r : bool)
| Glob (cls pat : string) (r : list string)
| Exists (cls name : string) (r : bool)
| Open (cls name : string) (ok : bool)
| Save (cls name : string) (o : outcome)
| Unlink (cls name : string) (o : outcome)
| Rename (cls src dst : string) (o : outcome).

Record world : Type := World {
  fs : tree;
  now : nat;
  log : list event
}.

(** The environment: what other processes do to the tree just before the
    [n]-th call on the file system, and whether that call, when it opens,
    writes, removes or renames a file, fails for a reason of its own. *)
Record env : Type := Env {
  sync : nat → tree → tree;
  fault : nat → bool
}.

Definition quiet_env : env := {| sync := λ _ t, t; fault := λ _, false |}.

(** The image library, as far as the script uses it. *)
Record codec : Type := Codec {
  image : Type;
  (** [Image.open] on the bytes of a file; [None]: not an image it knows *)
  heif_open : string → option image;
  (** [img.convert('RGB')]; [None]: the pixel data cannot be decoded *)
  convert_RGB : image → option image;
  (** the bytes [img.save(path, 'JPEG', quality=q)] writes *)
  jpeg_bytes : image → Z → string
}.

(** The state and exception monad of the script, with stdpp's notation
    for it ([x ← m; k] and [m ;; k]). *)
Definition M (A : Type) : Type := world → result A * world.

Global Instance M_ret : MRet M := λ A a w, (Ok a, w).

Global Instance M_bind : MBind M := λ A B k m w,
  match m w with
  | (Ok a, w') => k a w'
  | (Raise e, w') => (Raise e, w')
  end.

Global Instance M_throw : MThrow exn M := λ A e w, (Raise e, w).

(** [try: m  except Exception as e: ...] up to the handler: the outcome of
    [m] as a value. *)
Definition attempt {A} (m : M A) : M (result A) := λ w,
  let '(r, w') := m w in (Ok r, w').

(** [for x in l: s = body(s, x)] *)
Fixpoint for_each {A S} (body : S → A → M S) (l : list A) (s : S) : M S :=
  match l with
  | [] => mret s
  | x :: l' => s' ← body s x; for_each body l' s'
  end.

(** The world a script starts in. *)
Definition boot (t : tree) : world := {| fs := t; now := 0; log := [] |}.

(** The events of a world, oldest first. *)
Definition trace (w : world) : list event := reverse (log w).

(** The names of a directory that match a glob pattern, in the order the
    directory lists them. *)
Definition glob_names (pat : string) (d : dir) : list string :=
  filter (λ name, Text.fnmatch pat name = true) (elements (dom d)).

Section Calls.
Context (E : env).

(** The tree a call finds, and the world it leaves. *)
Definition enter (w : world) : tree := sync E (now w) (fs w).

Definition leave (w : world) (t : tree) (ev : event) : world :=
  {| fs := t; now := S (now w); log := ev :: log w |}.

Definition print (line : string) : M unit := λ w,
  (Ok (), {| fs := fs w; now := now w; log := Print line :: log w |}).

(** [class_dir.exists()] *)
Definition dir_exists (cls : string) : M bool := λ w,
  let t := enter w in
  let r := bool_decide (is_Some (t !! cls)) in
  (Ok r, leave w t (DirExists cls r)).

(** [list(class_dir.glob(pat))]: the names of the directory that match,
    in the order the directory lists them. *)
Definition glob (cls pat : string) : M (list string) := λ w,
  let t := enter w in
  let r := glob_names pat (default ∅ (t !! cls)) in
  (Ok r, leave w t (Glob cls pat r)).

(** [(class_dir / name).exists()] *)
Definition path_exists (cls name : string) : M bool := λ w,
  let t := enter w in
  let r := bool_decide (is_Some (t !! cls ≫= (.!! name))) in
  (Ok r, leave w t (Exists cls name r)).

(** [(class_dir / src).rename(class_dir / dst)]; as [os.rename] on POSIX
    it replaces a file that is at the destination. *)
Definition rename (cls src dst : string) : M unit := λ w,
  let t := enter w in
  match t !! cls with
  | Some d =>
      match d !! src with
      | Some c =>
          if fault E (now w) then
            let e := PermissionError src in
            (Raise e, leave w t (Rename cls src dst (Failed e)))
          else
            let o := if d !! dst is Some _ then Replaced else Done in
            (Ok (), leave w (<[cls := <[dst := c]> (delete src d)]> t)
                          (Rename cls src dst o))
      | None =>
          let e := FileNotFoundError src in
          (Raise e, leave w t (Rename cls src dst (Failed e)))
      end
  | None =>
      let e := FileNotFoundError src in
      (Raise e, leave w t (Rename cls src dst (Failed e)))
  end.

(** [(class_dir / name).unlink()] *)
Definition unlink (cls name : string) : M unit := λ w,
  let t := enter w in
  match t !! cls with
  | Some d =>
      match d !! name with
      | Some _ =>
          if fault E (now w) then
            let e := PermissionError name in
            (Raise e, leave w t (Unlink cls name (Failed e)))
          else
            (Ok (), leave w (<[cls := delete name d]> t)
                          (Unlink cls name Done))
      | None =>
          let e := FileNotFoundError name in
          (Raise e, leave w t (Unlink cls name (Failed e)))
      end
  | None =>
      let e := FileNotFoundError name in
      (Raise e, leave w t (Unlink cls name (Failed e)))
  end.

(** Reading the bytes of [class_dir / name], as [Image.open] does. *)
Definition read_bytes (cls name : string) : M string := λ w,
  let t := enter w in
  match t !! cls ≫= (.!! name) with
  | Some c =>
      if fault E (now w) then
        (Raise (PermissionError name), leave w t (Open cls name false))
      else (Ok c, leave w t (Open cls name true))
  | None => (Raise (FileNotFoundError name), leave w t (Open cls name false))
  end.

(** Writing [bytes] to [class_dir / name], as [img.save] does: the file
    is created, or replaced when it is there. A write that fails leaves
    the directory as it was. *)
Definition write_bytes (cls name bytes : string) : M unit := λ w,
  let t := enter w in
  match t !! cls with
  | Some d =>
      if fault E (now w) then
        let e := PermissionError name in
        (Raise e, leave w t (Save cls name (Failed e)))
      else
        let o := if d !! name is Some _ then Replaced else Done in
        (Ok (), leave w (<[cls := <[name := bytes]> d]> t) (Save cls name o))
  | None =>
      let e := FileNotFoundError name in
      (Raise e, leave w t (Save cls name (Failed e)))
  end.
End Calls.

(** ** The script *)

(** [sorted] on the paths of one directory: the order of [str] on their
    names, character by character ([String.le]). *)
Definition sorted (paths : list string) : list string :=
  merge_sort String.le paths.

(** [max(l)] for a list that is not empty. *)
Definition maximum (l : list Z) : option Z :=
  match l with
  | [] => None
  | x :: l' => Some (foldl Z.max x l')
  end.

(** [str(e)] in the messages. *)
Definition exn_text (e : exn) : string :=
  match e with
  | FileNotFoundError name => "No such file or directory: " +:+ name
  | PermissionError name => "Permission denied: " +:+ name
  | UnidentifiedImageError name => "cannot identify image file " +:+ name
  | DecodeError name => "cannot decode image file " +:+ name
  | AttributeError => "'NoneType' object has no attribute 'group'"
  end.

Definition class_folders : list string := ["Good"; "Bad"; "Ugly"].

Definition lift {A} (r : result A) : M A := λ w, (r, w).

(** Lines 51-57 of [rename_jpg_files]: the files that carry a name of the
    scheme already, with their numbers, and the others. *)
Fixpoint classify (label : string) (jpgs : list string)
    (already_renamed : list (Z * string)) (to_rename : list string)
    : result (list (Z * string) * list string) :=
  match jpgs with
  | [] => Ok (already_renamed, to_rename)
  | jpg :: rest =>
      if Text.pattern_match label jpg then
        match Text.re_search_digits jpg with
        | Some ds =>
            classify label rest (already_renamed ++ [(Text.int ds, jpg)])
                     to_rename
        | None => Raise AttributeError
        end
      else classify label rest already_renamed (to_rename ++ [jpg])
  end.

(** Line 132 of [convert_and_rename_heic_to_jpg]: the first number in each
    name that has one. *)
Definition nums_of (existing : list string) : list Z :=
  omap (λ name, Text.int <$> Text.re_search_digits name) existing.

Section Script.
Context (C : codec) (E : env).

Definition banner (class_name : string) : M unit :=
  print (Text.nl +:+ Text.times "=" 50);;
  print ("Processing " +:+ class_name +:+ " folder...");;
  print (Text.times "=" 50).

(** *** [rename_jpg_files] *)

(** Lines 72-91: one turn of the loop over [sorted(to_rename)]. *)
Definition rename_one (class_name : string) (max_num : Z) (jpg : string)
    : M Z :=
  still_there ← path_exists E class_name jpg;
  if negb still_there then
    print ("  Skipping (already moved): " +:+ jpg);;
    mret max_num
  else
    let max_num := max_num + 1 in
    let new_name := Text.lower class_name +:+ pretty max_num +:+ ".jpg" in
    taken ← path_exists E class_name new_name;
    if (taken : bool) then
      print ("  Skipping (target exists): " +:+ new_name);;
      mret max_num
    else
      r ← attempt (print ("  Renaming: " +:+ jpg +:+ " -> " +:+ new_name);;
                   rename E class_name jpg new_name);
      match r with
      | Ok _ => mret max_num
      | Raise e =>
          print ("  Error renaming " +:+ jpg +:+ ": " +:+ exn_text e);;
          mret max_num
      end.

(** Lines 33-95: one turn of the loop over [class_folders]. *)
Definition rename_class (source_dir class_name : string) : M unit :=
  found ← dir_exists E class_name;
  if negb found then
    print ("Folder not found: " +:+ source_dir +:+ "/" +:+ class_name)
  else
    banner class_name;;
    lower_case ← glob E class_name "*.jpg";
    upper_case ← glob E class_name "*.JPG";
    let all_jpgs : gset string :=
      list_to_set lower_case ∪ list_to_set upper_case in
    parts ← lift (classify (Text.lower class_name) (elements all_jpgs) [] []);
    let already_renamed := parts.1 in
    let to_rename := parts.2 in
    print ("  Already renamed: " +:+
           pretty (Z.of_nat (length already_renamed)));;
    print ("  Need to rename: " +:+ pretty (Z.of_nat (length to_rename)));;
    if to_rename is [] then mret ()
    else
      let max_num := default 0 (maximum already_renamed.*1) in
      for_each (rename_one class_name) (sorted to_rename) max_num;;
      final ← glob E class_name (Text.lower class_name +:+ "*.jpg");
      print ("  Final count: " +:+ pretty (Z.of_nat (length final)) +:+
             " files").

Definition rename_jpg_files (source_dir : string) : M unit :=
  for_each (λ _ class_name, rename_class source_dir class_name)
           class_folders ().

(** *** [convert_and_rename_heic_to_jpg] *)

(** [Image.open(class_dir / name)] *)
Definition Image_open (cls name : string) : M (image C) :=
  bytes ← read_bytes E cls name;
  match heif_open C bytes with
  | Some img => mret img
  | None => mthrow (UnidentifiedImageError name)
  end.

(** [img.convert('RGB')] *)
Definition Image_convert (name : string) (img : image C) : M (image C) :=
  match convert_RGB C img with
  | Some rgb => mret rgb
  | None => mthrow (DecodeError name)
  end.

(** [img.save(class_dir / name, 'JPEG', quality=quality)] *)
Definition Image_save (img : image C) (cls name : string) (quality : Z)
    : M unit :=
  write_bytes E cls name (jpeg_bytes C img quality).

(** The variables the loop over [heic_files] updates: [next_num] and the
    three totals. *)
Record tally : Type := Tally {
  next_num : Z;
  total_converted : Z;
  total_deleted : Z;
  total_errors : Z
}.

(** Lines 138-157: one turn of the loop over [heic_files].  The [try]
    block is left at the first call that raises; the totals it has
    updated by then stay. *)
Definition convert_one (class_name : string) (delete_originals : bool)
    (s : tally) (heic_file : string) : M tally :=
  let new_name :=
    Text.lower class_name +:+ pretty (next_num s) +:+ ".jpg" in
  saved ← attempt (
    print ("Converting: " +:+ heic_file +:+ " -> " +:+ new_name);;
    img ← Image_open class_name heic_file;
    img ← Image_convert heic_file img;
    Image_save img class_name new_name 95);
  match saved with
  | Raise e =>
      print ("Error converting " +:+ heic_file +:+ ": " +:+ exn_text e);;
      mret (Tally (next_num s) (total_converted s) (total_deleted s)
                  (total_errors s + 1))
  | Ok _ =>
      let total_converted := total_converted s + 1 in
      let next_num := next_num s + 1 in
      if delete_originals then
        removed ← attempt (unlink E class_name heic_file);
        match removed with
        | Ok _ =>
            mret (Tally next_num total_converted (total_deleted s + 1)
                        (total_errors s))
        | Raise e =>
            print ("Error converting " +:+ heic_file +:+ ": " +:+
                   exn_text e);;
            mret (Tally next_num total_converted (total_deleted s)
                        (total_errors s + 1))
        end
      else
        mret (Tally next_num total_converted (total_deleted s)
                    (total_errors s))
  end.

(** Lines 130-135: the number the first converted file gets. *)
Definition first_num (existing : list string) : Z :=
  if existing is [] then 1
  else match maximum (nums_of existing) with
       | Some m => m + 1
       | None => 1
       end.

(** Lines 111-157: one turn of the loop over [class_folders]; [totals]
    are (converted, deleted, errors). *)
Definition convert_class (source_dir : string) (delete_originals : bool)
    (totals : Z * Z * Z) (class_name : string) : M (Z * Z * Z) :=
  found ← dir_exists E class_name;
  if negb found then
    print ("Folder not found: " +:+ source_dir +:+ "/" +:+ class_name);;
    mret totals
  else
    banner class_name;;
    upper_case ← glob E class_name "*.HEIC";
    lower_case ← glob E class_name "*.heic";
    let heic_files := sorted (upper_case ++ lower_case) in
    if heic_files is [] then
      print ("No HEIC files found in " +:+ class_name);;
      mret totals
    else
      print ("Found " +:+ pretty (Z.of_nat (length heic_files)) +:+
             " HEIC files");;
      existing ← glob E class_name (Text.lower class_name +:+ "*.jpg");
      let '(converted, deleted, errors) := totals in
      s ← for_each (convert_one class_name delete_originals) heic_files
             (Tally (first_num existing) converted deleted errors);
      mret (total_converted s, total_deleted s, total_errors s).

Definition convert_and_rename_heic_to_jpg (source_dir : string)
    (delete_originals : bool) : M (Z * Z * Z) :=
  totals ← for_each (convert_class source_dir delete_originals)
              class_folders (0, 0, 0);
  print (Text.nl +:+ Text.times "=" 50);;
  print "CONVERSION SUMMARY";;
  print (Text.times "=" 50);;
  print ("  Converted: " +:+ pretty totals.1.1);;
  print ("  HEIC files deleted: " +:+ pretty totals.1.2);;
  print ("  Errors: " +:+ pretty totals.2);;
  mret totals.

(** Lines 176-186, the run of the script on a directory that exists. *)
Definition main (training_data_dir : string) : M unit :=
  convert_and_rename_heic_to_jpg training_data_dir true;;
  print (Text.nl +:+ Text.nl +:+ Text.times "=" 50);;
  print "RENAMING REMAINING JPG FILES";;
  print (Text.times "=" 50);;
  rename_jpg_files training_data_dir.
End Script.

(** ** Reading the log *)

(** The calls on the file system among the events: everything but the
    printed lines. *)
Definition is_call (ev : event) : bool :=
  match ev with
  | Print _ => false
  | _ => true
  end.

Definition calls (l : list event) : list event :=
  filter (λ ev, is_call ev = true) l.

Fixpoint count (p : event → bool) (l : list event) : Z :=
  match l with
  | [] => 0
  | ev :: l' => (if p ev then 1 else 0) + count p l'
  end.

(** A turn of the loop over [heic_files] opens its file once. *)
Definition is_open (ev : event) : bool :=
  match ev with
  | Open _ _ _ => true
  | _ => false
  end.

Definition attempts (l : list event) : Z := count is_open l.

(** The lines the two [except] branches of the convert pass print. *)
Definition is_failure_line (ev : event) : bool :=
  match ev with
  | Print line => String.prefix "Error converting " line
  | _ => false
  end.

Definition failures (l : list event) : Z := count is_failure_line l.

Definition is_failed_unlink (ev : event) : bool :=
  match ev with
  | Unlink _ _ (Failed _) => true
  | _ => false
  end.

Definition failed_unlinks (l : list event) : Z := count is_failed_unlink l.

(** The number of files the two HEIC globs of the convert pass returned. *)
Fixpoint listed (l : list event) : Z :=
  match l with
  | [] => 0
  | Glob _ pat r :: l' =>
      (if String.eqb pat "*.HEIC" || String.eqb pat "*.heic"
       then Z.of_nat (length r) else 0) + listed l'
  | _ :: l' => listed l'
  end.

(** ** Invariants of the loops *)

(** The books of the convert pass between two points of a run: [l0], [c0],
    [d0], [e0] are the log and the totals at the first point, [l], [c], [d],
    [e] at the second. *)
Definition ledger (delete_originals : bool)
    (l0 : list event) (c0 d0 e0 : Z) (l : list event) (c d e : Z) : Prop :=
  attempts l - attempts l0 =
    (c - c0) + (e - e0) - (failed_unlinks l - failed_unlinks l0) ∧
  failures l - failures l0 = e - e0 ∧
  c0 ≤ c ∧ d0 ≤ d ∧ e0 ≤ e ∧ d - d0 ≤ c - c0 ∧
  (if delete_originals then True else d = d0).

(** The name the scheme gives number [n] in class folder [class_name]. *)
Definition scheme_name (class_name : string) (n : Z) : string :=
  Text.lower class_name +:+ pretty n +:+ ".jpg".

(** On the calls of a log, newest first: every [rename] comes right after
    the check that its destination is free, which comes right after the
    check that its source is there. *)
Fixpoint renames_checked (cs : list event) : bool :=
  match cs with
  | [] => true
  | Rename cls src dst _ :: earlier =>
      match earlier with
      | Exists c2 n2 false :: Exists c1 n1 true :: _ =>
          bool_decide (c2 = cls ∧ n2 = dst ∧ c1 = cls ∧ n1 = src)
          && renames_checked earlier
      | _ => false
      end
  | _ :: earlier => renames_checked earlier
  end.

(** Every [rename] of a log moves a file whose name is not of the scheme
    of its class folder. *)
Definition renames_only_new (l : list event) : bool :=
  forallb (λ ev,
    match ev with
    | Rename cls src _ _ => negb (Text.pattern_match (Text.lower cls) src)
    | _ => true
    end) l.

(** No [rename] of a log destroyed a file. *)
Definition no_replaced (l : list event) : bool :=
  forallb (λ ev,
    match ev with
    | Rename _ _ _ Replaced => false
    | _ => true
    end) l.

(** The files of [t0] that carry a name of the scheme of their folder are
    in [t], with the bytes they had. *)
Definition keeps (t0 t : tree) : Prop :=
  ∀ cls name bytes,
    t0 !! cls ≫= (.!! name) = Some bytes →
    Text.pattern_match (Text.lower cls) name = true →
    t !! cls ≫= (.!! name) = Some bytes.

(** Every [rename] of a list of events gives a number of the scheme above
    [lo] and up to [hi]. *)
Definition numbered_within (cls : string) (lo hi : Z) (ev : event) : Prop :=
  match ev with
  | Rename _ _ dst _ => ∃ k, lo < k ≤ hi ∧ dst = scheme_name cls k
  | _ => True
  end.

(** On the calls of a log, newest first: every [unlink] comes right after
    a [save] in the same folder that succeeded, which comes right after
    the successful opening of the file that is unlinked. *)
Fixpoint unlinks_follow_save (cs : list event) : bool :=
  match cs with
  | [] => true
  | Unlink cls name _ :: earlier =>
      match earlier with
      | Save c2 _ o :: Open c1 n1 true :: _ =>
          bool_decide (c2 = cls ∧ c1 = cls ∧ n1 = name)
          && (if o is Failed _ then false else true)
          && unlinks_follow_save earlier
      | _ => false
      end
  | _ :: earlier => unlinks_follow_save earlier
  end.

(** No event of a log is the check that a file exists. *)
Definition no_file_check (l : list event) : bool :=
  forallb (λ ev, if ev is Exists _ _ _ then false else true) l.

(** The file a call removes from its place, for the two calls of the
    scripts that do: [rename] its source, [unlink] its file. *)
Definition removed_by (ev : event) : option (string * string) :=
  match ev with
  | Rename cls src _ _ => Some (cls, src)
  | Unlink cls name _ => Some (cls, name)
  | _ => None
  end.

(** As the specification has it, in its widest reading: before each such
    call, some earlier call checked that the file it removes is there.
    [cs] are calls, newest first. *)
Fixpoint recheck_some_time_before (cs : list event) : bool :=
  match cs with
  | [] => true
  | ev :: earlier =>
      match removed_by ev with
      | Some (cls, name) =>
          existsb (λ ev', match ev' with
                          | Exists c n _ => bool_decide (c = cls ∧ n = name)
                          | _ => false
                          end) earlier
      | None => true
      end && recheck_some_time_before earlier
  end.

(** ** Facts about the text functions *)

Fixpoint all_digits (s : string) : bool :=
  match s with
  | EmptyString => true
  | String c s' => Text.is_digit c && all_digits s'
  end.

Fixpoint no_digit (s : string) : bool :=
  match s with
  | EmptyString => true
  | String c s' => negb (Text.is_digit c) && no_digit s'
  end.

Fixpoint no_star (s : string) : bool :=
  match s with
  | EmptyString => true
  | String c s' => negb (Ascii.eqb c "*"%char) && no_star s'
  end.

Fixpoint last_char (s : string) : option ascii :=
  match s with
  | EmptyString => None
  | String c EmptyString => Some c
  | String _ s' => last_char s'
  end.

(** What follows a run of digits: nothing, or a character that is not a
    digit. *)
Definition stops (rest : string) : bool :=
  match rest with
  | EmptyString => true
  | String c _ => negb (Text.is_digit c)
  end.

(** ** The convert pass as a function of one directory *)

(** The originals of a directory, in the order the pass takes them. *)
Definition heic_files_of (d : dir) : list string :=
  sorted (glob_names "*.HEIC" d ++ glob_names "*.heic" d).

(** The bytes the pass writes for an original with the bytes [bytes];
    [None] when the image library raises on it. *)
Definition jpeg_of (C : codec) (bytes : string) : option string :=
  img ← heif_open C bytes; rgb ← convert_RGB C img; Some (jpeg_bytes C rgb 95).

(** [d'] is [d] after the originals [l] were converted, in that order, to
    the names of the scheme from number [next] on, and removed when
    [delete_originals] is set. *)
Definition converted_into (C : codec) (delete_originals : bool)
    (cls : string) (next : Z) (d : dir) (l : list string) (d' : dir) : Prop :=
  (∀ i name, l !! i = Some name →
     d' !! scheme_name cls (next + Z.of_nat i) = d !! name ≫= jpeg_of C) ∧
  (∀ name, name ∈ l →
     d' !! name = if delete_originals then None else d !! name) ∧
  (∀ name, name ∉ l →
     (∀ i, (i < length l)%nat → name ≠ scheme_name cls (next + Z.of_nat i)) →
     d' !! name = d !! name).

(** The originals left in a directory are those the image library does
    not accept. *)
Definition rejected_only (C : codec) (d : dir) : Prop :=
  ∀ x, x ∈ heic_files_of d → d !! x ≫= jpeg_of C = None.

(** ** The starting number, in the words of the specification *)

(** The number of a file named [<label><digits>.jpg], compared without
    case; [None] for every other name. *)
Definition canonical_number (label name : string) : option Z :=
  match Text.strip_nocase label name with
  | None => None
  | Some rest =>
      let '(ds, tail) := Text.span_digits rest in
      if negb (String.eqb ds EmptyString) && Text.eq_nocase tail ".jpg"
      then Some (Text.int ds) else None
  end.

(** One past the largest number of the canonically named files among
    [names], or 1 when there is none. *)
Definition spec_next_suffix (label : string) (names : list string) : Z :=
  match maximum (omap (canonical_number label) names) with
  | Some m => m + 1
  | None => 1
  end.

(** ** The rename pass as a function of one directory *)

(** The files the rename pass lists in a directory (line 43), and those
    among them it has to rename, in the order it takes them (lines 51-57
    and 72). *)
Definition all_jpgs_of (d : dir) : list string :=
  elements (list_to_set (glob_names "*.jpg" d) ∪
            list_to_set (glob_names "*.JPG" d) : gset string).

Definition to_rename_of (cls : string) (d : dir) : list string :=
  sorted (filter (λ x, Text.pattern_match (Text.lower cls) x = false)
                 (all_jpgs_of d)).

(** The number the rename pass starts from (lines 66-69): the largest
    number of the files it finds renamed already, or 0. *)
Definition max_num_of (cls : string) (d : dir) : Z :=
  default 0 (maximum
    (omap (λ name, if Text.pattern_match (Text.lower cls) name
                   then Text.int <$> Text.re_search_digits name else None)
          (all_jpgs_of d))).

(** [d'] is [d] after the files [l] were renamed, in that order, to the
    names of the scheme from number [next] on. *)
Definition renamed_into (cls : string) (next : Z) (d : dir)
    (l : list string) (d' : dir) : Prop :=
  (∀ i name, l !! i = Some name →
     d' !! scheme_name cls (next + Z.of_nat i) = d !! name) ∧
  (∀ name, name ∈ l → d' !! name = None) ∧
  (∀ name, name ∉ l →
     (∀ i, (i < length l)%nat → name ≠ scheme_name cls (next + Z.of_nat i)) →
     d' !! name = d !! name).

(** Every file of [d] the rename pass would list carries a name of the
    scheme. *)
Definition all_renamed (cls : string) (d : dir) : Prop :=
  ∀ name, name ∈ all_jpgs_of d →
    Text.pattern_match (Text.lower cls) name = true.

(** ** More readers of the log *)

(** The events the rename pass can leave, and those the convert pass
    can. *)
Definition rename_pass_event (ev : event) : bool :=
  match ev with
  | Print _ | DirExists _ _ | Glob _ _ _ | Exists _ _ _ | Rename _ _ _ _ =>
      true
  | _ => false
  end.

Definition convert_pass_event (delete_originals : bool) (ev : event) : bool :=
  match ev with
  | Print _ | DirExists _ _ | Glob _ _ _ | Open _ _ _ | Save _ _ _ => true
  | Unlink _ _ _ => delete_originals
  | _ => false
  end.

(** The calls of [rename], those that failed, and the lines printed
    around them (lines 88 and 91). *)
Definition is_rename (ev : event) : bool :=
  match ev with
  | Rename _ _ _ _ => true
  | _ => false
  end.

Definition is_failed_rename (ev : event) : bool :=
  match ev with
  | Rename _ _ _ (Failed _) => true
  | _ => false
  end.

Definition is_renaming_line (ev : event) : bool :=
  match ev with
  | Print line => String.prefix "  Renaming: " line
  | _ => false
  end.

Definition is_rename_error_line (ev : event) : bool :=
  match ev with
  | Print line => String.prefix "  Error renaming " line
  | _ => false
  end.

(** The names the JPEG files were written to, newest first: the [save]s
    that did not fail. *)
Definition saved_names (l : list event) : list string :=
  omap (λ ev, match ev with
              | Save _ _ (Failed _) => None
              | Save _ name _ => Some name
              | _ => None
              end) l.

(** The JPEG files written and the originals removed: the [save]s and
    the [unlink]s that did not fail. *)
Definition is_saved (ev : event) : bool :=
  match ev with
  | Save _ _ (Failed _) => false
  | Save _ _ _ => true
  | _ => false
  end.

Definition saved (l : list event) : Z := count is_saved l.

Definition is_unlinked (ev : event) : bool :=
  match ev with
  | Unlink _ _ (Failed _) => false
  | Unlink _ _ _ => true
  | _ => false
  end.

Definition unlinked (l : list event) : Z := count is_unlinked l.

(** The names the calls of [rename] were to give, newest first. *)
Definition renamed_to (l : list event) : list string :=
  omap (λ ev, if ev is Rename _ _ dst _ then Some dst else None) l.

(** Whether the image library accepts the original [x] of [d]. *)
Definition accepted (C : codec) (d : dir) (x : string) : bool :=
  if d !! x ≫= jpeg_of C is Some _ then true else false.

(** The names of the scheme for the [n] numbers from [first] on. *)
Definition scheme_run (cls : string) (first : Z) (n : nat) : list string :=
  (λ i, scheme_name cls (first + Z.of_nat i)) <$> seq 0 n.

(** ** Scenarios *)

(** An image library for the scenarios: a file is an image when its bytes
    start with [heic], and the JPEG of an image is marked [jpeg:]. *)
Definition toy_codec : codec :=
  {| image := string;
     heif_open := λ bytes,
       if String.prefix "heic" bytes then Some bytes else None;
     convert_RGB := λ img, Some img;
     jpeg_bytes := λ img quality, "jpeg:" +:+ img |}.

(** The end-to-end scenario of the specification. *)
Definition scenario_tree : tree :=
  {[ "Good" := {[ "IMG_001.HEIC" := "heic 001"; "good1.jpg" := "jpeg one" ]} ]}.

(** A folder with one original and one file that is not of the scheme but
    begins and ends like the names of the scheme. *)
Definition lookalike_tree : tree :=
  {[ "Good" := {[ "a.HEIC" := "heic a"; "good7b.jpg" := "not numbered" ]} ]}.

(** A folder with two originals and a photo under its camera name. *)
Definition fresh_tree : tree :=
  {[ "Bad" := {[ "b.HEIC" := "heic b"; "a.heic" := "heic a";
                 "IMG_7.jpg" := "camera" ]} ]}.

(** A sync client that takes [IMG_1.jpg] away from [Good] right after the
    rename pass has listed the folder (calls 0 to 2 are the check of the
    folder and the two globs). *)
Definition vanish_env : env :=
  {| sync := λ n t,
       if Nat.eqb n 3 then alter (delete "IMG_1.jpg") "Good" t else t;
     fault := λ _, false |}.

(** A sync client that puts a [good1.jpg] into [Good] after the rename
    pass has listed the folder, just before the pass checks that name. *)
Definition intruder_env : env :=
  {| sync := λ n t,
       if Nat.eqb n 4 then alter (insert "good1.jpg" "synced") "Good" t else t;
     fault := λ _, false |}.

Definition camera_tree : tree :=
  {[ "Good" := {[ "IMG_1.jpg" := "first"; "IMG_2.jpg" := "second" ]} ]}.

(** The world of the rename pass on [t] when its loop over [to_rename]
    starts: three calls were made. *)
Definition at_loop (t : tree) : world := {| fs := t; now := 3; log := [] |}.

(** A folder whose numbers have a gap, with one original and one photo
    under its camera name. *)
Definition gaps_tree : tree :=
  {[ "Good" := {[ "good1.jpg" := "one"; "good3.jpg" := "three";
                  "good4.jpg" := "four"; "IMG_9.HEIC" := "heic 9";
                  "IMG_8.jpg" := "camera" ]} ]}.

(** The same numbers, one original, and a file that is not of the scheme
    but whose name begins with the label and holds a year. *)
Definition dated_tree : tree :=
  {[ "Good" := {[ "good1.jpg" := "one"; "good3.jpg" := "three";
                  "good4.jpg" := "four"; "goodbye2021.jpg" := "party";
                  "IMG_9.HEIC" := "heic 9" ]} ]}.

(** A folder with photos under their camera names, in both cases of the
    extension, one file of the scheme and one original the image library
    does not accept. *)
Definition mixed_tree : tree :=
  {[ "Ugly" := {[ "IMG_2.JPG" := "two"; "IMG_10.jpg" := "ten";
                  "ugly3.jpg" := "three"; "notes.txt" := "text";
                  "broken.HEIC" := "not an image";
                  "IMG_5.heic" := "heic 5" ]} ]}.

(** A disk on which every second call that changes a file fails. *)
Definition flaky_env : env :=
  {| sync := λ _ t, t; fault := Nat.odd |}.

(** A sync client that takes [IMG_1.jpg] away from [Good] after the rename
    pass has checked that it is there and that its new name is free, just
    before the pass renames it (call 5 of a pass that starts at call 0). *)
Definition late_vanish_env : env :=
  {| sync := λ n t,
       if Nat.eqb n 5 then alter (delete "IMG_1.jpg") "Good" t else t;
     fault := λ _, false |}.

(** A sync client that puts a [good1.jpg] into [Good] after the rename
    pass has checked that this name is free, just before it renames
    [IMG_1.jpg] to it. *)
Definition late_intruder_env : env :=
  {| sync := λ n t,
       if Nat.eqb n 5 then alter (insert "good1.jpg" "synced") "Good" t else t;
     fault := λ _, false |}.

(** * Properties *)

(** ** The monad and its loops *)

Lemma for_each_ind {A S} (body : S → A → M S)
    (I : list A → S → world → Prop) l s w :
  I l s w →
  (∀ x rest s w, I (x :: rest) s w →
     ∃ s' w', body s x w = (Ok s', w') ∧ I rest s' w') →
  ∃ s' w', for_each body l s w = (Ok s', w') ∧ I [] s' w'.
Proof.
  intros HI Hbody. revert s w HI.
  induction l as [|x l IH]; intros s w HI.
  - exists s, w. done.
  - destruct (Hbody x l s w HI) as (s' & w' & Hrun & HI').
    destruct (IH s' w' HI') as (s'' & w'' & Hrun' & HI'').
    exists s'', w''. split; [|done].
    simpl. unfold mbind, M_bind. by rewrite Hrun.
Qed.

Lemma bind_run {A B} (m : M A) (k : A → M B) w a w' :
  m w = (Ok a, w') → (x ← m; k x) w = k a w'.
Proof. intros H. unfold mbind, M_bind. by rewrite H. Qed.

Lemma elem_of_suffix {A} (x : A) l1 l2 :
  l1 `suffix_of` l2 → x ∈ l1 → x ∈ l2.
Proof. intros [k ->] ?. apply elem_of_app. by right. Qed.

(** ** The lines of the log *)

Lemma failure_line_error x :
  is_failure_line (Print ("Error converting " +:+ x)) = true.
Proof. by destruct x. Qed.

Lemma failure_line_converting x :
  is_failure_line (Print ("Converting: " +:+ x)) = false.
Proof. reflexivity. Qed.

Lemma count_cons p ev l :
  count p (ev :: l) = (if p ev then 1 else 0) + count p l.
Proof. reflexivity. Qed.

Lemma sorted_Permutation l : sorted l ≡ₚ l.
Proof. apply merge_sort_Permutation. Qed.

Lemma sorted_length l : length (sorted l) = length l.
Proof. by rewrite sorted_Permutation. Qed.

Ltac unfold_calls :=
  unfold attempt, Image_open, Image_convert, Image_save, read_bytes,
    write_bytes, unlink, rename, path_exists, dir_exists, glob, print, lift,
    leave, enter, mbind, M_bind, mret, M_ret, mthrow, M_throw.

Ltac other_lines :=
  repeat match goal with
  | |- context [is_failure_line (Print ?x)] =>
      change (is_failure_line (Print x)) with false
  | H : context [is_failure_line (Print ?x)] |- _ =>
      change (is_failure_line (Print x)) with false in H
  end.

Ltac books :=
  unfold ledger, attempts, failures, failed_unlinks in *;
  rewrite ?count_cons, ?failure_line_error, ?failure_line_converting in *;
  other_lines; simpl in *; try lia.

Section Convert.
Context (C : codec) (E : env).

Lemma convert_one_books cls del s heic w :
  ∃ s' w', convert_one C E cls del s heic w = (Ok s', w') ∧
    ledger del (log w) (total_converted s) (total_deleted s) (total_errors s)
           (log w') (total_converted s') (total_deleted s') (total_errors s') ∧
    attempts (log w') = attempts (log w) + 1 ∧
    listed (log w') = listed (log w) ∧
    log w `suffix_of` log w'.
Proof.
  unfold convert_one. unfold_calls.
  repeat (case_match; simpl in *; simplify_eq);
    (eexists _, _; split; [reflexivity|]; simpl;
     split_and!; [books; destruct del; simplify_eq; split_and!; books
                 | books | done | ]).
  all: try by (eexists [_; _; _]).
  all: try by (eexists [_; _; _; _]).
  all: try by (eexists [_; _; _; _; _]).
  all: try by (eexists [_; _]).
Qed.

Lemma ledger_refl del l c d e : ledger del l c d e l c d e.
Proof. unfold ledger. destruct del; split_and!; lia. Qed.

Lemma ledger_trans del l0 c0 d0 e0 l1 c1 d1 e1 l2 c2 d2 e2 :
  ledger del l0 c0 d0 e0 l1 c1 d1 e1 →
  ledger del l1 c1 d1 e1 l2 c2 d2 e2 →
  ledger del l0 c0 d0 e0 l2 c2 d2 e2.
Proof. unfold ledger. destruct del; intros; split_and!; lia. Qed.

Lemma scan_pattern_not_heic cls :
  cls ∈ class_folders →
  String.eqb (Text.lower cls +:+ "*.jpg") "*.HEIC"
  || String.eqb (Text.lower cls +:+ "*.jpg") "*.heic" = false.
Proof.
  unfold class_folders. rewrite !elem_of_cons, elem_of_nil.
  intros [->|[->|[->|[]]]]; reflexivity.
Qed.

(** The loop over [heic_files] of one class folder. *)
Lemma convert_loop_books cls del heic_files s w :
  ∃ s' w',
    for_each (convert_one C E cls del) heic_files s w = (Ok s', w') ∧
    ledger del (log w) (total_converted s) (total_deleted s) (total_errors s)
           (log w') (total_converted s') (total_deleted s') (total_errors s') ∧
    attempts (log w') = attempts (log w) + Z.of_nat (length heic_files) ∧
    listed (log w') = listed (log w) ∧
    log w `suffix_of` log w'.
Proof.
  edestruct (for_each_ind (convert_one C E cls del)
    (λ rest s1 w1,
      ledger del (log w) (total_converted s) (total_deleted s)
             (total_errors s) (log w1) (total_converted s1)
             (total_deleted s1) (total_errors s1) ∧
      attempts (log w1) + Z.of_nat (length rest) =
        attempts (log w) + Z.of_nat (length heic_files) ∧
      listed (log w1) = listed (log w) ∧
      log w `suffix_of` log w1) heic_files s w)
    as (s' & w' & Hrun & Hl & Ha & Hli & Hsuf).
  - split_and!; [apply ledger_refl|done..].
  - intros x rest s1 w1 (Hl & Ha & Hli & Hsuf).
    destruct (convert_one_books cls del s1 x w1)
      as (s2 & w2 & Hrun & Hl2 & Ha2 & Hli2 & Hsuf2).
    exists s2, w2. split_and!; [done|by eapply ledger_trans| |congruence|by etrans].
    simpl in Ha. lia.
  - exists s', w'. split_and!; [done..| |done|done]. simpl in Ha. lia.
Qed.

(** One turn of the loop over [class_folders]. *)
Lemma convert_class_books source_dir del c d e cls w :
  cls ∈ class_folders →
  ∃ c' d' e' w',
    convert_class C E source_dir del (c, d, e) cls w = (Ok (c', d', e'), w') ∧
    ledger del (log w) c d e (log w') c' d' e' ∧
    attempts (log w') - attempts (log w) = listed (log w') - listed (log w) ∧
    log w `suffix_of` log w' ∧
    ∃ r, DirExists cls r ∈ log w'.
Proof.
  intros Hcls. unfold convert_class, banner. unfold_calls. simpl.
  case_match; simpl.
  - eexists c, d, e, _. split; [reflexivity|]. simpl.
    split_and!; [books; destruct del; split_and!; lia|books
                |by eexists [_; _]|].
    eexists. rewrite !elem_of_cons. eauto.
  - destruct (sorted _) as [|h hs] eqn:Hsorted.
    + apply (f_equal length) in Hsorted.
      rewrite sorted_length, length_app in Hsorted. simpl in Hsorted.
      eexists c, d, e, _. split; [reflexivity|]. simpl.
      split_and!; [books; destruct del; split_and!; lia| | |].
      * books.
      * by eexists [_; _; _; _; _; _; _].
      * eexists. rewrite !elem_of_cons. eauto 10.
    + rewrite <-Hsorted.
      match goal with
      | |- context [for_each _ ?l ?s ?w0] =>
          destruct (convert_loop_books cls del l s w0)
            as (s' & w' & Hrun & Hl & Ha & Hli & Hsuf)
      end.
      unfold enter in *. simpl in *. rewrite Hrun.
      eexists _, _, _, _. split; [reflexivity|].
      rewrite sorted_length, length_app in Ha.
      rewrite scan_pattern_not_heic in Hli by done.
      unfold attempts in *. rewrite !count_cons in Ha. simpl in Ha.
      split_and!.
      * clear -Hl. books. destruct del; split_and!; lia.
      * lia.
      * etrans; [|exact Hsuf]. by eexists [_; _; _; _; _; _; _; _].
      * destruct Hsuf as [k ->]. eexists.
        rewrite elem_of_app, !elem_of_cons. eauto 12.
Qed.

(** The whole pass, from any world. *)
Lemma convert_run_books source_dir del w :
  ∃ c d e w',
    convert_and_rename_heic_to_jpg C E source_dir del w = (Ok (c, d, e), w') ∧
    ledger del (log w) 0 0 0 (log w') c d e ∧
    attempts (log w') - attempts (log w) = listed (log w') - listed (log w) ∧
    Forall (λ cls, ∃ r, DirExists cls r ∈ log w') class_folders.
Proof.
  assert (Hin : Forall (λ cls, cls ∈ class_folders) class_folders)
    by (apply Forall_forall; auto).
  unfold class_folders in Hin at 2.
  apply Forall_cons in Hin as [Hgood Hin].
  apply Forall_cons in Hin as [Hbad Hin].
  apply Forall_cons in Hin as [Hugly _].
  unfold convert_and_rename_heic_to_jpg, class_folders. simpl for_each.
  destruct (convert_class_books source_dir del 0 0 0 "Good" w Hgood)
    as (c1 & d1 & e1 & w1 & Hr1 & Hl1 & Ha1 & Hs1 & Hd1).
  destruct (convert_class_books source_dir del c1 d1 e1 "Bad" w1 Hbad)
    as (c2 & d2 & e2 & w2 & Hr2 & Hl2 & Ha2 & Hs2 & Hd2).
  destruct (convert_class_books source_dir del c2 d2 e2 "Ugly" w2 Hugly)
    as (c3 & d3 & e3 & w3 & Hr3 & Hl3 & Ha3 & Hs3 & Hd3).
  rewrite (bind_run _ _ w (c3, d3, e3) w3).
  2:{ rewrite (bind_run _ _ w _ _ Hr1), (bind_run _ _ w1 _ _ Hr2).
      rewrite (bind_run _ _ w2 _ _ Hr3). done. }
  unfold_calls. simpl.
  eexists c3, d3, e3, _. split; [reflexivity|]. simpl.
  pose proof (ledger_trans _ _ _ _ _ _ _ _ _ _ _ _ _
    (ledger_trans _ _ _ _ _ _ _ _ _ _ _ _ _ Hl1 Hl2) Hl3) as Hl.
  split_and!.
  - clear -Hl. books. destruct del; split_and!; lia.
  - books.
  - destruct Hd1 as [r1 Hd1], Hd2 as [r2 Hd2], Hd3 as [r3 Hd3].
    repeat apply Forall_cons_2; [exists r1|exists r2|exists r3|done];
      do 6 apply list_elem_of_further;
      eauto using elem_of_suffix.
Qed.
End Convert.

(** C9. The three totals [convert_and_rename_heic_to_jpg] returns are never
    negative, no more originals are deleted than files are converted, and
    without [delete_originals] none is deleted.  This holds in every
    environment, from every world, and the pass always returns. *)
Theorem convert_totals_bounds (C : codec) (E : env) (source_dir : string)
    (delete_originals : bool) (w : world) :
  ∃ converted deleted errors w',
    convert_and_rename_heic_to_jpg C E source_dir delete_originals w =
      (Ok (converted, deleted, errors), w') ∧
    0 ≤ converted ∧ 0 ≤ deleted ∧ 0 ≤ errors ∧ deleted ≤ converted ∧
    (if delete_originals then True else deleted = 0).
Proof.
  destruct (convert_run_books C E source_dir delete_originals w)
    as (c & d & e & w' & Hrun & Hl & _).
  exists c, d, e, w'. split; [done|].
  unfold ledger in Hl. destruct delete_originals; split_and!; lia.
Qed.

(** ** Names of the scheme *)

Lemma strip_keeps_digits lit s rest :
  Text.strip_nocase lit s = Some rest →
  is_Some (Text.re_search_digits rest) → is_Some (Text.re_search_digits s).
Proof.
  revert s. induction lit as [|a lit IH]; intros s Hs Hrest; simpl in Hs.
  - by simplify_eq.
  - destruct s as [|c s]; [done|]. case_match; [|done].
    simpl. case_match; eauto.
Qed.

Lemma pattern_match_has_digits label name :
  Text.pattern_match label name = true →
  is_Some (Text.re_search_digits name).
Proof.
  unfold Text.pattern_match. intros H.
  destruct (Text.strip_nocase label name) as [rest|] eqn:Hstrip; [|done].
  eapply strip_keeps_digits; [done|].
  destruct rest as [|c rest]; [done|]. simpl in *.
  destruct (Text.is_digit c); [eauto|done].
Qed.

(** ** The rename pass in any environment *)

Ltac prefix_of l l0 :=
  lazymatch l with
  | l0 => constr:(@nil event)
  | ?x :: ?l' => let p := prefix_of l' l0 in constr:(x :: p)
  end.

Ltac new_events :=
  simpl;
  lazymatch goal with
  | |- ?l = ?new ++ ?l0 =>
      let p := prefix_of l l0 in unify new p; reflexivity
  end.

Lemma calls_cons ev l :
  calls (ev :: l) = if is_call ev then ev :: calls l else calls l.
Proof. unfold calls. simpl. destruct ev; simpl; by rewrite ?filter_cons. Qed.

Section Rename.
Context (E : env).

Lemma classify_ok label jpgs already_renamed to_rename :
  Forall (λ x, Text.pattern_match label x = false) to_rename →
  ∃ already_renamed' to_rename',
    classify label jpgs already_renamed to_rename =
      Ok (already_renamed', to_rename') ∧
    Forall (λ x, Text.pattern_match label x = false) to_rename'.
Proof.
  revert already_renamed to_rename.
  induction jpgs as [|jpg jpgs IH]; intros ar tr Htr; simpl.
  - eauto.
  - destruct (Text.pattern_match label jpg) eqn:Hm.
    + destruct (pattern_match_has_digits _ _ Hm) as [ds ->]. by apply IH.
    + apply IH. apply Forall_app. split; [done|]. by constructor.
Qed.

Lemma rename_one_spec cls n jpg w :
  ∃ n' w' new,
    rename_one E cls n jpg w = (Ok n', w') ∧
    log w' = new ++ log w ∧
    n ≤ n' ≤ n + 1 ∧
    Forall (numbered_within cls n n') new ∧
    (renames_checked (calls (log w)) = true →
     renames_checked (calls (log w')) = true) ∧
    (Text.pattern_match (Text.lower cls) jpg = false →
     renames_only_new (log w) = true → renames_only_new (log w') = true).
Proof.
  unfold rename_one. unfold_calls.
  repeat (first [ match goal with
                  | |- context [bool_decide ?P] =>
                      destruct (bool_decide P) eqn:?
                  end
                | case_match ]; simpl in *; simplify_eq);
    (eexists _, _, _; split; [reflexivity|]; split; [new_events|]);
    (split; [lia|]); simpl; split_and!.
  all: try (repeat constructor; simpl; try (exists (n + 1); split; [lia|done]); done).
  all: try (intros Hc; rewrite ?bool_decide_eq_true_2 by done; exact Hc).
  all: try (intros -> ->; done).
Qed.

Lemma numbered_within_weaken cls lo hi lo' hi' ev :
  numbered_within cls lo hi ev → lo' ≤ lo → hi ≤ hi' →
  numbered_within cls lo' hi' ev.
Proof.
  destruct ev; simpl; try done. intros (k & ? & ->) ??. exists k. split; [lia|done].
Qed.

Lemma renames_only_new_app l1 l2 :
  renames_only_new (l1 ++ l2) =
    renames_only_new l1 && renames_only_new l2.
Proof. apply forallb_app. Qed.

(** The loop over [sorted(to_rename)], for any list of names. *)
Lemma rename_loop_spec cls l n w :
  ∃ n' w' new,
    for_each (rename_one E cls) l n w = (Ok n', w') ∧
    log w' = new ++ log w ∧
    n ≤ n' ∧
    Forall (numbered_within cls n n') new ∧
    (renames_checked (calls (log w)) = true →
     renames_checked (calls (log w')) = true) ∧
    (Forall (λ x, Text.pattern_match (Text.lower cls) x = false) l →
     renames_only_new (log w) = true → renames_only_new (log w') = true).
Proof.
  revert n w. induction l as [|jpg l IH]; intros n w.
  - exists n, w, []. split_and!; (done || lia).
  - destruct (rename_one_spec cls n jpg w)
      as (n1 & w1 & new1 & Hrun1 & Hlog1 & Hn1 & Hnum1 & Hck1 & Hnew1).
    destruct (IH n1 w1)
      as (n2 & w2 & new2 & Hrun2 & Hlog2 & Hn2 & Hnum2 & Hck2 & Hnew2).
    exists n2, w2, (new2 ++ new1). split_and!.
    + simpl. by rewrite (bind_run _ _ w _ _ Hrun1).
    + by rewrite Hlog2, Hlog1, (assoc_L (++)).
    + lia.
    + apply Forall_app. split.
      * eapply Forall_impl; [done|]. intros ev ?.
        eapply numbered_within_weaken; [done|lia..].
      * eapply Forall_impl; [done|]. intros ev ?.
        eapply numbered_within_weaken; [done|lia..].
    + auto.
    + intros [??]%Forall_cons. auto.
Qed.

(** One turn of the loop over [class_folders]. *)
Lemma rename_class_spec source_dir cls w :
  ∃ w',
    rename_class E source_dir cls w = (Ok (), w') ∧
    log w `suffix_of` log w' ∧
    (renames_checked (calls (log w)) = true →
     renames_checked (calls (log w')) = true) ∧
    (renames_only_new (log w) = true → renames_only_new (log w') = true).
Proof.
  unfold rename_class, banner. unfold_calls. simpl.
  destruct (negb _) eqn:Hfound; simpl.
  { eexists. split; [reflexivity|]. simpl. split_and!; [by eexists [_; _]|done..]. }
  match goal with
  | |- context [classify ?label ?jpgs [] []] =>
      destruct (classify_ok label jpgs [] []) as (ar & tr & -> & Htr);
        [constructor|]
  end.
  simpl. destruct tr as [|jpg tr].
  { eexists. split; [reflexivity|]. simpl.
    split_and!; [by eexists [_; _; _; _; _; _; _; _]|done..]. }
  assert (Hsorted : Forall (λ x, Text.pattern_match (Text.lower cls) x = false)
                      (sorted (jpg :: tr))).
  { by rewrite sorted_Permutation. }
  match goal with
  | |- context [for_each _ ?l ?n ?w0] =>
      destruct (rename_loop_spec cls l n w0)
        as (n' & w' & new & Hrun & Hlog & _ & _ & Hck & Hnew)
  end.
  rewrite Hrun. simpl in *.
  eexists. split; [reflexivity|]. simpl.
  split_and!.
  - rewrite Hlog. eexists (_ :: _ :: new ++ [_; _; _; _; _; _; _; _]).
    simpl. by rewrite <-(assoc_L (++)).
  - intros Hc. by apply Hck.
  - intros Ho. by apply Hnew.
Qed.

Lemma rename_run_spec source_dir w :
  ∃ w',
    rename_jpg_files E source_dir w = (Ok (), w') ∧
    log w `suffix_of` log w' ∧
    (renames_checked (calls (log w)) = true →
     renames_checked (calls (log w')) = true) ∧
    (renames_only_new (log w) = true → renames_only_new (log w') = true).
Proof.
  unfold rename_jpg_files, class_folders. simpl for_each.
  destruct (rename_class_spec source_dir "Good" w) as (w1 & Hr1 & Hs1 & Hc1 & Hn1).
  destruct (rename_class_spec source_dir "Bad" w1) as (w2 & Hr2 & Hs2 & Hc2 & Hn2).
  destruct (rename_class_spec source_dir "Ugly" w2) as (w3 & Hr3 & Hs3 & Hc3 & Hn3).
  exists w3. split_and!.
  - rewrite (bind_run _ _ w _ _ Hr1), (bind_run _ _ w1 _ _ Hr2).
    by rewrite (bind_run _ _ w2 _ _ Hr3).
  - by repeat (etrans; [done|]).
  - auto.
  - auto.
Qed.
End Rename.

(** ** The rename pass when nothing else touches the tree *)

Section RenameQuiet.
Context (t0 : tree).

Lemma rename_one_quiet cls n jpg w :
  Text.pattern_match (Text.lower cls) jpg = false →
  keeps t0 (fs w) → no_replaced (log w) = true →
  ∃ n' w',
    rename_one quiet_env cls n jpg w = (Ok n', w') ∧
    keeps t0 (fs w') ∧ no_replaced (log w') = true.
Proof.
  intros Hjpg Hkeep Hlog. unfold rename_one. unfold_calls. simpl.
  repeat (first [ match goal with
                  | |- context [bool_decide ?P] =>
                      destruct (bool_decide P) eqn:?
                  end
                | case_match ]; simpl in *; simplify_eq);
    (eexists _, _; split; [reflexivity|]; simpl; split; [|done]);
    try done.
  intros cls' name bytes Hin Hname.
  specialize (Hkeep cls' name bytes Hin Hname).
  destruct (decide (cls' = cls)) as [->|Hne].
  - rewrite lookup_insert_eq. simpl.
    match goal with H : fs w !! cls = Some _ |- _ => rewrite H in * end.
    simpl in Hkeep.
    rewrite lookup_insert_ne.
    + rewrite lookup_delete_ne; [done|]. intros ->. congruence.
    + intros <-. congruence.
  - by rewrite lookup_insert_ne.
Qed.

Lemma rename_loop_quiet cls l n w :
  Forall (λ x, Text.pattern_match (Text.lower cls) x = false) l →
  keeps t0 (fs w) → no_replaced (log w) = true →
  ∃ n' w',
    for_each (rename_one quiet_env cls) l n w = (Ok n', w') ∧
    keeps t0 (fs w') ∧ no_replaced (log w') = true.
Proof.
  intros Hl. revert n w.
  induction Hl as [|jpg l Hjpg Hl IH]; intros n w Hkeep Hlog.
  - by exists n, w.
  - destruct (rename_one_quiet cls n jpg w Hjpg Hkeep Hlog)
      as (n1 & w1 & Hrun1 & Hkeep1 & Hlog1).
    destruct (IH n1 w1 Hkeep1 Hlog1) as (n2 & w2 & Hrun2 & ?).
    exists n2, w2. split; [|done].
    simpl. by rewrite (bind_run _ _ w _ _ Hrun1).
Qed.

Lemma rename_class_quiet source_dir cls w :
  keeps t0 (fs w) → no_replaced (log w) = true →
  ∃ w',
    rename_class quiet_env source_dir cls w = (Ok (), w') ∧
    keeps t0 (fs w') ∧ no_replaced (log w') = true.
Proof.
  intros Hkeep Hlog. unfold rename_class, banner. unfold_calls. simpl.
  destruct (negb _) eqn:Hfound; simpl.
  { eexists. split; [reflexivity|]. by simpl. }
  match goal with
  | |- context [classify ?label ?jpgs [] []] =>
      destruct (classify_ok label jpgs [] []) as (ar & tr & -> & Htr);
        [constructor|]
  end.
  simpl. destruct tr as [|jpg tr].
  { eexists. split; [reflexivity|]. by simpl. }
  assert (Hsorted : Forall (λ x, Text.pattern_match (Text.lower cls) x = false)
                      (sorted (jpg :: tr))).
  { by rewrite sorted_Permutation. }
  match goal with
  | |- context [for_each _ ?l ?n ?w0] =>
      destruct (rename_loop_quiet cls l n w0 Hsorted)
        as (n' & w' & Hrun & Hkeep' & Hlog'); [done..|]
  end.
  rewrite Hrun. simpl.
  eexists. split; [reflexivity|]. by simpl.
Qed.

Lemma rename_run_quiet source_dir w :
  keeps t0 (fs w) → no_replaced (log w) = true →
  ∃ w',
    rename_jpg_files quiet_env source_dir w = (Ok (), w') ∧
    keeps t0 (fs w') ∧ no_replaced (log w') = true.
Proof.
  intros Hkeep Hlog.
  unfold rename_jpg_files, class_folders. simpl for_each.
  destruct (rename_class_quiet source_dir "Good" w Hkeep Hlog)
    as (w1 & Hr1 & Hk1 & Hl1).
  destruct (rename_class_quiet source_dir "Bad" w1 Hk1 Hl1)
    as (w2 & Hr2 & Hk2 & Hl2).
  destruct (rename_class_quiet source_dir "Ugly" w2 Hk2 Hl2)
    as (w3 & Hr3 & Hk3 & Hl3).
  exists w3. split; [|done].
  rewrite (bind_run _ _ w _ _ Hr1), (bind_run _ _ w1 _ _ Hr2).
  by rewrite (bind_run _ _ w2 _ _ Hr3).
Qed.
End RenameQuiet.

(** ** Numbers and names *)

Lemma string_app_length s1 s2 :
  String.length (s1 +:+ s2) = (String.length s1 + String.length s2)%nat.
Proof. induction s1 as [|c s1 IH]; simpl; [done|]. by rewrite IH. Qed.

Lemma string_app_inj_r s1 s2 tail : s1 +:+ tail = s2 +:+ tail → s1 = s2.
Proof.
  revert s2. induction s1 as [|c s1 IH]; intros [|c2 s2] H.
  - done.
  - apply (f_equal String.length) in H.
    rewrite !string_app_length in H. simpl in H. lia.
  - apply (f_equal String.length) in H.
    rewrite !string_app_length in H. simpl in H. lia.
  - change (String c (s1 +:+ tail) = String c2 (s2 +:+ tail)) in H.
    injection H as -> H. f_equal. by apply IH.
Qed.

Lemma scheme_name_inj cls k n : scheme_name cls k = scheme_name cls n → k = n.
Proof.
  unfold scheme_name. intros H. apply String.app_inj in H.
  apply string_app_inj_r in H. exact (pretty_Z_inj _ _ H).
Qed.

(** C3. In [rename_jpg_files], when the name [<label><n>.jpg] computed for
    a file is taken (line 83), the turn of that file ends there: the file
    is not renamed, the line "Skipping (target exists)" is printed, and the
    number [n] is used up.  In the whole run of the loop no file is renamed
    to that name: the files before got smaller numbers and the files
    after get larger ones.  The loop goes on with all the files after it,
    and a file whose own source is there and whose own target is free has
    its [rename] called, whatever happened to the files before it. *)
Theorem rename_collision_skips (E : env) (cls jpg : string)
    (m0 max_num : Z) (before rest : list string) (w0 w : world)
    (Hbefore : for_each (rename_one E cls) before m0 w0 = (Ok max_num, w))
    (Hsrc : is_Some (enter E w !! cls ≫= (.!! jpg)))
    (Hdst : is_Some (enter E (leave w (enter E w) (Exists cls jpg true))
                       !! cls ≫= (.!! scheme_name cls (max_num + 1)))) :
  let n := max_num + 1 in
  let new_name := scheme_name cls n in
  let skipped :=
    {| fs := enter E (leave w (enter E w) (Exists cls jpg true));
       now := S (S (now w));
       log := Print ("  Skipping (target exists): " +:+ new_name)
              :: Exists cls new_name true :: Exists cls jpg true :: log w |} in
  rename_one E cls max_num jpg w = (Ok n, skipped) ∧
  for_each (rename_one E cls) (before ++ jpg :: rest) m0 w0 =
    for_each (rename_one E cls) rest n skipped ∧
  (∃ n' w' new,
     for_each (rename_one E cls) (before ++ jpg :: rest) m0 w0 = (Ok n', w') ∧
     log w' = new ++ log w0 ∧
     Forall (λ ev, ∀ c src o, ev ≠ Rename c src new_name o) new) ∧
  (∀ m jpg' w1,
     is_Some (enter E w1 !! cls ≫= (.!! jpg')) →
     enter E (leave w1 (enter E w1) (Exists cls jpg' true))
       !! cls ≫= (.!! scheme_name cls (m + 1)) = None →
     ∃ w1' new o,
       rename_one E cls m jpg' w1 = (Ok (m + 1), w1') ∧
       log w1' = new ++ log w1 ∧
       Rename cls jpg' (scheme_name cls (m + 1)) o ∈ new).
Proof.
  intros n new_name skipped.
  assert (Hone : rename_one E cls max_num jpg w = (Ok n, skipped)).
  { subst skipped new_name n. unfold rename_one. unfold_calls.
    unfold enter, leave, scheme_name, mbind in Hsrc, Hdst. simpl in Hdst.
    rewrite bool_decide_eq_true_2 by done. simpl.
    rewrite bool_decide_eq_true_2 by done. done. }
  assert (Hsplit : ∀ l' m' w', 
    for_each (rename_one E cls) before m0 w0 = (Ok m', w') →
    for_each (rename_one E cls) (before ++ l') m0 w0 =
      for_each (rename_one E cls) l' m' w').
  { clear. intros l'. revert m0 w0.
    induction before as [|b before IH]; intros m0 w0 m' w' H; simpl in *.
    - unfold mret, M_ret in H. by simplify_eq.
    - unfold mbind, M_bind in *.
      destruct (rename_one E cls m0 b w0) as [[m1|e] w1]; [|done]. by apply IH. }
  assert (Hloop : for_each (rename_one E cls) (before ++ jpg :: rest) m0 w0 =
                  for_each (rename_one E cls) rest n skipped).
  { rewrite (Hsplit _ _ _ Hbefore). simpl. by rewrite (bind_run _ _ w _ _ Hone). }
  split_and!; [done|done| |].
  - destruct (rename_loop_spec E cls before m0 w0)
      as (n1 & w1 & new1 & Hrun1 & Hlog1 & Hn1 & Hnum1 & _).
    rewrite Hbefore in Hrun1. simplify_eq.
    destruct (rename_loop_spec E cls rest n skipped)
      as (n2 & w2 & new2 & Hrun2 & Hlog2 & Hn2 & Hnum2 & _).
    exists n2, w2, (new2 ++ [Print ("  Skipping (target exists): " +:+ new_name);
                       Exists cls new_name true; Exists cls jpg true] ++ new1).
    split_and!.
    + by rewrite Hloop.
    + rewrite Hlog2. simpl. rewrite Hlog1. by rewrite <-(assoc_L (++)).
    + apply Forall_app. split; [|repeat apply Forall_cons_2; try done].
      * eapply Forall_impl; [done|]. intros [] Hev ??? ?; simplify_eq.
        destruct Hev as (k & ? & Hk%scheme_name_inj). lia.
      * eapply Forall_impl; [done|]. intros [] Hev ??? ?; simplify_eq.
        destruct Hev as (k & ? & Hk%scheme_name_inj). subst n. lia.
  - intros m jpg' w1 Hsrc' Hdst'.
    unfold rename_one. unfold_calls.
    unfold enter, leave, scheme_name, mbind in Hsrc', Hdst'. simpl in Hdst'.
    rewrite bool_decide_eq_true_2 by done. simpl.
    rewrite Hdst'. rewrite bool_decide_eq_false_2 by (by intros [??]).
    simpl. unfold scheme_name.
    repeat (case_match; simpl in *; simplify_eq);
      (eexists _, _, _; split; [reflexivity|]; split; [new_events|]);
      rewrite !elem_of_cons; eauto.
Qed.

(** ** What the convert pass leaves in the log *)

Section ConvertLog.
Context (C : codec) (E : env) (P : list event → Prop).
Context (P_print : ∀ l line, P l → P (Print line :: l)).
Context (P_dir : ∀ l cls r, P l → P (DirExists cls r :: l)).
Context (P_glob : ∀ l cls pat r, P l → P (Glob cls pat r :: l)).
Context (P_turn : ∀ cls del s heic w s' w',
  convert_one C E cls del s heic w = (Ok s', w') → P (log w) → P (log w')).

Lemma convert_loop_log cls del l s w s' w' :
  for_each (convert_one C E cls del) l s w = (Ok s', w') →
  P (log w) → P (log w').
Proof.
  revert s w. induction l as [|x l IH]; intros s w Hrun HP; simpl in Hrun.
  - unfold mret, M_ret in Hrun. by simplify_eq.
  - unfold mbind, M_bind in Hrun.
    destruct (convert_one C E cls del s x w) as [[s1|e] w1] eqn:Hone; [|done].
    eapply IH; [done|]. by eapply P_turn.
Qed.

Lemma convert_class_log source_dir del totals cls w r w' :
  convert_class C E source_dir del totals cls w = (Ok r, w') →
  P (log w) → P (log w').
Proof.
  unfold convert_class, banner. unfold_calls. simpl.
  destruct (negb _); simpl.
  { intros ? HP. simplify_eq. simpl. auto. }
  destruct (sorted _) as [|h hs] eqn:Hsorted.
  { intros ? HP. simplify_eq. simpl. auto 10. }
  destruct totals as [[c d] e].
  match goal with
  | |- context [for_each ?b ?l ?s ?w0] =>
      destruct (for_each b l s w0) as [[s1|e1] w1] eqn:Hloop; [|done]
  end.
  intros ? HP. simplify_eq.
  eapply convert_loop_log; [done|]. simpl. auto 12.
Qed.

Lemma convert_run_log source_dir del w r w' :
  convert_and_rename_heic_to_jpg C E source_dir del w = (Ok r, w') →
  P (log w) → P (log w').
Proof.
  unfold convert_and_rename_heic_to_jpg, class_folders. simpl for_each.
  unfold mbind at 1, M_bind at 1.
  unfold mbind at 1, M_bind at 1.
  destruct (convert_class C E source_dir del (0, 0, 0) "Good" w)
    as [[r1|e1] w1] eqn:H1; [|done].
  unfold mbind at 1, M_bind at 1.
  destruct (convert_class C E source_dir del r1 "Bad" w1)
    as [[r2|e2] w2] eqn:H2; [|done].
  unfold mbind at 1, M_bind at 1.
  destruct (convert_class C E source_dir del r2 "Ugly" w2)
    as [[r3|e3] w3] eqn:H3; [|done].
  unfold_calls. simpl. intros ? HP. simplify_eq. simpl.
  do 6 apply P_print.
  eapply convert_class_log; [done|].
  eapply convert_class_log; [done|].
  by eapply convert_class_log.
Qed.
End ConvertLog.

Lemma convert_one_calls C E cls del s heic w s' w' :
  convert_one C E cls del s heic w = (Ok s', w') →
  (unlinks_follow_save (calls (log w)) = true →
   unlinks_follow_save (calls (log w')) = true) ∧
  (no_file_check (log w) = true → no_file_check (log w') = true).
Proof.
  unfold convert_one. unfold_calls.
  repeat (case_match; simpl in *; simplify_eq); intros ?; simplify_eq; simpl;
    (split; [|done]); try done;
    intros Hc; rewrite ?bool_decide_eq_true_2 by done; exact Hc.
Qed.

(** ** Decimal numerals *)

Lemma is_digit_pretty_N_char x : Text.is_digit (pretty_N_char x) = true.
Proof. unfold pretty_N_char. by repeat case_match. Qed.

Lemma digit_value_pretty_N_char x :
  (x < 10)%N → Text.digit_value (pretty_N_char x) = Z.of_N x.
Proof.
  intros Hx.
  assert (x = 0 ∨ x = 1 ∨ x = 2 ∨ x = 3 ∨ x = 4 ∨ x = 5 ∨ x = 6 ∨ x = 7
          ∨ x = 8 ∨ x = 9)%N as H by lia.
  repeat (destruct H as [->|H]; [done|]). by subst.
Qed.

Lemma all_digits_pretty_N_go x s :
  all_digits s = true → all_digits (pretty_N_go x s) = true.
Proof.
  revert s. induction (N.lt_wf_0 x) as [x _ IH]; intros s Hs.
  destruct (decide (x = 0)%N) as [->|Hx].
  - by rewrite pretty_N_go_0.
  - rewrite pretty_N_go_step by lia. apply IH.
    + apply N.div_lt; lia.
    + simpl. by rewrite is_digit_pretty_N_char.
Qed.

Lemma int_acc_app acc s :
  all_digits s = true →
  Text.int_acc acc s = acc * 10 ^ Z.of_nat (String.length s) + Text.int s.
Proof.
  unfold Text.int. revert acc. induction s as [|c s IH]; intros acc Hs.
  - simpl. lia.
  - simpl in Hs. apply andb_true_iff in Hs as [Hc Hs].
    cbn [Text.int_acc String.length].
    rewrite (IH (10 * acc + _)), (IH (10 * 0 + _)) by done.
    rewrite Nat2Z.inj_succ, Z.pow_succ_r by lia. lia.
Qed.

Lemma int_pretty_N_go x s :
  all_digits s = true →
  Text.int (pretty_N_go x s) =
    Z.of_N x * 10 ^ Z.of_nat (String.length s) + Text.int s.
Proof.
  revert s. induction (N.lt_wf_0 x) as [x _ IH]; intros s Hs.
  destruct (decide (x = 0)%N) as [->|Hx].
  - rewrite pretty_N_go_0. lia.
  - rewrite pretty_N_go_step by lia.
    rewrite IH; [|apply N.div_lt; lia|simpl; by rewrite is_digit_pretty_N_char].
    unfold Text.int at 1. cbn [Text.int_acc String.length].
    rewrite int_acc_app by done.
    rewrite digit_value_pretty_N_char by (apply N.mod_lt; lia).
    rewrite Nat2Z.inj_succ, Z.pow_succ_r by lia.
    rewrite N2Z.inj_div, N2Z.inj_mod.
    pose proof (Z.div_mod (Z.of_N x) 10 ltac:(lia)). simpl (Z.of_N 10). lia.
Qed.

Lemma pretty_Z_nonneg n :
  0 ≤ n → pretty n = if decide (n = 0) then "0" else pretty_N_go (Z.to_N n) "".
Proof.
  intros Hn. destruct n as [|p|p]; [done| |lia].
  reflexivity.
Qed.

Lemma all_digits_pretty n : 0 ≤ n → all_digits (pretty n) = true.
Proof.
  intros Hn. rewrite pretty_Z_nonneg by done. case_decide; [done|].
  by apply all_digits_pretty_N_go.
Qed.

Lemma int_pretty n : 0 ≤ n → Text.int (pretty n) = n.
Proof.
  intros Hn. rewrite pretty_Z_nonneg by done. case_decide; [by subst|].
  rewrite int_pretty_N_go by done. simpl. unfold Text.int. simpl. lia.
Qed.

Lemma pretty_nonempty n : 0 ≤ n → pretty n ≠ "".
Proof.
  intros Hn. rewrite pretty_Z_nonneg by done. case_decide; [done|].
  intros Hempty. apply (f_equal Text.int) in Hempty.
  rewrite int_pretty_N_go in Hempty by done.
  unfold Text.int in Hempty. simpl in Hempty. lia.
Qed.

(** ** Runs of digits and patterns *)

Lemma string_app_cons c s t : String c s +:+ t = String c (s +:+ t).
Proof. reflexivity. Qed.

Lemma string_app_nil s : "" +:+ s = s.
Proof. reflexivity. Qed.

Lemma string_app_assoc s1 s2 s3 : (s1 +:+ s2) +:+ s3 = s1 +:+ s2 +:+ s3.
Proof.
  induction s1 as [|c s1 IH]; [done|].
  by rewrite !string_app_cons, IH.
Qed.

Lemma span_digits_app ds rest :
  all_digits ds = true → stops rest = true →
  Text.span_digits (ds +:+ rest) = (ds, rest).
Proof.
  intros Hds Hrest. induction ds as [|c ds IH].
  - rewrite string_app_nil. destruct rest as [|c rest]; [done|].
    simpl in *. by destruct (Text.is_digit c).
  - simpl in Hds. apply andb_true_iff in Hds as [Hc Hds].
    rewrite string_app_cons. simpl. by rewrite Hc, IH.
Qed.

Lemma re_search_digits_skip label s :
  no_digit label = true →
  Text.re_search_digits (label +:+ s) = Text.re_search_digits s.
Proof.
  intros Hl. induction label as [|c label IH]; [done|].
  simpl in Hl. apply andb_true_iff in Hl as [Hc Hl].
  rewrite string_app_cons. simpl.
  destruct (Text.is_digit c); [done|]. by apply IH.
Qed.

Lemma re_search_digits_run ds rest :
  ds ≠ "" → all_digits ds = true → stops rest = true →
  Text.re_search_digits (ds +:+ rest) = Some ds.
Proof.
  intros Hne Hds Hrest. destruct ds as [|c ds]; [done|].
  pose proof (span_digits_app _ _ Hds Hrest) as Hspan.
  simpl in Hds. apply andb_true_iff in Hds as [Hc Hds].
  rewrite string_app_cons in *.
  cbn [Text.re_search_digits]. rewrite Hc. by rewrite Hspan.
Qed.

Lemma strip_nocase_app label rest :
  Text.strip_nocase label (label +:+ rest) = Some rest.
Proof.
  induction label as [|c label IH]; [done|].
  rewrite string_app_cons. simpl. by rewrite Ascii.eqb_refl.
Qed.

Lemma fnmatch_nil name :
  Text.fnmatch "" name = if name is "" then true else false.
Proof. reflexivity. Qed.

Lemma fnmatch_cons p pat c name :
  Ascii.eqb p "*" = false →
  Text.fnmatch (String p pat) (String c name) =
    Ascii.eqb p c && Text.fnmatch pat name.
Proof. intros H. unfold Text.fnmatch. rewrite H. reflexivity. Qed.

Lemma fnmatch_cons_nil p pat :
  Ascii.eqb p "*" = false → Text.fnmatch (String p pat) "" = false.
Proof. intros H. unfold Text.fnmatch. rewrite H. reflexivity. Qed.

Lemma fnmatch_star_nil pat :
  Text.fnmatch (String "*" pat) "" = Text.fnmatch pat "" || false.
Proof. reflexivity. Qed.

Lemma fnmatch_star_cons pat c name :
  Text.fnmatch (String "*" pat) (String c name) =
    Text.fnmatch pat (String c name) || Text.fnmatch (String "*" pat) name.
Proof. reflexivity. Qed.

Lemma fnmatch_literal pat : no_star pat = true → Text.fnmatch pat pat = true.
Proof.
  induction pat as [|c pat IH]; [done|]. simpl.
  intros [Hc Hp]%andb_true_iff. apply negb_true_iff in Hc.
  rewrite fnmatch_cons, Ascii.eqb_refl by done. by apply IH.
Qed.

Lemma fnmatch_star pat mid :
  no_star pat = true →
  Text.fnmatch (String "*" pat) (mid +:+ pat) = true.
Proof.
  intros Hp. induction mid as [|c mid IH].
  - rewrite string_app_nil. destruct pat as [|p pat].
    + reflexivity.
    + by rewrite fnmatch_star_cons, fnmatch_literal.
  - rewrite string_app_cons, fnmatch_star_cons, IH. apply orb_true_r.
Qed.

Lemma fnmatch_prefix_star lit pat mid :
  no_star lit = true → no_star pat = true →
  Text.fnmatch (lit +:+ String "*" pat) (lit +:+ mid +:+ pat) = true.
Proof.
  intros Hl Hp. induction lit as [|c lit IH].
  - rewrite !string_app_nil. by apply fnmatch_star.
  - simpl in Hl. apply andb_true_iff in Hl as [Hc Hl].
    apply negb_true_iff in Hc.
    rewrite !string_app_cons, fnmatch_cons, Ascii.eqb_refl by done.
    by apply IH.
Qed.

Lemma last_char_app s t : t ≠ "" → last_char (s +:+ t) = last_char t.
Proof.
  intros Ht. induction s as [|c s IH]; [done|].
  rewrite string_app_cons. simpl.
  destruct (s +:+ t) eqn:Hst; [|done].
  destruct s; [|done]. by rewrite string_app_nil in Hst.
Qed.

Lemma fnmatch_literal_eq pat name :
  no_star pat = true → Text.fnmatch pat name = true → name = pat.
Proof.
  revert name. induction pat as [|p pat IH]; intros name Hp Hm.
  - rewrite fnmatch_nil in Hm. by destruct name.
  - simpl in Hp. apply andb_true_iff in Hp as [Hc Hp].
    apply negb_true_iff in Hc. destruct name as [|c name].
    + by rewrite fnmatch_cons_nil in Hm.
    + rewrite fnmatch_cons in Hm by done.
      apply andb_true_iff in Hm as [->%Ascii.eqb_eq Hm]. f_equal. by apply IH.
Qed.

Lemma fnmatch_star_inv pat name :
  no_star pat = true → Text.fnmatch (String "*" pat) name = true →
  ∃ pre, name = pre +:+ pat.
Proof.
  intros Hp. induction name as [|c name IH]; intros Hm.
  - rewrite fnmatch_star_nil, orb_false_r in Hm.
    apply fnmatch_literal_eq in Hm; [|done]. by exists "".
  - rewrite fnmatch_star_cons in Hm. apply orb_true_iff in Hm as [Hm|Hm].
    + apply fnmatch_literal_eq in Hm; [|done]. by exists "".
    + destruct (IH Hm) as [pre ->]. by exists (String c pre).
Qed.

Lemma strip_nocase_inv lit s rest :
  Text.strip_nocase lit s = Some rest → ∃ pre, s = pre +:+ rest.
Proof.
  revert s. induction lit as [|a lit IH]; intros s H; simpl in H.
  - simplify_eq. by exists "".
  - destruct s as [|c s]; [done|]. case_match; [|done].
    destruct (IH _ H) as [pre ->]. by exists (String c pre).
Qed.

Lemma span_digits_inv s ds tail :
  Text.span_digits s = (ds, tail) → s = ds +:+ tail.
Proof.
  revert ds tail. induction s as [|c s IH]; intros ds tail H; simpl in H.
  - by simplify_eq.
  - destruct (Text.is_digit c); [|by simplify_eq].
    destruct (Text.span_digits s) as [ds' tail']. simplify_eq.
    rewrite string_app_cons. f_equal. by apply IH.
Qed.

Lemma lower_ascii_g c :
  Text.lower_ascii c = "g"%char → c = "g"%char ∨ c = "G"%char.
Proof.
  destruct c as [[] [] [] [] [] [] [] []]; vm_compute; intros; simplify_eq; auto.
Qed.

Lemma lower_ascii_nl c :
  Text.lower_ascii c = "010"%char → c = "010"%char.
Proof.
  destruct c as [[] [] [] [] [] [] [] []]; vm_compute; intros; simplify_eq; auto.
Qed.

Lemma lower_cons c s :
  Text.lower (String c s) = String (Text.lower_ascii c) (Text.lower s).
Proof. reflexivity. Qed.

(** A name of the scheme ends in [g], [G] or a line feed. *)
Lemma pattern_match_last label name :
  Text.pattern_match label name = true →
  last_char name = Some "g"%char ∨ last_char name = Some "G"%char
  ∨ last_char name = Some "010"%char.
Proof.
  unfold Text.pattern_match. intros H.
  destruct (Text.strip_nocase label name) as [rest|] eqn:Hstrip; [|done].
  destruct (Text.span_digits rest) as [ds tail] eqn:Hspan.
  apply strip_nocase_inv in Hstrip as [pre ->].
  apply span_digits_inv in Hspan as ->.
  apply andb_true_iff in H as [_ H].
  assert (tail ≠ "") as Htail.
  { intros ->. by vm_compute in H. }
  assert (ds +:+ tail ≠ "") as Hrest.
  { intros Hnil. apply (f_equal String.length) in Hnil.
    rewrite string_app_length in Hnil. destruct tail; [done|]. simpl in Hnil. lia. }
  rewrite !last_char_app by done.
  unfold Text.eq_nocase in H.
  apply orb_true_iff in H as [H|H]; apply String.eqb_eq in H.
  - destruct tail as [|a [|b [|c [|d [|]]]]];
      rewrite ?lower_cons in H; try discriminate H.
    injection H as _ _ _ Hd. apply lower_ascii_g in Hd as [->| ->]; auto.
  - destruct tail as [|a [|b [|c [|d [|e [|]]]]]];
      rewrite ?lower_cons in H; try discriminate H.
    injection H as _ _ _ _ He. apply lower_ascii_nl in He as ->; auto.
Qed.

Lemma heic_not_of_scheme label name :
  Text.fnmatch "*.HEIC" name = true ∨ Text.fnmatch "*.heic" name = true →
  Text.pattern_match label name = false.
Proof.
  intros Hm. destruct (Text.pattern_match label name) eqn:Hp; [|done].
  apply pattern_match_last in Hp.
  destruct Hm as [Hm|Hm]; apply fnmatch_star_inv in Hm as [pre ->]; try done;
    rewrite last_char_app in Hp by done; simpl in Hp;
    by destruct Hp as [Hp|[Hp|Hp]].
Qed.

Lemma heic_one_case name :
  Text.fnmatch "*.HEIC" name = true → Text.fnmatch "*.heic" name = false.
Proof.
  intros [pre ->]%fnmatch_star_inv; [|done].
  destruct (Text.fnmatch "*.heic" _) eqn:Hm; [|done].
  apply fnmatch_star_inv in Hm as [pre' Hm]; [|done].
  apply (f_equal last_char) in Hm. by rewrite !last_char_app in Hm.
Qed.

(** ** The names of the scheme in the three class folders *)

Lemma class_label_plain cls :
  cls ∈ class_folders →
  no_digit (Text.lower cls) = true ∧ no_star (Text.lower cls) = true.
Proof.
  unfold class_folders. rewrite !elem_of_cons, elem_of_nil.
  by intros [->|[->|[->|[]]]].
Qed.

Lemma scheme_first_digits cls n :
  cls ∈ class_folders → 0 ≤ n →
  Text.re_search_digits (scheme_name cls n) = Some (pretty n).
Proof.
  intros [Hd _]%class_label_plain Hn. unfold scheme_name.
  rewrite re_search_digits_skip by done.
  apply re_search_digits_run; [by apply pretty_nonempty|by apply all_digits_pretty|done].
Qed.

Lemma scheme_glob cls n :
  cls ∈ class_folders →
  Text.fnmatch (Text.lower cls +:+ "*.jpg") (scheme_name cls n) = true.
Proof.
  intros [_ Hs]%class_label_plain. by apply fnmatch_prefix_star.
Qed.

Lemma scheme_jpg cls n : Text.fnmatch "*.jpg" (scheme_name cls n) = true.
Proof.
  unfold scheme_name. rewrite <-string_app_assoc. by apply fnmatch_star.
Qed.

Lemma scheme_pattern cls n :
  0 ≤ n → Text.pattern_match (Text.lower cls) (scheme_name cls n) = true.
Proof.
  intros Hn. unfold Text.pattern_match, scheme_name.
  rewrite strip_nocase_app, span_digits_app; [|by apply all_digits_pretty|done].
  apply andb_true_iff. split; [|done].
  apply negb_true_iff, String.eqb_neq. by apply pretty_nonempty.
Qed.

Lemma scheme_not_heic cls n :
  Text.fnmatch "*.HEIC" (scheme_name cls n) = false ∧
  Text.fnmatch "*.heic" (scheme_name cls n) = false.
Proof.
  split; match goal with |- ?m = false => destruct m eqn:Hm; [|done] end;
    apply fnmatch_star_inv in Hm as [pre Hm]; try done;
    apply (f_equal last_char) in Hm; unfold scheme_name in Hm;
    rewrite <-string_app_assoc in Hm; by rewrite !last_char_app in Hm.
Qed.

(** ** The convert pass when nothing else touches the tree *)

Section ConvertQuiet.
Context (C : codec).

(** One turn: the original is converted and, on request, removed; or the
    image library raises and the tree stays as it is. *)
Lemma convert_one_quiet cls del s heic w d :
  fs w !! cls = Some d →
  ∃ w',
    match d !! heic ≫= jpeg_of C with
    | Some jpeg =>
        convert_one C quiet_env cls del s heic w =
          (Ok (Tally (next_num s + 1) (total_converted s + 1)
                 (if del then total_deleted s + 1 else total_deleted s)
                 (total_errors s)), w') ∧
        fs w' =
          <[cls := if del
                   then delete heic
                          (<[scheme_name cls (next_num s) := jpeg]> d)
                   else <[scheme_name cls (next_num s) := jpeg]> d]> (fs w)
    | None =>
        convert_one C quiet_env cls del s heic w =
          (Ok (Tally (next_num s) (total_converted s) (total_deleted s)
                 (total_errors s + 1)), w') ∧
        fs w' = fs w
    end.
Proof.
  intros Hd. unfold convert_one, jpeg_of. unfold_calls. simpl.
  rewrite Hd. simpl.
  destruct (d !! heic) as [bytes|] eqn:Hheic; simpl; [|by eexists].
  destruct (heif_open C bytes) as [img|]; simpl; [|by eexists].
  destruct (convert_RGB C img) as [rgb|]; simpl; [|by eexists].
  rewrite Hd. simpl. destruct del; simpl; [|by eexists].
  rewrite lookup_insert_eq. simpl.
  fold (scheme_name cls (next_num s)).
  destruct (decide (scheme_name cls (next_num s) = heic)) as [Heq|Hne].
  - rewrite Heq, lookup_insert_eq. simpl. eexists. split; [done|].
    simpl. by rewrite insert_insert_eq.
  - rewrite lookup_insert_ne, Hheic by done. simpl. eexists. split; [done|].
    simpl. by rewrite insert_insert_eq.
Qed.

(** The loop over the originals of a folder, when the image library
    accepts each of them. *)
Lemma convert_loop_quiet cls del l s d w :
  NoDup l → fs w !! cls = Some d →
  (∀ x, x ∈ l → is_Some (d !! x ≫= jpeg_of C)) →
  (∀ x k, x ∈ l → x ≠ scheme_name cls k) →
  ∃ w' d',
    for_each (convert_one C quiet_env cls del) l s w =
      (Ok (Tally (next_num s + Z.of_nat (length l))
             (total_converted s + Z.of_nat (length l))
             (if del then total_deleted s + Z.of_nat (length l)
              else total_deleted s)
             (total_errors s)), w') ∧
    fs w' = <[cls := d']> (fs w) ∧
    converted_into C del cls (next_num s) d l d'.
Proof.
  intros Hnd. revert s d w.
  induction Hnd as [|x l Hx Hnd IH]; intros s d w Hd Hok Hnames.
  - exists w, d. split_and!.
    + simpl. unfold mret, M_ret. destruct s, del; simpl; do 3 f_equal; lia.
    + by rewrite insert_id.
    + split_and!; [done|by intros ? ?%elem_of_nil|done].
  - destruct (Hok x) as [jpeg Hjpeg]; [by left|].
    destruct (convert_one_quiet cls del s x w d Hd) as [w1 H1].
    rewrite Hjpeg in H1. destruct H1 as [Hrun1 Hfs1].
    set (new := scheme_name cls (next_num s)) in *.
    set (d1 := if del then delete x (<[new := jpeg]> d)
               else <[new := jpeg]> d) in *.
    assert (Hd1 : ∀ y, y ≠ x → y ≠ new → d1 !! y = d !! y).
    { intros y ??. subst d1. destruct del.
      - by rewrite lookup_delete_ne, lookup_insert_ne.
      - by rewrite lookup_insert_ne. }
    assert (Hnew : x ≠ new) by (apply Hnames; by left).
    assert (Hd1new : d1 !! new = Some jpeg).
    { subst d1. destruct del.
      - by rewrite lookup_delete_ne, lookup_insert_eq.
      - by rewrite lookup_insert_eq. }
    assert (Hl : ∀ y, y ∈ l → d1 !! y = d !! y).
    { intros y Hy. apply Hd1; [by intros ->|]. apply Hnames. by right. }
    match type of Hrun1 with _ = (Ok ?s1, _) =>
      destruct (IH s1 d1 w1) as (w' & d' & Hrun & Hfs & Hc1 & Hc2 & Hc3)
    end.
    { by rewrite Hfs1, lookup_insert_eq. }
    { intros y Hy. rewrite Hl by done. apply Hok. by right. }
    { intros y k Hy. apply Hnames. by right. }
    simpl in *. exists w', d'. split_and!.
    + rewrite (bind_run _ _ w _ _ Hrun1), Hrun.
      destruct del; do 3 f_equal; lia.
    + by rewrite Hfs, Hfs1, insert_insert_eq.
    + split_and!.
      * intros [|i] name Hi; simpl in Hi.
        -- simplify_eq. rewrite Z.add_0_r, Hjpeg. fold new.
           rewrite Hc3; [done| |].
           ++ intros Hin. by eapply Hnames; [right|].
           ++ intros i _ Heq%scheme_name_inj. lia.
        -- replace (next_num s + Z.of_nat (S i))
             with (next_num s + 1 + Z.of_nat i) by lia.
           rewrite (Hc1 i name Hi). rewrite Hl; [done|].
           by eapply list_elem_of_lookup_2.
      * intros name [->|Hin]%elem_of_cons.
        -- rewrite Hc3; [| done |intros i _; by apply Hnames; left].
           subst d1. destruct del.
           ++ by rewrite lookup_delete_eq.
           ++ by rewrite lookup_insert_ne.
        -- rewrite (Hc2 name Hin). destruct del; [done|]. by apply Hl.
      * intros name Hnot Hfree.
        apply not_elem_of_cons in Hnot as [Hne Hnot].
        rewrite Hc3; [| done |].
        -- apply Hd1; [done|]. specialize (Hfree 0%nat ltac:(simpl; lia)).
           by rewrite Z.add_0_r in Hfree.
        -- intros i Hi. specialize (Hfree (S i) ltac:(simpl; lia)).
           by replace (next_num s + Z.of_nat (S i))
             with (next_num s + 1 + Z.of_nat i) in Hfree by lia.
Qed.

Lemma elem_of_glob_names pat d name :
  name ∈ glob_names pat d ↔
  Text.fnmatch pat name = true ∧ is_Some (d !! name).
Proof.
  unfold glob_names. rewrite list_elem_of_filter, elem_of_elements, elem_of_dom.
  done.
Qed.

Lemma NoDup_glob_names pat d : NoDup (glob_names pat d).
Proof. apply NoDup_filter, NoDup_elements. Qed.

Lemma elem_of_heic_files_of d name :
  name ∈ heic_files_of d ↔
  (Text.fnmatch "*.HEIC" name = true ∨ Text.fnmatch "*.heic" name = true)
  ∧ is_Some (d !! name).
Proof.
  unfold heic_files_of. rewrite sorted_Permutation, elem_of_app.
  rewrite !elem_of_glob_names. tauto.
Qed.

Lemma NoDup_heic_files_of d : NoDup (heic_files_of d).
Proof.
  unfold heic_files_of. rewrite sorted_Permutation.
  apply NoDup_app. split_and!; [apply NoDup_glob_names| |apply NoDup_glob_names].
  intros name [Hu _]%elem_of_glob_names [Hl _]%elem_of_glob_names.
  apply heic_one_case in Hu. congruence.
Qed.

Lemma heic_files_not_scheme d cls name k :
  name ∈ heic_files_of d → name ≠ scheme_name cls k.
Proof.
  intros [Hm _]%elem_of_heic_files_of ->.
  destruct (scheme_not_heic cls k). destruct Hm; congruence.
Qed.

(** One turn of the loop over [class_folders], on a folder that is
    there and whose originals the image library accepts. *)
Lemma convert_class_quiet source_dir cls del c dl e w d :
  cls ∈ class_folders → fs w !! cls = Some d →
  (∀ x, x ∈ heic_files_of d → is_Some (d !! x ≫= jpeg_of C)) →
  ∃ w' d',
    convert_class C quiet_env source_dir del (c, dl, e) cls w =
      (Ok (c + Z.of_nat (length (heic_files_of d)),
           (if del then dl + Z.of_nat (length (heic_files_of d)) else dl),
           e), w') ∧
    fs w' = <[cls := d']> (fs w) ∧
    converted_into C del cls
      (first_num (glob_names (Text.lower cls +:+ "*.jpg") d))
      d (heic_files_of d) d'.
Proof.
  intros Hcls Hd Hok.
  unfold convert_class, banner. unfold_calls. simpl. rewrite Hd.
  rewrite bool_decide_eq_true_2 by (by eexists). simpl. rewrite !Hd. simpl.
  fold (heic_files_of d).
  destruct (heic_files_of d) as [|h hs] eqn:Hheic.
  { eexists _, d. split_and!.
    - simpl. rewrite !Z.add_0_r. by destruct del.
    - simpl. by rewrite insert_id.
    - split_and!; [done|by intros ? ?%elem_of_nil|done]. }
  rewrite <-Hheic in *.
  match goal with
  | |- context [for_each _ _ ?s ?w0] =>
      destruct (convert_loop_quiet cls del (heic_files_of d) s d w0)
        as (w' & d' & Hrun & Hfs & Hinto)
  end.
  { apply NoDup_heic_files_of. }
  { done. }
  { done. }
  { intros x k. apply heic_files_not_scheme. }
  rewrite Hrun. simpl in *. rewrite ?Hd in *. simpl in *.
  exists w', d'. split_and!; [reflexivity|exact Hfs|exact Hinto].
Qed.

(** A turn on one folder leaves the other folders as they are. *)
Lemma convert_one_frame cls del s heic w s' w' cls0 :
  convert_one C quiet_env cls del s heic w = (Ok s', w') →
  cls ≠ cls0 → fs w' !! cls0 = fs w !! cls0.
Proof.
  unfold convert_one. unfold_calls.
  repeat (case_match; simpl in *; simplify_eq); intros ? Hne; simplify_eq;
    simpl; rewrite ?lookup_insert_ne by done; done.
Qed.
End ConvertQuiet.

(** What every turn on a folder keeps, the pass keeps, when nothing else
    touches the tree. *)
Section ConvertKeeps.
Context (C : codec) (P : tree → Prop).

Lemma convert_loop_keeps cls del l s w s' w' :
  (∀ s heic w s' w',
     convert_one C quiet_env cls del s heic w = (Ok s', w') →
     P (fs w) → P (fs w')) →
  for_each (convert_one C quiet_env cls del) l s w = (Ok s', w') →
  P (fs w) → P (fs w').
Proof.
  intros Hturn. revert s w.
  induction l as [|x l IH]; intros s w Hrun HP; simpl in Hrun.
  - unfold mret, M_ret in Hrun. by simplify_eq.
  - unfold mbind, M_bind in Hrun.
    destruct (convert_one C quiet_env cls del s x w) as [[s1|e] w1] eqn:Hone;
      [|done].
    eapply IH; [done|]. by eapply Hturn.
Qed.

Lemma convert_class_keeps source_dir del totals cls w r w' :
  (∀ s heic w s' w',
     convert_one C quiet_env cls del s heic w = (Ok s', w') →
     P (fs w) → P (fs w')) →
  convert_class C quiet_env source_dir del totals cls w = (Ok r, w') →
  P (fs w) → P (fs w').
Proof.
  intros Hturn. unfold convert_class, banner. unfold_calls. simpl.
  destruct (negb _); simpl.
  { intros ? HP. by simplify_eq. }
  destruct (sorted _) as [|h hs] eqn:Hsorted.
  { intros ? HP. by simplify_eq. }
  destruct totals as [[c d] e].
  match goal with
  | |- context [for_each ?b ?l ?s ?w0] =>
      destruct (for_each b l s w0) as [[s1|e1] w1] eqn:Hloop; [|done]
  end.
  intros ? HP. simplify_eq.
  by eapply convert_loop_keeps.
Qed.
End ConvertKeeps.

(** The pass on the three folders, seen from one of them: the turn of that
    folder starts from the folder as it was and what it leaves is what
    the pass leaves. *)
Lemma convert_run_at (C : codec) source_dir del t cls0 :
  cls0 ∈ class_folders →
  ∃ c dl e w0 r1 w1 totals w',
    fs w0 !! cls0 = t !! cls0 ∧
    convert_class C quiet_env source_dir del (c, dl, e) cls0 w0 = (Ok r1, w1) ∧
    convert_and_rename_heic_to_jpg C quiet_env source_dir del (boot t) =
      (Ok totals, w') ∧
    fs w' !! cls0 = fs w1 !! cls0.
Proof.
  intros Hcls0.
  assert (Hin : Forall (λ cls, cls ∈ class_folders) class_folders)
    by (apply Forall_forall; auto).
  unfold class_folders in Hin at 2.
  apply Forall_cons in Hin as [Hgood Hin].
  apply Forall_cons in Hin as [Hbad Hin].
  apply Forall_cons in Hin as [Hugly _].
  destruct (convert_class_books C quiet_env source_dir del 0 0 0 "Good"
              (boot t) Hgood) as (c1 & d1 & e1 & w1 & Hr1 & _).
  destruct (convert_class_books C quiet_env source_dir del c1 d1 e1 "Bad"
              w1 Hbad) as (c2 & d2 & e2 & w2 & Hr2 & _).
  destruct (convert_class_books C quiet_env source_dir del c2 d2 e2 "Ugly"
              w2 Hugly) as (c3 & d3 & e3 & w3 & Hr3 & _).
  assert (Hframe : ∀ cls totals w r w',
    cls ≠ cls0 →
    convert_class C quiet_env source_dir del totals cls w = (Ok r, w') →
    fs w' !! cls0 = fs w !! cls0).
  { intros cls totals w r w' Hne Hrun.
    eapply (convert_class_keeps C (λ t', t' !! cls0 = fs w !! cls0));
      [|exact Hrun|done].
    intros s heic wa s' wb Hone <-. by eapply convert_one_frame. }
  assert (Hrun : ∃ w',
    convert_and_rename_heic_to_jpg C quiet_env source_dir del (boot t) =
      (Ok (c3, d3, e3), w') ∧ fs w' = fs w3).
  { unfold convert_and_rename_heic_to_jpg, class_folders. simpl for_each.
    rewrite (bind_run _ _ (boot t) (c3, d3, e3) w3).
    2:{ rewrite (bind_run _ _ (boot t) _ _ Hr1), (bind_run _ _ w1 _ _ Hr2).
        rewrite (bind_run _ _ w2 _ _ Hr3). done. }
    unfold_calls. simpl. by eexists. }
  destruct Hrun as (w' & Hrun & Hfs).
  unfold class_folders in Hcls0.
  rewrite !elem_of_cons, elem_of_nil in Hcls0.
  destruct Hcls0 as [->|[->|[->|[]]]].
  - exists 0, 0, 0, (boot t), (c1, d1, e1), w1, (c3, d3, e3), w'.
    split_and!; [done|done|done|].
    rewrite Hfs, (Hframe "Ugly" _ _ _ _ ltac:(done) Hr3).
    by rewrite (Hframe "Bad" _ _ _ _ ltac:(done) Hr2).
  - exists c1, d1, e1, w1, (c2, d2, e2), w2, (c3, d3, e3), w'.
    split_and!; [|done|done|].
    + by rewrite (Hframe "Good" _ _ _ _ ltac:(done) Hr1).
    + by rewrite Hfs, (Hframe "Ugly" _ _ _ _ ltac:(done) Hr3).
  - exists c2, d2, e2, w2, (c3, d3, e3), w3, (c3, d3, e3), w'.
    split_and!; [|done|done|by rewrite Hfs].
    rewrite (Hframe "Bad" _ _ _ _ ltac:(done) Hr2).
    by rewrite (Hframe "Good" _ _ _ _ ltac:(done) Hr1).
Qed.

Lemma foldl_max_ge l a :
  a ≤ foldl Z.max a l ∧ ∀ x, x ∈ l → x ≤ foldl Z.max a l.
Proof.
  revert a. induction l as [|y l IH]; intros a; simpl.
  - split; [lia|]. by intros ? ?%elem_of_nil.
  - destruct (IH (a `max` y)) as [Ha Hl]. split; [lia|].
    intros x [->|Hx]%elem_of_cons; [lia|]. by apply Hl.
Qed.

Lemma maximum_elem_of x l m : maximum l = Some m → x ∈ l → x ≤ m.
Proof.
  destruct l as [|y l]; [done|]. simpl. intros [= <-].
  destruct (foldl_max_ge l y) as [Hy Hl].
  intros [->|Hx]%elem_of_cons; [done|]. by apply Hl.
Qed.

Lemma maximum_None l : maximum l = None ↔ l = [].
Proof. by destruct l. Qed.

Lemma nums_of_no_digits existing :
  (∀ name, name ∈ existing → Text.re_search_digits name = None) →
  nums_of existing = [].
Proof.
  unfold nums_of. induction existing as [|y l IH]; intros H; [done|].
  simpl. rewrite (H y) by left. simpl. apply IH.
  intros ??. apply H. by right.
Qed.

Lemma first_num_no_digits existing :
  (∀ name, name ∈ existing → Text.re_search_digits name = None) →
  first_num existing = 1.
Proof.
  intros Hnone. unfold first_num. destruct existing as [|x l]; [done|].
  by rewrite nums_of_no_digits.
Qed.

Lemma heic_files_gone (C : codec) cls next d d' :
  converted_into C true cls next d (heic_files_of d) d' →
  heic_files_of d' = [].
Proof.
  intros (_ & Hgone & Hrest). apply elem_of_nil_inv. intros x Hx.
  apply elem_of_heic_files_of in Hx as [Hm Hsome].
  destruct (decide (x ∈ heic_files_of d)) as [Hin|Hnot].
  - rewrite (Hgone x Hin) in Hsome. by destruct Hsome.
  - rewrite Hrest in Hsome; [|done|].
    + apply Hnot, elem_of_heic_files_of. done.
    + intros i _ ->. destruct (scheme_not_heic cls (next + Z.of_nat i)).
      destruct Hm; congruence.
Qed.

(** What the convert pass does in a class folder where no name that
    matches [<label>*.jpg] holds a digit, and whose files named [*.HEIC]
    or [*.heic] the image library all accepts: with deletion, run while
    nothing else touches the tree, it writes the [N] originals, in the
    order of their names, to [<label>1.jpg] ... [<label>N.jpg], removes
    them, leaves every other file as it was, and no file named [*.HEIC]
    or [*.heic] is left. *)
Lemma convert_numbers_from_one (C : codec) (source_dir : string) (t : tree)
    (cls : string) (d : dir)
    (Hcls : cls ∈ class_folders) (Hd : t !! cls = Some d)
    (Hfree : ∀ name, name ∈ glob_names (Text.lower cls +:+ "*.jpg") d →
               Text.re_search_digits name = None)
    (Hok : ∀ x, x ∈ heic_files_of d → is_Some (d !! x ≫= jpeg_of C)) :
  ∃ totals w' d',
    convert_and_rename_heic_to_jpg C quiet_env source_dir true (boot t) =
      (Ok totals, w') ∧
    fs w' !! cls = Some d' ∧
    StronglySorted String.le (heic_files_of d) ∧
    converted_into C true cls 1 d (heic_files_of d) d' ∧
    heic_files_of d' = [].
Proof.
  destruct (convert_run_at C source_dir true t cls Hcls)
    as (c & dl & e & w0 & r1 & w1 & totals & w' & Hw0 & Hclass & Hrun & Hw').
  rewrite Hd in Hw0.
  destruct (convert_class_quiet C source_dir cls true c dl e w0 d Hcls Hw0 Hok)
    as (w1' & d' & Hclass' & Hfs & Hinto).
  rewrite Hclass in Hclass'. simplify_eq.
  rewrite (first_num_no_digits _ Hfree) in Hinto.
  exists totals, w', d'. split_and!.
  - done.
  - by rewrite Hw', Hfs, lookup_insert_eq.
  - apply StronglySorted_merge_sort; apply _.
  - done.
  - by eapply heic_files_gone.
Qed.

Ltac in_list H :=
  repeat (apply elem_of_cons in H as [->|H]); [..|by apply elem_of_nil in H].

Lemma convert_numbers_from_one_fresh :
  let d : dir :=
    {[ "b.HEIC" := "heic b"; "a.heic" := "heic a"; "IMG_7.jpg" := "camera" ]} in
  heic_files_of d = ["a.heic"; "b.HEIC"] ∧
  ∃ totals w' d',
    convert_and_rename_heic_to_jpg toy_codec quiet_env "Training_Data" true
      (boot fresh_tree) = (Ok totals, w') ∧
    fs w' !! "Bad" = Some d' ∧
    StronglySorted String.le (heic_files_of d) ∧
    converted_into toy_codec true "Bad" 1 d (heic_files_of d) d' ∧
    heic_files_of d' = [].
Proof.
  intros d. split; [by vm_compute|].
  apply (convert_numbers_from_one toy_codec "Training_Data" fresh_tree "Bad" d).
  - by right; left.
  - reflexivity.
  - intros name Hin.
    set (l := glob_names _ _) in Hin. vm_compute in l. subst l.
    by apply elem_of_nil in Hin.
  - intros x Hin.
    set (l := heic_files_of _) in Hin. vm_compute in l. subst l.
    in_list Hin; vm_compute; eauto.
Defined.

(** C6.  The claim fails on the code, by the scan of lines 130-132: a
    folder without any file of the scheme and with one original, which the
    image library accepts, does not end up with [good1.jpg].  The original
    becomes [good8.jpg], because [good7b.jpg], which is not a renamed file,
    matches [good*.jpg] and holds the number 7. *)
Theorem convert_numbers_after_lookalike :
  let d : dir := {[ "a.HEIC" := "heic a"; "good7b.jpg" := "not numbered" ]} in
  let run := convert_and_rename_heic_to_jpg toy_codec quiet_env "Training_Data"
               true (boot lookalike_tree) in
  lookalike_tree !! "Good" = Some d ∧
  Forall (λ name, Text.pattern_match "good" name = false) (elements (dom d)) ∧
  heic_files_of d = ["a.HEIC"] ∧
  run.1 = Ok (1, 1, 0) ∧
  fs run.2 !! "Good" =
    Some {[ "good7b.jpg" := "not numbered"; "good8.jpg" := "jpeg:heic a" ]} ∧
  fs run.2 !! "Good" ≫= (.!! "good1.jpg") = None.
Proof. vm_compute. split_and!; try reflexivity. repeat constructor. Qed.

(** ** The end-to-end scenario *)

Lemma convert_class_missing (C : codec) source_dir del totals cls w :
  fs w !! cls = None →
  ∃ w',
    convert_class C quiet_env source_dir del totals cls w = (Ok totals, w') ∧
    fs w' = fs w.
Proof.
  intros Hnone. unfold convert_class. unfold_calls. simpl. rewrite Hnone.
  rewrite bool_decide_eq_false_2 by (by intros [??]). simpl. by eexists.
Qed.

Lemma rename_all_named (source_dir jpg jpeg : string) (n : nat)
    (l : list event) :
  let w1 :=
    {| fs := {[ "Good" := {[ "good1.jpg" := jpg; "good2.jpg" := jpeg ]} ]};
       now := n; log := l |} in
  ∃ w2, rename_jpg_files quiet_env source_dir w1 = (Ok (), w2) ∧ fs w2 = fs w1.
Proof.
  intros w1. eexists. split.
  - vm_compute. reflexivity.
  - reflexivity.
Qed.

(** C1. The end-to-end scenario: [Good] holds [IMG_001.HEIC] and
    [good1.jpg], and the image library accepts the original.  The convert
    pass with deletion returns (1, 1, 0); after the rename pass [Good]
    holds [good1.jpg], as it was, and [good2.jpg], the converted original,
    and nothing else: no file named [*.HEIC] or [*.heic] is left. *)
Theorem end_to_end_scenario (C : codec) (source_dir heic jpg jpeg : string)
    (Haccepted : jpeg_of C heic = Some jpeg) :
  let t : tree :=
    {[ "Good" := {[ "IMG_001.HEIC" := heic; "good1.jpg" := jpg ]} ]} in
  ∃ w1 w2,
    convert_and_rename_heic_to_jpg C quiet_env source_dir true (boot t) =
      (Ok (1, 1, 0), w1) ∧
    rename_jpg_files quiet_env source_dir w1 = (Ok (), w2) ∧
    fs w2 = {[ "Good" := {[ "good1.jpg" := jpg; "good2.jpg" := jpeg ]} ]} ∧
    heic_files_of {[ "good1.jpg" := jpg; "good2.jpg" := jpeg ]} = [].
Proof.
  intros t.
  set (d := ({[ "IMG_001.HEIC" := heic; "good1.jpg" := jpg ]} : dir)).
  assert (Hheic : heic_files_of d = ["IMG_001.HEIC"]) by (by vm_compute).
  assert (Hfirst : first_num (glob_names (Text.lower "Good" +:+ "*.jpg") d) = 2)
    by (by vm_compute).
  assert (Hgood : "Good" ∈ class_folders) by (by left).
  destruct (convert_class_quiet C source_dir "Good" true 0 0 0 (boot t) d)
    as (wa & d' & Hra & Hfsa & Hinto); [done|done| |].
  { rewrite Hheic. intros x ->%list_elem_of_singleton.
    replace (d !! "IMG_001.HEIC") with (Some heic) by done.
    simpl. rewrite Haccepted. by eexists. }
  rewrite Hheic, Hfirst in *. simpl in Hra, Hfsa.
  assert (Hd' : d' = {[ "good1.jpg" := jpg; "good2.jpg" := jpeg ]}).
  { destruct Hinto as (Hnew & Hgone & Hrest). apply map_eq. intros name.
    destruct (decide (name = "IMG_001.HEIC")) as [->|Hne1].
    { rewrite Hgone by (by left). by vm_compute. }
    destruct (decide (name = "good2.jpg")) as [->|Hne2].
    { specialize (Hnew 0%nat "IMG_001.HEIC" eq_refl).
      replace (d !! "IMG_001.HEIC") with (Some heic) in Hnew by (by vm_compute).
      simpl in Hnew. rewrite Haccepted in Hnew.
      change (scheme_name "Good" (2 + Z.of_nat 0)) with "good2.jpg" in Hnew.
      rewrite Hnew. by vm_compute. }
    rewrite Hrest.
    - subst d. destruct (decide (name = "good1.jpg")) as [->|Hne3];
        [by vm_compute|].
      rewrite !lookup_insert_ne by done. by rewrite !lookup_singleton_ne.
    - intros Hin%list_elem_of_singleton. exact (Hne1 Hin).
    - intros i Hi. simpl in Hi. assert (i = 0%nat) as -> by lia.
      change (scheme_name "Good" (2 + Z.of_nat 0)) with "good2.jpg".
      exact Hne2. }
  subst d'.
  destruct (convert_class_missing C source_dir true (1, 1, 0) "Bad" wa)
    as (wb & Hrb & Hfsb).
  { rewrite Hfsa. by vm_compute. }
  destruct (convert_class_missing C source_dir true (1, 1, 0) "Ugly" wb)
    as (wc & Hrc & Hfsc).
  { rewrite Hfsb, Hfsa. by vm_compute. }
  assert (Hfs : fs wc = {[ "Good" := {[ "good1.jpg" := jpg; "good2.jpg" := jpeg ]} ]}).
  { rewrite Hfsc, Hfsb, Hfsa. subst t. apply insert_singleton_eq. }
  destruct (rename_all_named source_dir jpg jpeg (now wc)
              (Print ("  Errors: " +:+ pretty 0)
               :: Print ("  HEIC files deleted: " +:+ pretty 1)
               :: Print ("  Converted: " +:+ pretty 1)
               :: Print (Text.times "=" 50)
               :: Print "CONVERSION SUMMARY"
               :: Print (Text.nl +:+ Text.times "=" 50) :: log wc))
    as (w2 & Hr2 & Hfs2).
  eexists _, w2. split_and!.
  - unfold convert_and_rename_heic_to_jpg, class_folders. simpl for_each.
    rewrite (bind_run _ _ (boot t) (1, 1, 0) wc).
    2:{ rewrite (bind_run _ _ (boot t) _ _ Hra), (bind_run _ _ wa _ _ Hrb).
        rewrite (bind_run _ _ wb _ _ Hrc). done. }
    unfold_calls. simpl. rewrite Hfs. reflexivity.
  - exact Hr2.
  - by rewrite Hfs2.
  - by vm_compute.
Qed.

Lemma end_to_end_scenario_witness :
  jpeg_of toy_codec "heic 001" = Some "jpeg:heic 001" ∧
  ∃ w1 w2,
    convert_and_rename_heic_to_jpg toy_codec quiet_env "photos" true
      (boot {[ "Good" :=
                 {[ "IMG_001.HEIC" := "heic 001"; "good1.jpg" := "jpeg one" ]} ]}) =
      (Ok (1, 1, 0), w1) ∧
    rename_jpg_files quiet_env "photos" w1 = (Ok (), w2) ∧
    fs w2 =
      {[ "Good" :=
           {[ "good1.jpg" := "jpeg one"; "good2.jpg" := "jpeg:heic 001" ]} ]} ∧
    heic_files_of
      {[ "good1.jpg" := "jpeg one"; "good2.jpg" := "jpeg:heic 001" ]} = [].
Proof.
  split; [reflexivity|].
  apply (end_to_end_scenario toy_codec "photos" "heic 001" "jpeg one"
           "jpeg:heic 001").
  reflexivity.
Defined.

(** ** The scenarios of the sync client *)

Lemma rename_collision_skips_witness :
  let E := intruder_env in
  let w := at_loop camera_tree in
  for_each (rename_one E "Good") [] 0 w = (Ok 0, w) ∧
  is_Some (enter E w !! "Good" ≫= (.!! "IMG_1.jpg")) ∧
  is_Some (enter E (leave w (enter E w) (Exists "Good" "IMG_1.jpg" true))
             !! "Good" ≫= (.!! scheme_name "Good" (0 + 1))) ∧
  ∃ skipped,
    rename_one E "Good" 0 "IMG_1.jpg" w = (Ok (0 + 1), skipped) ∧
    for_each (rename_one E "Good") ([] ++ ["IMG_1.jpg"; "IMG_2.jpg"]) 0 w =
      for_each (rename_one E "Good") ["IMG_2.jpg"] (0 + 1) skipped.
Proof.
  intros E w.
  assert (Hbefore : for_each (rename_one E "Good") [] 0 w = (Ok 0, w))
    by reflexivity.
  assert (Hsrc : is_Some (enter E w !! "Good" ≫= (.!! "IMG_1.jpg")))
    by (vm_compute; eauto).
  assert (Hdst :
    is_Some (enter E (leave w (enter E w) (Exists "Good" "IMG_1.jpg" true))
               !! "Good" ≫= (.!! scheme_name "Good" (0 + 1))))
    by (vm_compute; eauto).
  split_and!; [exact Hbefore|exact Hsrc|exact Hdst|].
  destruct (rename_collision_skips E "Good" "IMG_1.jpg" 0 0 [] ["IMG_2.jpg"]
              w w Hbefore Hsrc Hdst) as (Hone & Hloop & _).
  eexists. split; [exact Hone|exact Hloop].
Defined.

(** C8, as stated, fails for the convert pass: on the end-to-end
    scenario it removes [IMG_001.HEIC] and no call before that, in the
    whole run, checks that a file is there. *)
Lemma removals_in_context_counterexample :
  let run := convert_and_rename_heic_to_jpg toy_codec quiet_env "photos" true
               (boot scenario_tree) in
  run.1 = Ok (1, 1, 0) ∧
  calls (log run.2) =
    [DirExists "Ugly" false;
     DirExists "Bad" false;
     Unlink "Good" "IMG_001.HEIC" Done;
     Save "Good" "good2.jpg" Done;
     Open "Good" "IMG_001.HEIC" true;
     Glob "Good" "good*.jpg" ["good1.jpg"];
     Glob "Good" "*.heic" [];
     Glob "Good" "*.HEIC" ["IMG_001.HEIC"];
     DirExists "Good" true] ∧
  recheck_some_time_before (calls (log run.2)) = false.
Proof. vm_compute. split_and!; reflexivity. Qed.

(** ** The numbers above the first one are free *)

Lemma span_digits_all_digits s : all_digits (Text.span_digits s).1 = true.
Proof.
  induction s as [|c s IH]; [done|]. simpl.
  destruct (Text.is_digit c) eqn:Hc; [|done].
  destruct (Text.span_digits s) as [ds rest]. simpl in *. by rewrite Hc.
Qed.

Lemma re_search_digits_all_digits s ds :
  Text.re_search_digits s = Some ds → all_digits ds = true.
Proof.
  revert ds. induction s as [|c s IH]; intros ds; [done|].
  simpl Text.re_search_digits.
  destruct (Text.is_digit c) eqn:Hc; [|by apply IH].
  intros [= <-]. pose proof (span_digits_all_digits (String c s)) as H.
  simpl in H. by rewrite Hc in H.
Qed.

Lemma digit_value_nonneg c : Text.is_digit c = true → 0 ≤ Text.digit_value c.
Proof.
  unfold Text.is_digit, Text.digit_value.
  intros [H1 H2]%andb_true_iff. apply N.leb_le in H1. lia.
Qed.

Lemma int_acc_nonneg ds acc :
  all_digits ds = true → 0 ≤ acc → 0 ≤ Text.int_acc acc ds.
Proof.
  revert acc. induction ds as [|c ds IH]; intros acc; simpl; [done|].
  intros [Hc Hds]%andb_true_iff Hacc. apply IH; [done|].
  pose proof (digit_value_nonneg c Hc). lia.
Qed.

Lemma nums_of_elem existing name ds :
  name ∈ existing → Text.re_search_digits name = Some ds →
  Text.int ds ∈ nums_of existing.
Proof.
  intros Hin Hds. unfold nums_of. apply list_elem_of_omap.
  exists name. split; [done|]. by rewrite Hds.
Qed.

Lemma nums_of_nonneg existing n : n ∈ nums_of existing → 0 ≤ n.
Proof.
  unfold nums_of. intros (name & _ & Hn)%list_elem_of_omap.
  destruct (Text.re_search_digits name) as [ds|] eqn:Hds; [|done].
  simpl in Hn. simplify_eq.
  apply int_acc_nonneg; [|done]. by eapply re_search_digits_all_digits.
Qed.

Lemma maximum_in l m : maximum l = Some m → m ∈ l.
Proof.
  destruct l as [|x l]; [done|]. simpl. intros [= <-].
  revert x. induction l as [|y l IH]; intros x; simpl; [by left|].
  pose proof (IH (x `max` y)) as Hm.
  apply elem_of_cons in Hm as [Heq|Hin].
  - rewrite Heq. destruct (Z.max_spec x y) as [[_ ->]|[_ ->]];
      [by right; left|by left].
  - by right; right.
Qed.

(** [first_num] is one past the largest of the numbers found, or 1. *)
Lemma first_num_spec existing :
  1 ≤ first_num existing ∧
  (∀ n, n ∈ nums_of existing → n < first_num existing) ∧
  (nums_of existing = [] → first_num existing = 1) ∧
  (nums_of existing ≠ [] → first_num existing - 1 ∈ nums_of existing).
Proof.
  unfold first_num. destruct existing as [|x l].
  { split_and!; [lia|by intros ? ?%elem_of_nil|done|done]. }
  destruct (maximum (nums_of (x :: l))) as [m|] eqn:Hmax.
  - pose proof (maximum_in _ _ Hmax) as Hin.
    pose proof (nums_of_nonneg _ _ Hin).
    split_and!.
    + lia.
    + intros n Hn. pose proof (maximum_elem_of n _ _ Hmax Hn). lia.
    + intros Hnil. rewrite Hnil in Hin. by apply elem_of_nil in Hin.
    + intros _. by replace (m + 1 - 1) with m by lia.
  - apply maximum_None in Hmax. rewrite Hmax.
    split_and!; [lia|by intros ? ?%elem_of_nil|done|done].
Qed.

Lemma glob_names_elem pat (d : dir) name :
  name ∈ glob_names pat d ↔
  Text.fnmatch pat name = true ∧ is_Some (d !! name).
Proof.
  unfold glob_names. rewrite list_elem_of_filter, elem_of_elements, elem_of_dom.
  done.
Qed.

Lemma first_num_fresh cls (d : dir) k :
  cls ∈ class_folders →
  first_num (glob_names (Text.lower cls +:+ "*.jpg") d) ≤ k →
  d !! scheme_name cls k = None.
Proof.
  intros Hcls Hk.
  destruct (first_num_spec (glob_names (Text.lower cls +:+ "*.jpg") d))
    as (Hpos & Habove & _).
  destruct (d !! scheme_name cls k) as [b|] eqn:Hb; [|done].
  assert (Hin : scheme_name cls k ∈ glob_names (Text.lower cls +:+ "*.jpg") d).
  { apply glob_names_elem. split; [by apply scheme_glob|by eexists]. }
  pose proof (nums_of_elem _ _ _ Hin (scheme_first_digits cls k Hcls ltac:(lia)))
    as Hnum.
  rewrite int_pretty in Hnum by lia.
  specialize (Habove k Hnum). lia.
Qed.

(** ** The convert pass on any folder, when nothing else touches the tree *)

Section ConvertAny.
Context (C : codec).

(** The loop over the originals of a folder: what was there and is not
    an original stays; nothing appears but files of the scheme; an
    original is gone when the image library accepts it and the pass
    deletes, and is as it was otherwise. *)
Lemma convert_loop_any cls del l s (d : dir) w :
  NoDup l → fs w !! cls = Some d →
  (∀ x k, x ∈ l → x ≠ scheme_name cls k) →
  (∀ k, next_num s ≤ k → d !! scheme_name cls k = None) →
  ∃ s' w' d',
    for_each (convert_one C quiet_env cls del) l s w = (Ok s', w') ∧
    fs w' = <[cls := d']> (fs w) ∧
    (∀ name b, d !! name = Some b → name ∉ l → d' !! name = Some b) ∧
    (∀ name, d !! name = None → (∀ k, name ≠ scheme_name cls k) →
       d' !! name = None) ∧
    (∀ x, x ∈ l →
       d' !! x = if del && bool_decide (is_Some (d !! x ≫= jpeg_of C))
                 then None else d !! x) ∧
    ((∀ x, x ∈ l → d !! x ≫= jpeg_of C = None) →
       d' = d ∧ total_converted s' = total_converted s ∧
       total_deleted s' = total_deleted s).
Proof.
  intros Hnd. revert s d w.
  induction Hnd as [|x l Hx Hnd IH]; intros s d w Hd Hnames Hfresh.
  { exists s, w, d. split_and!; try done.
    - by rewrite insert_id.
    - by intros ? ?%elem_of_nil. }
  destruct (convert_one_quiet C cls del s x w d Hd) as [w1 H1].
  destruct (d !! x ≫= jpeg_of C) as [jpeg|] eqn:Hjpeg.
  - destruct H1 as [Hrun1 Hfs1].
    set (new := scheme_name cls (next_num s)) in *.
    set (d1 := if del then delete x (<[new := jpeg]> d)
               else <[new := jpeg]> d) in *.
    assert (Hnew : x ≠ new) by (apply Hnames; by left).
    assert (Hdnew : d !! new = None) by (apply Hfresh; lia).
    assert (Hd1 : ∀ y, y ≠ x → y ≠ new → d1 !! y = d !! y).
    { intros y ??. subst d1. destruct del.
      - by rewrite lookup_delete_ne, lookup_insert_ne.
      - by rewrite lookup_insert_ne. }
    assert (Hd1x : d1 !! x = if del then None else d !! x).
    { subst d1. destruct del.
      - by rewrite lookup_delete_eq.
      - by rewrite lookup_insert_ne. }
    match type of Hrun1 with _ = (Ok ?s1, _) =>
      destruct (IH s1 d1 w1) as (s' & w' & d' & Hrun & Hfs & Hc1 & Hc2 & Hc3 & _)
    end.
    { by rewrite Hfs1, lookup_insert_eq. }
    { intros y k Hy. apply Hnames. by right. }
    { simpl. intros k Hk.
      assert (scheme_name cls k ≠ new).
      { intros Heq%scheme_name_inj. lia. }
      assert (d !! scheme_name cls k = None) by (apply Hfresh; lia).
      subst d1. destruct del.
      - destruct (decide (scheme_name cls k = x)) as [->|?].
        + by rewrite lookup_delete_eq.
        + by rewrite lookup_delete_ne, lookup_insert_ne.
      - by rewrite lookup_insert_ne. }
    exists s', w', d'. split_and!.
    + simpl. by rewrite (bind_run _ _ w _ _ Hrun1).
    + by rewrite Hfs, Hfs1, insert_insert_eq.
    + intros name b Hb [Hne Hnot]%not_elem_of_cons.
      apply Hc1; [|done]. rewrite Hd1; [done..|]. congruence.
    + intros name Hnone Hk. apply Hc2; [|done].
      destruct (decide (name = x)) as [->|Hne].
      * rewrite Hd1x. by destruct del.
      * rewrite Hd1; [done..|]. apply Hk.
    + intros y [->|Hy]%elem_of_cons.
      * rewrite Hjpeg. rewrite bool_decide_eq_true_2 by (by eexists).
        destruct del; simpl.
        -- apply Hc2; [done|]. intros k. apply Hnames. by left.
        -- destruct (d !! x) as [b|] eqn:Hb; [|done].
           apply Hc1; [|done]. by rewrite Hd1x.
      * assert (y ≠ x) by (by intros ->).
        assert (y ≠ new) by (apply Hnames; by right).
        rewrite (Hc3 y Hy). by rewrite !Hd1.
    + intros Hrej. rewrite Hrej in Hjpeg by left. done.
  - destruct H1 as [Hrun1 Hfs1].
    match type of Hrun1 with _ = (Ok ?s1, _) =>
      destruct (IH s1 d w1)
        as (s' & w' & d' & Hrun & Hfs & Hc1 & Hc2 & Hc3 & Hc4)
    end.
    { by rewrite Hfs1. }
    { intros y k Hy. apply Hnames. by right. }
    { done. }
    exists s', w', d'. split_and!.
    + simpl. by rewrite (bind_run _ _ w _ _ Hrun1).
    + by rewrite Hfs, Hfs1.
    + intros name b Hb [Hne Hnot]%not_elem_of_cons. by apply Hc1.
    + done.
    + intros y [->|Hy]%elem_of_cons; [|by apply Hc3].
      rewrite Hjpeg. rewrite bool_decide_eq_false_2 by (by intros [??]).
      rewrite andb_false_r.
      destruct (d !! x) as [b|] eqn:Hb.
      * by apply Hc1.
      * apply Hc2; [done|]. intros k. apply Hnames. by left.
    + intros Hrej. destruct Hc4 as (-> & Hconv & Hdel).
      { intros y Hy. apply Hrej. by right. }
      done.
Qed.

(** One turn of the loop over [class_folders]. *)
Lemma convert_class_any source_dir cls del c dl e w :
  cls ∈ class_folders →
  ∃ r w',
    convert_class C quiet_env source_dir del (c, dl, e) cls w = (Ok r, w') ∧
    (∀ cls', cls' ≠ cls → fs w' !! cls' = fs w !! cls') ∧
    match fs w !! cls with
    | None => fs w' = fs w ∧ r = (c, dl, e)
    | Some d =>
        ∃ d',
          fs w' !! cls = Some d' ∧
          (∀ name b, d !! name = Some b → name ∉ heic_files_of d →
             d' !! name = Some b) ∧
          (∀ name, d !! name = None → (∀ k, name ≠ scheme_name cls k) →
             d' !! name = None) ∧
          (∀ x, x ∈ heic_files_of d →
             d' !! x = if del && bool_decide (is_Some (d !! x ≫= jpeg_of C))
                       then None else d !! x) ∧
          (rejected_only C d → fs w' = fs w ∧ r.1.1 = c ∧ r.1.2 = dl)
    end.
Proof.
  intros Hcls.
  unfold convert_class, banner. unfold_calls. simpl.
  destruct (fs w !! cls) as [d|] eqn:Hd.
  2:{ rewrite bool_decide_eq_false_2 by (by intros [??]). simpl.
      eexists _, _. split; [reflexivity|]. done. }
  rewrite bool_decide_eq_true_2 by (by eexists). simpl. rewrite !Hd. simpl.
  fold (heic_files_of d).
  destruct (heic_files_of d) as [|h hs] eqn:Hheic.
  { eexists _, _. split; [reflexivity|]. simpl.
    split; [done|]. exists d. split_and!; try done.
    by intros ? ?%elem_of_nil. }
  rewrite <-Hheic in *.
  match goal with
  | |- context [for_each _ _ ?s ?w0] =>
      destruct (convert_loop_any cls del (heic_files_of d) s d w0)
        as (s' & w' & d' & Hrun & Hfs & Hc1 & Hc2 & Hc3 & Hc4)
  end.
  { apply NoDup_heic_files_of. }
  { done. }
  { intros x k. apply heic_files_not_scheme. }
  { simpl. rewrite ?Hd. simpl. intros k. by apply first_num_fresh. }
  rewrite Hrun. simpl in *. rewrite ?Hd in *.
  eexists _, w'. split; [reflexivity|]. split.
  { intros cls' Hne. by rewrite Hfs, lookup_insert_ne. }
  exists d'. split_and!; try done.
  - by rewrite Hfs, lookup_insert_eq.
  - intros Hrej. destruct (Hc4 Hrej) as (-> & Hconv & Hdel).
    simpl. split_and!; [|done..]. rewrite Hfs. by apply insert_id.
Qed.

(** After a turn that deletes, the originals left in the folder are
    those the image library does not accept. *)
Lemma convert_class_settles source_dir cls c dl e w :
  cls ∈ class_folders →
  ∃ r w',
    convert_class C quiet_env source_dir true (c, dl, e) cls w = (Ok r, w') ∧
    (∀ cls', cls' ≠ cls → fs w' !! cls' = fs w !! cls') ∧
    (∀ d', fs w' !! cls = Some d' → rejected_only C d').
Proof.
  intros Hcls.
  destruct (convert_class_any source_dir cls true c dl e w Hcls)
    as (r & w' & Hrun & Hframe & Hturn).
  exists r, w'. split_and!; [done..|].
  intros d2 Hd2. destruct (fs w !! cls) as [d|] eqn:Hd.
  2:{ destruct Hturn as [Hfs _]. rewrite Hfs in Hd2. congruence. }
  destruct Hturn as (d' & Hd' & _ & Hc2 & Hc3 & _).
  simplify_eq. intros x Hx.
  pose proof Hx as [Hm Hsome]%elem_of_heic_files_of.
  assert (Hin : x ∈ heic_files_of d).
  { apply elem_of_heic_files_of. split; [done|].
    destruct (d !! x) as [b|] eqn:Hb; [by eexists|].
    rewrite Hc2 in Hsome; [by destruct Hsome|done|].
    intros k ->. destruct (scheme_not_heic cls k). destruct Hm; congruence. }
  specialize (Hc3 x Hin). simpl in Hc3.
  destruct (bool_decide (is_Some (d !! x ≫= jpeg_of C))) eqn:Hacc.
  - rewrite Hc3 in Hsome. by destruct Hsome.
  - apply bool_decide_eq_false in Hacc. rewrite Hc3.
    destruct (d !! x ≫= jpeg_of C) eqn:Hj; [|done].
    destruct Hacc. by eexists.
Qed.

(** A turn keeps every file of [t0] that carries a name of the scheme. *)
Lemma convert_class_spares source_dir cls del c dl e w t0 :
  cls ∈ class_folders → keeps t0 (fs w) →
  ∃ r w',
    convert_class C quiet_env source_dir del (c, dl, e) cls w = (Ok r, w') ∧
    keeps t0 (fs w').
Proof.
  intros Hcls Hkeep.
  destruct (convert_class_any source_dir cls del c dl e w Hcls)
    as (r & w' & Hrun & Hframe & Hturn).
  exists r, w'. split; [done|].
  intros cls0 name bytes Hin Hname.
  specialize (Hkeep cls0 name bytes Hin Hname).
  destruct (decide (cls0 = cls)) as [->|Hne]; [|by rewrite Hframe].
  destruct (fs w !! cls) as [d|] eqn:Hd; [|done].
  destruct Hturn as (d' & Hd' & Hc1 & _).
  rewrite Hd'. simpl in *. apply Hc1; [done|].
  intros [Hm _]%elem_of_heic_files_of.
  by rewrite (heic_not_of_scheme _ _ Hm) in Hname.
Qed.

(** A turn on a folder whose originals the image library does not
    accept converts nothing and leaves the tree as it is. *)
Lemma convert_class_settled source_dir cls del c dl e w :
  cls ∈ class_folders →
  (∀ d, fs w !! cls = Some d → rejected_only C d) →
  ∃ e' w',
    convert_class C quiet_env source_dir del (c, dl, e) cls w =
      (Ok (c, dl, e'), w') ∧
    fs w' = fs w.
Proof.
  intros Hcls Hrej.
  destruct (convert_class_any source_dir cls del c dl e w Hcls)
    as ([[c' dl'] e'] & w' & Hrun & Hframe & Hturn).
  destruct (fs w !! cls) as [d|] eqn:Hd.
  - destruct Hturn as (d' & _ & _ & _ & _ & Hsame).
    destruct (Hsame (Hrej d eq_refl)) as (Hfs & Hc & Hdl). simpl in *.
    subst. by exists e', w'.
  - destruct Hturn as [Hfs Hr]. simplify_eq. by eexists _, _.
Qed.
End ConvertAny.

(** ** The convert pass, run twice *)

Lemma class_folders_each (P : string → Prop) :
  (∀ cls, cls ∈ class_folders → P cls) → P "Good" ∧ P "Bad" ∧ P "Ugly".
Proof.
  intros H. split_and!; apply H; unfold class_folders.
  - by left.
  - by right; left.
  - by right; right; left.
Qed.

Lemma convert_run_of_turns (C : codec) source_dir del w r1 w1 r2 w2 r3 w3 :
  convert_class C quiet_env source_dir del (0, 0, 0) "Good" w = (Ok r1, w1) →
  convert_class C quiet_env source_dir del r1 "Bad" w1 = (Ok r2, w2) →
  convert_class C quiet_env source_dir del r2 "Ugly" w2 = (Ok r3, w3) →
  ∃ w',
    convert_and_rename_heic_to_jpg C quiet_env source_dir del w = (Ok r3, w') ∧
    fs w' = fs w3.
Proof.
  intros Hr1 Hr2 Hr3.
  unfold convert_and_rename_heic_to_jpg, class_folders. simpl for_each.
  rewrite (bind_run _ _ w r3 w3).
  2:{ rewrite (bind_run _ _ w _ _ Hr1), (bind_run _ _ w1 _ _ Hr2).
      rewrite (bind_run _ _ w2 _ _ Hr3). done. }
  unfold_calls. simpl. by eexists.
Qed.

(** The pass keeps the files that carry a name of the scheme. *)
Lemma convert_run_spares (C : codec) source_dir del w t0 :
  keeps t0 (fs w) →
  ∃ totals w',
    convert_and_rename_heic_to_jpg C quiet_env source_dir del w =
      (Ok totals, w') ∧
    keeps t0 (fs w').
Proof.
  intros Hk.
  destruct (class_folders_each (λ cls, cls ∈ class_folders))
    as (Hgood & Hbad & Hugly); [done|].
  destruct (convert_class_spares C source_dir "Good" del 0 0 0 w t0 Hgood Hk)
    as ([[c1 d1] e1] & w1 & Hr1 & Hk1).
  destruct (convert_class_spares C source_dir "Bad" del c1 d1 e1 w1 t0 Hbad Hk1)
    as ([[c2 d2] e2] & w2 & Hr2 & Hk2).
  destruct (convert_class_spares C source_dir "Ugly" del c2 d2 e2 w2 t0 Hugly Hk2)
    as (r3 & w3 & Hr3 & Hk3).
  destruct (convert_run_of_turns C source_dir del w _ _ _ _ _ _ Hr1 Hr2 Hr3)
    as (w' & Hrun & Hfs).
  exists r3, w'. split; [done|]. by rewrite Hfs.
Qed.

(** After the pass with deletion, the originals left in the class folders
    are those the image library does not accept. *)
Lemma convert_run_settles (C : codec) source_dir w :
  ∃ totals w',
    convert_and_rename_heic_to_jpg C quiet_env source_dir true w =
      (Ok totals, w') ∧
    (∀ cls d, cls ∈ class_folders → fs w' !! cls = Some d → rejected_only C d).
Proof.
  destruct (class_folders_each (λ cls, cls ∈ class_folders))
    as (Hgood & Hbad & Hugly); [done|].
  destruct (convert_class_settles C source_dir "Good" 0 0 0 w Hgood)
    as ([[c1 d1] e1] & w1 & Hr1 & Hf1 & Hs1).
  destruct (convert_class_settles C source_dir "Bad" c1 d1 e1 w1 Hbad)
    as ([[c2 d2] e2] & w2 & Hr2 & Hf2 & Hs2).
  destruct (convert_class_settles C source_dir "Ugly" c2 d2 e2 w2 Hugly)
    as (r3 & w3 & Hr3 & Hf3 & Hs3).
  destruct (convert_run_of_turns C source_dir true w _ _ _ _ _ _ Hr1 Hr2 Hr3)
    as (w' & Hrun & Hfs).
  exists r3, w'. split; [done|].
  intros cls d Hcls Hd. rewrite Hfs in Hd.
  unfold class_folders in Hcls.
  rewrite !elem_of_cons, elem_of_nil in Hcls.
  destruct Hcls as [->|[->|[->|[]]]].
  - apply Hs1. by rewrite <-(Hf2 "Good"), <-(Hf3 "Good").
  - apply Hs2. by rewrite <-(Hf3 "Bad").
  - by apply Hs3.
Qed.

(** On such a tree the pass converts nothing, deletes nothing and leaves
    the tree as it is. *)
Lemma convert_run_settled (C : codec) source_dir del w :
  (∀ cls d, cls ∈ class_folders → fs w !! cls = Some d → rejected_only C d) →
  ∃ e w',
    convert_and_rename_heic_to_jpg C quiet_env source_dir del w =
      (Ok (0, 0, e), w') ∧
    fs w' = fs w.
Proof.
  intros Hrej.
  destruct (class_folders_each (λ cls, cls ∈ class_folders))
    as (Hgood & Hbad & Hugly); [done|].
  destruct (convert_class_settled C source_dir "Good" del 0 0 0 w Hgood)
    as (e1 & w1 & Hr1 & Hf1); [intros d; by apply Hrej|].
  destruct (convert_class_settled C source_dir "Bad" del 0 0 e1 w1 Hbad)
    as (e2 & w2 & Hr2 & Hf2); [rewrite Hf1; intros d; by apply Hrej|].
  destruct (convert_class_settled C source_dir "Ugly" del 0 0 e2 w2 Hugly)
    as (e3 & w3 & Hr3 & Hf3);
    [rewrite Hf2, Hf1; intros d; by apply Hrej|].
  destruct (convert_run_of_turns C source_dir del w _ _ _ _ _ _ Hr1 Hr2 Hr3)
    as (w' & Hrun & Hfs).
  exists e3, w'. split; [done|]. by rewrite Hfs, Hf3, Hf2, Hf1.
Qed.

(** ** The numbers the two passes find *)

Lemma is_digit_lower c : Text.is_digit (Text.lower_ascii c) = Text.is_digit c.
Proof. destruct c as [[] [] [] [] [] [] [] []]; reflexivity. Qed.

Lemma strip_nocase_digits lit s rest :
  no_digit lit = true → Text.strip_nocase lit s = Some rest →
  Text.re_search_digits s = Text.re_search_digits rest.
Proof.
  revert s. induction lit as [|a lit IH]; intros s Hlit Hs; simpl in Hs.
  - by simplify_eq.
  - destruct s as [|c s]; [done|].
    simpl in Hlit. apply andb_true_iff in Hlit as [Ha Hlit].
    destruct (Ascii.eqb _ _) eqn:Heq; [|done].
    apply Ascii.eqb_eq in Heq.
    assert (Hc : Text.is_digit c = false).
    { rewrite <-is_digit_lower, <-Heq, is_digit_lower.
      by apply negb_true_iff. }
    simpl. rewrite Hc. by apply IH.
Qed.

Lemma span_digits_search rest ds tail :
  Text.span_digits rest = (ds, tail) → ds ≠ "" →
  Text.re_search_digits rest = Some ds.
Proof.
  destruct rest as [|c rest]; simpl.
  - by intros [= <- <-].
  - destruct (Text.is_digit c); [|by intros [= <- <-]].
    destruct (Text.span_digits rest) as [ds' tail']. by intros [= <- <-].
Qed.

(** Among the names that do not end in a line feed, the pattern of the
    rename pass accepts the canonically named ones, and the first run of
    digits of such a name is its number. *)
Lemma canonical_number_match label name :
  no_digit label = true → last_char name ≠ Some "010"%char →
  canonical_number label name =
    if Text.pattern_match label name
    then Text.int <$> Text.re_search_digits name else None.
Proof.
  intros Hlabel Hlast. unfold canonical_number, Text.pattern_match.
  destruct (Text.strip_nocase label name) as [rest|] eqn:Hstrip; [|done].
  destruct (Text.span_digits rest) as [ds tail] eqn:Hspan.
  rewrite (strip_nocase_digits _ _ _ Hlabel Hstrip).
  destruct (String.eqb ds "") eqn:Hds; simpl; [done|].
  apply String.eqb_neq in Hds.
  rewrite (span_digits_search _ _ _ Hspan Hds). simpl.
  destruct (Text.eq_nocase tail ".jpg") eqn:Hjpg; simpl; [done|].
  destruct (Text.eq_nocase tail (".jpg" +:+ Text.nl)) eqn:Hnl; [|done].
  destruct Hlast.
  apply strip_nocase_inv in Hstrip as [pre ->].
  apply span_digits_inv in Hspan as ->.
  unfold Text.eq_nocase in Hnl. apply String.eqb_eq in Hnl.
  destruct tail as [|a [|b [|c [|d [|e [|]]]]]];
    rewrite ?lower_cons in Hnl; try discriminate Hnl.
  injection Hnl as _ _ _ _ He. apply lower_ascii_nl in He as ->.
  rewrite !last_char_app; [done..|].
  intros Hnil. apply (f_equal String.length) in Hnil.
  rewrite string_app_length in Hnil. simpl in Hnil. lia.
Qed.

(** What lines 51-57 compute: the numbers of the names the pattern
    accepts, and the other names, in the order of the list. *)
Lemma classify_run label jpgs already_renamed to_rename :
  ∃ found,
    classify label jpgs already_renamed to_rename =
      Ok (already_renamed ++ found,
          to_rename ++ filter (λ x, Text.pattern_match label x = false) jpgs) ∧
    found.*1 =
      omap (λ name, if Text.pattern_match label name
                    then Text.int <$> Text.re_search_digits name else None)
           jpgs.
Proof.
  revert already_renamed to_rename.
  induction jpgs as [|jpg jpgs IH]; intros ar tr; simpl.
  - exists []. by rewrite !app_nil_r.
  - destruct (Text.pattern_match label jpg) eqn:Hm.
    + destruct (pattern_match_has_digits _ _ Hm) as [ds Hds]. rewrite Hds.
      destruct (IH (ar ++ [(Text.int ds, jpg)]) tr) as (found & -> & Hfound).
      exists ((Text.int ds, jpg) :: found). split.
      * rewrite filter_cons_False by congruence.
        by rewrite <-(assoc_L (++)).
      * by rewrite fmap_cons, Hfound.
    + destruct (IH ar (tr ++ [jpg])) as (found & -> & Hfound).
      exists found. split; [|done].
      rewrite filter_cons_True by done. by rewrite <-(assoc_L (++)).
Qed.

Lemma glob_names_last pat (d : dir) name c :
  no_star pat = true → last_char pat = Some c →
  name ∈ glob_names (String "*" pat) d → last_char name = Some c.
Proof.
  intros Hpat Hc [Hm _]%glob_names_elem.
  apply fnmatch_star_inv in Hm as [pre ->]; [|done].
  rewrite last_char_app; [done|]. by intros ->.
Qed.

(** The files the rename pass lists: those named [*.jpg] or [*.JPG]. *)
Lemma elem_of_all_jpgs (d : dir) name :
  name ∈ elements (list_to_set (glob_names "*.jpg" d) ∪
                   list_to_set (glob_names "*.JPG" d) : gset string) ↔
  (Text.fnmatch "*.jpg" name = true ∨ Text.fnmatch "*.JPG" name = true)
  ∧ is_Some (d !! name).
Proof.
  rewrite elem_of_elements, elem_of_union, !elem_of_list_to_set.
  rewrite !glob_names_elem. tauto.
Qed.

Lemma all_jpgs_last (d : dir) name :
  name ∈ elements (list_to_set (glob_names "*.jpg" d) ∪
                   list_to_set (glob_names "*.JPG" d) : gset string) →
  last_char name ≠ Some "010"%char.
Proof.
  rewrite elem_of_elements, elem_of_union, !elem_of_list_to_set.
  intros [H|H].
  - by rewrite (glob_names_last ".jpg" d name "g"%char).
  - by rewrite (glob_names_last ".JPG" d name "G"%char).
Qed.

Lemma omap_ext_in {A B} (f g : A → option B) (l : list A) :
  (∀ x, x ∈ l → f x = g x) → omap f l = omap g l.
Proof.
  induction l as [|x l IH]; intros H; [done|]. simpl.
  rewrite (H x) by left.
  destruct (g x); [f_equal|]; apply IH; intros y Hy; apply H; by right.
Qed.

(** The number the rename pass starts from is one less than the next
    number of the specification. *)
Lemma rename_start_spec label jpgs (found : list (Z * string)) :
  no_digit label = true →
  (∀ name, name ∈ jpgs → last_char name ≠ Some "010"%char) →
  found.*1 =
    omap (λ name, if Text.pattern_match label name
                  then Text.int <$> Text.re_search_digits name else None)
         jpgs →
  default 0 (maximum found.*1) + 1 = spec_next_suffix label jpgs ∧
  0 ≤ default 0 (maximum found.*1).
Proof.
  intros Hlabel Hlast Hfound. unfold spec_next_suffix.
  rewrite (omap_ext_in (canonical_number label)
             (λ name, if Text.pattern_match label name
                      then Text.int <$> Text.re_search_digits name else None)).
  2:{ intros name Hin. apply canonical_number_match; auto. }
  rewrite <-Hfound.
  destruct (maximum found.*1) as [m|] eqn:Hmax; simpl; [|done].
  split; [done|].
  apply maximum_in in Hmax. rewrite Hfound in Hmax.
  apply list_elem_of_omap in Hmax as (name & _ & Hm).
  destruct (Text.pattern_match label name); [|done].
  destruct (Text.re_search_digits name) as [ds|] eqn:Hds; [|done].
  simpl in Hm. simplify_eq.
  apply int_acc_nonneg; [|done]. by eapply re_search_digits_all_digits.
Qed.

(** The first turn of the rename loop on a file that is there and whose
    target is free. *)
Lemma rename_one_first cls n jpg (d : dir) w :
  fs w !! cls = Some d → is_Some (d !! jpg) →
  d !! scheme_name cls (n + 1) = None →
  ∃ w' new,
    rename_one quiet_env cls n jpg w = (Ok (n + 1), w') ∧
    log w' = new ++ log w ∧
    Rename cls jpg (scheme_name cls (n + 1)) Done ∈ new.
Proof.
  intros Hd [b Hb] Hfree.
  unfold rename_one. unfold_calls. unfold scheme_name in *. simpl.
  do 8 (rewrite ?Hd, ?Hb, ?Hfree; simpl).
  eexists _, _. split; [reflexivity|]. split; [new_events|].
  by left.
Qed.

(** The rename pass on a folder with a file to rename: the first one, in
    the order of the names, gets the next number of the specification. *)
Lemma rename_class_first source_dir cls (d : dir) w jpg :
  cls ∈ class_folders → fs w !! cls = Some d →
  let all_jpgs :=
    elements (list_to_set (glob_names "*.jpg" d) ∪
              list_to_set (glob_names "*.JPG" d) : gset string) in
  head (sorted (filter (λ x, Text.pattern_match (Text.lower cls) x = false)
                       all_jpgs)) = Some jpg →
  ∃ w' new,
    rename_class quiet_env source_dir cls w = (Ok (), w') ∧
    log w' = new ++ log w ∧
    Rename cls jpg
      (scheme_name cls (spec_next_suffix (Text.lower cls) all_jpgs)) Done ∈ new.
Proof.
  intros Hcls Hd all_jpgs Hhead.
  destruct (class_label_plain cls Hcls) as [Hplain _].
  destruct (classify_run (Text.lower cls) all_jpgs [] []) as (found & Hcl & Hfound).
  destruct (rename_start_spec (Text.lower cls) all_jpgs found Hplain)
    as [Hstart Hpos]; [apply all_jpgs_last|done|].
  rewrite <-Hstart.
  set (max_num := default 0 (maximum found.*1)) in *.
  set (to_rename := filter _ all_jpgs) in *.
  destruct (sorted to_rename) as [|jpg' rest] eqn:Hsorted; [done|].
  simpl in Hhead. simplify_eq.
  assert (Hin : jpg ∈ all_jpgs).
  { assert (jpg ∈ to_rename) as Hin.
    { rewrite <-(sorted_Permutation to_rename), Hsorted. by left. }
    by apply list_elem_of_filter in Hin as [_ Hin]. }
  pose proof Hin as [_ Hsome]%elem_of_all_jpgs.
  assert (Hfree : d !! scheme_name cls (max_num + 1) = None).
  { destruct (d !! scheme_name cls (max_num + 1)) as [b|] eqn:Hb; [|done].
    assert (Hs : scheme_name cls (max_num + 1) ∈ all_jpgs).
    { apply elem_of_all_jpgs. split; [left; apply scheme_jpg|by eexists]. }
    assert (Hnum : max_num + 1 ∈ found.*1).
    { rewrite Hfound. apply list_elem_of_omap.
      exists (scheme_name cls (max_num + 1)). split; [done|].
      rewrite scheme_pattern by lia.
      rewrite scheme_first_digits by (done || lia). simpl.
      by rewrite int_pretty by lia. }
    destruct (maximum found.*1) as [m|] eqn:Hmax.
    - pose proof (maximum_elem_of _ _ _ Hmax Hnum). subst max_num. simpl in *. lia.
    - apply maximum_None in Hmax. rewrite Hmax in Hnum.
      by apply elem_of_nil in Hnum. }
  assert (Hloop : ∀ w0, fs w0 = fs w →
    ∃ n' w' new,
      for_each (rename_one quiet_env cls) (jpg :: rest) max_num w0 = (Ok n', w') ∧
      log w' = new ++ log w0 ∧
      Rename cls jpg (scheme_name cls (max_num + 1)) Done ∈ new).
  { intros w0 Hw0.
    destruct (rename_one_first cls max_num jpg d w0)
      as (w1 & new1 & Hrun1 & Hlog1 & Hin1); [by rewrite Hw0|done..|].
    destruct (rename_loop_spec quiet_env cls rest (max_num + 1) w1)
      as (n2 & w2 & new2 & Hrun2 & Hlog2 & _).
    exists n2, w2, (new2 ++ new1). split_and!.
    - simpl. by rewrite (bind_run _ _ w0 _ _ Hrun1).
    - by rewrite Hlog2, Hlog1, (assoc_L (++)).
    - apply elem_of_app. by right. }
  assert (Hne : to_rename ≠ []).
  { intros Hnil. rewrite Hnil in Hsorted. done. }
  unfold rename_class, banner. unfold_calls. simpl.
  rewrite Hd. rewrite bool_decide_eq_true_2 by (by eexists). simpl.
  rewrite !Hd. simpl.
  fold all_jpgs. rewrite Hcl. simpl. fold to_rename.
  destruct to_rename as [|x tr] eqn:Htr; [done|].
  rewrite Hsorted.
  match goal with
  | |- context [for_each _ _ _ ?w0] =>
      destruct (Hloop w0) as (n' & w' & new & Hrun & Hlog & Hnew); [done|]
  end.
  fold max_num. rewrite Hrun. simpl.
  eexists _, _. split; [reflexivity|]. simpl. rewrite Hlog. simpl.
  split.
  - by instantiate (1 := _ :: _ :: new ++ [_; _; _; _; _; _; _; _]);
      simpl; rewrite <-(assoc_L (++)).
  - right. right. apply elem_of_app. by left.
Qed.

(** The first turn of the convert loop on an original the image library
    accepts, when the name it writes to is free. *)
Lemma convert_one_first (C : codec) cls del s heic (d : dir) w jpeg :
  fs w !! cls = Some d → d !! heic ≫= jpeg_of C = Some jpeg →
  d !! scheme_name cls (next_num s) = None →
  ∃ s' w' new,
    convert_one C quiet_env cls del s heic w = (Ok s', w') ∧
    log w' = new ++ log w ∧
    Save cls (scheme_name cls (next_num s)) Done ∈ new.
Proof.
  intros Hd Hj Hfree. unfold convert_one, jpeg_of in *. unfold_calls.
  unfold scheme_name in *. simpl in *.
  destruct (d !! heic) as [bytes|] eqn:Hb; [|done]. simpl in Hj.
  destruct (heif_open C bytes) as [img|] eqn:Hi; [|done]. simpl in Hj.
  destruct (convert_RGB C img) as [rgb|] eqn:Hr; [|done].
  do 8 (rewrite ?Hd, ?Hb, ?Hi, ?Hr, ?Hfree; simpl).
  destruct del; simpl; repeat (case_match; simpl in *; simplify_eq);
    (eexists _, _, _; split; [reflexivity|]; split; [new_events|]);
    rewrite !elem_of_cons; eauto.
Qed.

(** The convert pass on a folder whose first original the image library
    accepts: it is written under the number [first_num] gives. *)
Lemma convert_class_first (C : codec) source_dir cls del c dl e (d : dir) w
    heic jpeg :
  cls ∈ class_folders → fs w !! cls = Some d →
  head (heic_files_of d) = Some heic → d !! heic ≫= jpeg_of C = Some jpeg →
  ∃ r w' new,
    convert_class C quiet_env source_dir del (c, dl, e) cls w = (Ok r, w') ∧
    log w' = new ++ log w ∧
    Save cls
      (scheme_name cls (first_num (glob_names (Text.lower cls +:+ "*.jpg") d)))
      Done ∈ new.
Proof.
  intros Hcls Hd Hhead Hj.
  set (first := first_num (glob_names (Text.lower cls +:+ "*.jpg") d)).
  destruct (heic_files_of d) as [|heic' rest] eqn:Hheic; [done|].
  simpl in Hhead. simplify_eq.
  assert (Hloop : ∀ s w0, fs w0 = fs w → next_num s = first →
    ∃ s' w' new,
      for_each (convert_one C quiet_env cls del) (heic :: rest) s w0 =
        (Ok s', w') ∧
      log w' = new ++ log w0 ∧
      Save cls (scheme_name cls first) Done ∈ new).
  { intros s w0 Hw0 Hs.
    destruct (convert_one_first C cls del s heic d w0 jpeg)
      as (s1 & w1 & new1 & Hrun1 & Hlog1 & Hin1); [by rewrite Hw0|done| |].
    { rewrite Hs. by apply first_num_fresh. }
    destruct (convert_loop_books C quiet_env cls del rest s1 w1)
      as (s2 & w2 & Hrun2 & _ & _ & _ & [new2 Hlog2]).
    exists s2, w2, (new2 ++ new1). split_and!.
    - simpl. by rewrite (bind_run _ _ w0 _ _ Hrun1).
    - by rewrite Hlog2, Hlog1, (assoc_L (++)).
    - apply elem_of_app. right. by rewrite <-Hs. }
  unfold convert_class, banner. unfold_calls. simpl.
  rewrite Hd. rewrite bool_decide_eq_true_2 by (by eexists). simpl.
  rewrite !Hd. simpl.
  fold (heic_files_of d). rewrite Hheic.
  match goal with
  | |- context [for_each _ _ ?s ?w0] =>
      destruct (Hloop s w0) as (s' & w' & new & Hrun & Hlog & Hnew);
        [done|simpl; by rewrite ?Hd|]
  end.
  rewrite Hrun. simpl.
  eexists _, _, _. split; [reflexivity|]. simpl. rewrite Hlog. simpl.
  split.
  - by instantiate (1 := new ++ [_; _; _; _; _; _; _; _]);
      simpl; rewrite <-(assoc_L (++)).
  - apply elem_of_app. by left.
Qed.

Lemma canonical_number_digits label name n :
  no_digit label = true → canonical_number label name = Some n →
  Text.int <$> Text.re_search_digits name = Some n.
Proof.
  intros Hlabel. unfold canonical_number.
  destruct (Text.strip_nocase label name) as [rest|] eqn:Hstrip; [|done].
  destruct (Text.span_digits rest) as [ds tail] eqn:Hspan.
  rewrite (strip_nocase_digits _ _ _ Hlabel Hstrip).
  destruct (String.eqb ds "") eqn:Hds; simpl; [done|].
  apply String.eqb_neq in Hds.
  rewrite (span_digits_search _ _ _ Hspan Hds).
  by destruct (Text.eq_nocase tail ".jpg").
Qed.

Lemma omap_filter {A B} (f g : A → option B) (P : A → Prop)
    `{∀ x, Decision (P x)} (l : list A) :
  (∀ x, x ∈ l → P x → f x = g x) → (∀ x, x ∈ l → ¬ P x → g x = None) →
  omap f (filter P l) = omap g l.
Proof.
  induction l as [|x l IH]; intros Hin Hout; [done|].
  assert (IH' : omap f (filter P l) = omap g l).
  { apply IH; intros y Hy; [apply Hin|apply Hout]; by right. }
  destruct (decide (P x)) as [HP|HP].
  - rewrite filter_cons_True by done. simpl.
    rewrite (Hin x) by (done || by left).
    destruct (g x); [f_equal|]; exact IH'.
  - rewrite filter_cons_False by done. simpl.
    rewrite (Hout x) by (done || by left). exact IH'.
Qed.

(** Where the names the convert pass lists are the canonically named
    files of the folder, its first number is the next number of the
    specification. *)
Lemma first_num_canonical label (d : dir) :
  no_digit label = true →
  (∀ name, is_Some (d !! name) →
     Text.fnmatch (label +:+ "*.jpg") name = true ↔
     is_Some (canonical_number label name)) →
  first_num (glob_names (label +:+ "*.jpg") d) =
    spec_next_suffix label (elements (dom d)).
Proof.
  intros Hlabel Hsame. unfold first_num, spec_next_suffix.
  assert (Hnums : nums_of (glob_names (label +:+ "*.jpg") d) =
                  omap (canonical_number label) (elements (dom d))).
  { unfold nums_of, glob_names. apply omap_filter.
    - intros name Hin Hm.
      apply elem_of_elements, elem_of_dom in Hin.
      destruct (proj1 (Hsame name Hin) Hm) as [n Hn].
      rewrite Hn. by apply (canonical_number_digits label).
    - intros name Hin Hm.
      apply elem_of_elements, elem_of_dom in Hin.
      destruct (canonical_number label name) as [n|] eqn:Hn; [|done].
      destruct Hm. apply Hsame; [done|]. by eexists. }
  rewrite <-Hnums.
  destruct (glob_names (label +:+ "*.jpg") d) as [|x l] eqn:Hglob; [done|].
  done.
Qed.

(** The numbers the two passes start from in a class folder, while
    nothing else touches the tree: each pass gives the first file it
    handles one past the largest number it finds, or 1 when it finds
    none, whatever gaps the numbers have.  The rename pass finds the
    numbers of the canonically named files ([<label><digits>.jpg], without
    regard to case) among the files it lists ([*.jpg] and [*.JPG]): the
    first file it renames gets the next number of the specification over
    those.  The convert pass finds the first run of digits in the name of
    every file it lists ([<label>*.jpg]): the first original it converts
    is written under [first_num] of those names, which is the next number
    of the specification when the files listed are the canonically named
    files of the folder. *)
Lemma next_suffix_of_passes (C : codec) (source_dir cls : string) (d : dir)
    (w : world)
    (Hcls : cls ∈ class_folders) (Hd : fs w !! cls = Some d) :
  let label := Text.lower cls in
  let all_jpgs :=
    elements (list_to_set (glob_names "*.jpg" d) ∪
              list_to_set (glob_names "*.JPG" d) : gset string) in
  let existing := glob_names (label +:+ "*.jpg") d in
  (∀ jpg,
     head (sorted (filter (λ x, Text.pattern_match label x = false) all_jpgs))
       = Some jpg →
     ∃ w' new,
       rename_class quiet_env source_dir cls w = (Ok (), w') ∧
       log w' = new ++ log w ∧
       Rename cls jpg (scheme_name cls (spec_next_suffix label all_jpgs)) Done
         ∈ new) ∧
  (∀ delete_originals totals heic jpeg,
     head (heic_files_of d) = Some heic →
     d !! heic ≫= jpeg_of C = Some jpeg →
     ∃ r w' new,
       convert_class C quiet_env source_dir delete_originals totals cls w =
         (Ok r, w') ∧
       log w' = new ++ log w ∧
       Save cls (scheme_name cls (first_num existing)) Done ∈ new) ∧
  (1 ≤ first_num existing ∧
   (∀ n, n ∈ nums_of existing → n < first_num existing) ∧
   (nums_of existing = [] → first_num existing = 1) ∧
   (nums_of existing ≠ [] → first_num existing - 1 ∈ nums_of existing)) ∧
  ((∀ name, is_Some (d !! name) →
      Text.fnmatch (label +:+ "*.jpg") name = true ↔
      is_Some (canonical_number label name)) →
   first_num existing = spec_next_suffix label (elements (dom d))).
Proof.
  intros label all_jpgs existing. split; [|split; [|split]].
  - intros jpg Hhead. by apply rename_class_first.
  - intros del [[c dl] e] heic jpeg Hhead Hj.
    by eapply convert_class_first.
  - apply first_num_spec.
  - intros Hsame. apply first_num_canonical; [|done].
    by destruct (class_label_plain cls Hcls).
Qed.

(** The condition of the last part, as a check on the names of a
    directory. *)
Lemma listed_canonical_check label (d : dir) :
  forallb (λ name,
    Bool.eqb (Text.fnmatch (label +:+ "*.jpg") name)
             (if canonical_number label name is Some _ then true else false))
    (elements (dom d)) = true →
  ∀ name, is_Some (d !! name) →
    Text.fnmatch (label +:+ "*.jpg") name = true ↔
    is_Some (canonical_number label name).
Proof.
  intros Hall name Hin.
  rewrite forallb_forall in Hall.
  assert (Hname : name ∈ elements (dom d)).
  { apply elem_of_elements, elem_of_dom. exact Hin. }
  apply list_elem_of_In in Hname. specialize (Hall name Hname).
  apply Bool.eqb_prop in Hall. rewrite Hall.
  destruct (canonical_number label name) as [n|]; split.
  - by eexists.
  - reflexivity.
  - discriminate.
  - intros [? ?]. discriminate.
Qed.

Lemma next_suffix_of_passes_gaps :
  let d : dir :=
    {[ "good1.jpg" := "one"; "good3.jpg" := "three"; "good4.jpg" := "four";
       "IMG_9.HEIC" := "heic 9"; "IMG_8.jpg" := "camera" ]} in
  "Good" ∈ class_folders ∧
  fs (boot gaps_tree) !! "Good" = Some d ∧
  omap (canonical_number "good") ["good1.jpg"; "good3.jpg"; "good4.jpg"] =
    [1; 3; 4] ∧
  spec_next_suffix "good" (elements (dom d)) = 5 ∧
  (∃ w' new,
     rename_class quiet_env "photos" "Good" (boot gaps_tree) = (Ok (), w') ∧
     log w' = new ++ log (boot gaps_tree) ∧
     Rename "Good" "IMG_8.jpg" "good5.jpg" Done ∈ new) ∧
  (∃ r w' new,
     convert_class toy_codec quiet_env "photos" true (0, 0, 0) "Good"
       (boot gaps_tree) = (Ok r, w') ∧
     log w' = new ++ log (boot gaps_tree) ∧
     Save "Good" "good5.jpg" Done ∈ new) ∧
  first_num (glob_names "good*.jpg" d) =
    spec_next_suffix "good" (elements (dom d)).
Proof.
  intros d.
  assert (Hcls : "Good" ∈ class_folders) by (by left).
  assert (Hd : fs (boot gaps_tree) !! "Good" = Some d) by reflexivity.
  destruct (next_suffix_of_passes toy_codec "photos" "Good" d (boot gaps_tree)
              Hcls Hd) as (Hren & Hconv & _ & Hagree).
  split_and!.
  - exact Hcls.
  - exact Hd.
  - vm_compute. reflexivity.
  - vm_compute. reflexivity.
  - destruct (Hren "IMG_8.jpg") as (w' & new & Hrun & Hlog & Hin).
    { vm_compute. reflexivity. }
    exists w', new. split_and!; [exact Hrun|exact Hlog|].
    match type of Hin with
    | Rename _ _ ?name _ ∈ _ =>
        assert (Hname : name = "good5.jpg") by (vm_compute; reflexivity)
    end.
    rewrite <-Hname. exact Hin.
  - destruct (Hconv true (0, 0, 0) "IMG_9.HEIC" "jpeg:heic 9")
      as (r & w' & new & Hrun & Hlog & Hin).
    { vm_compute. reflexivity. }
    { vm_compute. reflexivity. }
    exists r, w', new. split_and!; [exact Hrun|exact Hlog|].
    match type of Hin with
    | Save _ ?name _ ∈ _ =>
        assert (Hname : name = "good5.jpg") by (vm_compute; reflexivity)
    end.
    rewrite <-Hname. exact Hin.
  - apply Hagree, listed_canonical_check. vm_compute. reflexivity.
Defined.

(** C2.  The claim fails on the code for the convert pass, by the scan
    of lines 130-132: in a folder whose canonically named files have the
    numbers 1, 3 and 4, and which also holds [goodbye2021.jpg], the next
    suffix of the claim is 5, but the pass starts from 2022: the original
    is not written to [good5.jpg] but to [good2022.jpg]. *)
Theorem convert_start_counts_lookalike :
  let d : dir :=
    {[ "good1.jpg" := "one"; "good3.jpg" := "three"; "good4.jpg" := "four";
       "goodbye2021.jpg" := "party"; "IMG_9.HEIC" := "heic 9" ]} in
  let run := convert_and_rename_heic_to_jpg toy_codec quiet_env "photos" true
               (boot dated_tree) in
  dated_tree !! "Good" = Some d ∧
  canonical_number "good" "goodbye2021.jpg" = None ∧
  spec_next_suffix "good" (elements (dom d)) = 5 ∧
  first_num (glob_names "good*.jpg" d) = 2022 ∧
  run.1 = Ok (1, 1, 0) ∧
  fs run.2 !! "Good" ≫= (.!! "good5.jpg") = None ∧
  fs run.2 !! "Good" ≫= (.!! "good2022.jpg") = Some "jpeg:heic 9".
Proof. vm_compute. split_and!; reflexivity. Qed.

(** ** The names of the scheme, written and read back *)

(** X1. The name [<label><n>.jpg] that the two passes build for a number
    [n ≥ 0] in a class folder is recognised by the pattern of the rename
    pass and listed by the glob of the convert pass; the number both
    passes read from it is [n]; and two numbers never give one name. *)
Theorem scheme_name_round_trip (cls : string) (n : Z)
    (Hcls : cls ∈ class_folders) (Hn : 0 ≤ n) :
  Text.pattern_match (Text.lower cls) (scheme_name cls n) = true ∧
  Text.fnmatch "*.jpg" (scheme_name cls n) = true ∧
  Text.fnmatch (Text.lower cls +:+ "*.jpg") (scheme_name cls n) = true ∧
  Text.int <$> Text.re_search_digits (scheme_name cls n) = Some n ∧
  (∀ k, scheme_name cls k = scheme_name cls n → k = n).
Proof.
  split_and!.
  - by apply scheme_pattern.
  - apply scheme_jpg.
  - by apply scheme_glob.
  - rewrite scheme_first_digits by done. simpl. by rewrite int_pretty.
  - intros k Hk. by apply scheme_name_inj in Hk.
Qed.

Lemma scheme_name_round_trip_witness :
  "Ugly" ∈ class_folders ∧ 0 ≤ 204 ∧
  scheme_name "Ugly" 204 = "ugly204.jpg" ∧
  Text.pattern_match "ugly" "ugly204.jpg" = true ∧
  Text.int <$> Text.re_search_digits "ugly204.jpg" = Some 204.
Proof.
  assert (Hcls : "Ugly" ∈ class_folders) by (by right; right; left).
  assert (Hn : 0 ≤ 204) by lia.
  destruct (scheme_name_round_trip "Ugly" 204 Hcls Hn) as (Hp & _ & _ & Hi & _).
  split_and!; [exact Hcls|exact Hn|reflexivity|exact Hp|exact Hi].
Defined.

(** X2. Line 121: the list of originals of the convert pass, put together
    from two globs that may see the folder at two moments, names no file
    twice, is in the order of the names, and holds the files named
    [*.HEIC] of the first listing and those named [*.heic] of the second
    (names are compared with case). *)
Theorem originals_listed_once (d1 d2 : dir) :
  let heic_files := sorted (glob_names "*.HEIC" d1 ++ glob_names "*.heic" d2) in
  NoDup heic_files ∧
  StronglySorted String.le heic_files ∧
  (∀ name, name ∈ heic_files ↔
     (Text.fnmatch "*.HEIC" name = true ∧ is_Some (d1 !! name)) ∨
     (Text.fnmatch "*.heic" name = true ∧ is_Some (d2 !! name))).
Proof.
  intros heic_files. subst heic_files. split_and!.
  - rewrite sorted_Permutation. apply NoDup_app. split_and!.
    + apply NoDup_filter, NoDup_elements.
    + intros name [Hu _]%glob_names_elem [Hl _]%glob_names_elem.
      apply heic_one_case in Hu. congruence.
    + apply NoDup_filter, NoDup_elements.
  - apply StronglySorted_merge_sort; apply _.
  - intros name. rewrite sorted_Permutation, elem_of_app.
    by rewrite !glob_names_elem.
Qed.

(** ** The numbers of the files the convert pass writes *)

Lemma saved_names_app l1 l2 :
  saved_names (l1 ++ l2) = saved_names l1 ++ saved_names l2.
Proof. unfold saved_names. apply omap_app. Qed.

Lemma scheme_run_S cls first n :
  scheme_run cls first (S n) =
    scheme_name cls first :: scheme_run cls (first + 1) n.
Proof.
  unfold scheme_run. simpl. rewrite Z.add_0_r. f_equal.
  rewrite <-fmap_S_seq, <-list_fmap_compose.
  apply list_fmap_ext. intros i x _. simpl. f_equal. lia.
Qed.

(** One turn of the loop over [heic_files], in any environment: either a
    JPEG is written under the current number, which is then used up, or
    none is and the number stays. *)
Lemma convert_one_numbers (C : codec) (E : env) cls del s heic w :
  ∃ s' w' new,
    convert_one C E cls del s heic w = (Ok s', w') ∧
    log w' = new ++ log w ∧
    ((saved_names new = [scheme_name cls (next_num s)] ∧
      next_num s' = next_num s + 1 ∧
      total_converted s' = total_converted s + 1) ∨
     (saved_names new = [] ∧
      next_num s' = next_num s ∧
      total_converted s' = total_converted s)).
Proof.
  unfold convert_one, scheme_name. unfold_calls.
  repeat (case_match; simpl in *; simplify_eq);
    (eexists _, _, _; split; [reflexivity|]; split; [new_events|]);
    simpl; first [by left|by right].
Qed.

(** X4. Lines 138-157, in every environment: the JPEG files one run of
    the loop over [heic_files] writes carry consecutive numbers from the
    number the loop starts with, in the order they are written; a
    conversion that fails uses up no number, so the numbers have no gap
    and as many are used as files were converted. *)
Theorem convert_numbers_consecutive (C : codec) (E : env) (cls : string)
    (delete_originals : bool) (heic_files : list string) (s : tally)
    (w : world) :
  ∃ s' w' new,
    for_each (convert_one C E cls delete_originals) heic_files s w =
      (Ok s', w') ∧
    log w' = new ++ log w ∧
    0 ≤ total_converted s' - total_converted s ≤ Z.of_nat (length heic_files) ∧
    next_num s' - next_num s = total_converted s' - total_converted s ∧
    saved_names new =
      reverse (scheme_run cls (next_num s)
                 (Z.to_nat (total_converted s' - total_converted s))).
Proof.
  revert s w. induction heic_files as [|x l IH]; intros s w.
  { exists s, w, []. split_and!; try done; try (simpl; lia).
    by rewrite Z.sub_diag. }
  destruct (convert_one_numbers C E cls delete_originals s x w)
    as (s1 & w1 & new1 & Hrun1 & Hlog1 & Hturn).
  destruct (IH s1 w1) as (s2 & w2 & new2 & Hrun2 & Hlog2 & Hc2 & Hn2 & Hs2).
  exists s2, w2, (new2 ++ new1). split; [|split].
  { simpl. by rewrite (bind_run _ _ w _ _ Hrun1). }
  { by rewrite Hlog2, Hlog1, (assoc_L (++)). }
  rewrite saved_names_app, Hs2.
  destruct Hturn as [(Hs1 & Hn1 & Hc1)|(Hs1 & Hn1 & Hc1)]; rewrite Hs1.
  - split_and!; [lia|simpl; lia|lia|].
    replace (total_converted s2 - total_converted s)
      with (Z.succ (total_converted s2 - total_converted s1)) by lia.
    rewrite Z2Nat.inj_succ by lia. rewrite scheme_run_S, reverse_cons.
    by rewrite Hn1.
  - split_and!; [lia|simpl; lia|lia|].
    rewrite app_nil_r. by rewrite Hn1, Hc1.
Qed.

(** ** A pass, seen from each folder *)

(** A pass takes the three class folders in turn.  When a turn changes
    the folder of its class only, the pass leaves every other folder as
    it was, and what a turn does to its folder is what the pass does to
    it. *)
Lemma for_each_class {A} (turn : A → string → M A)
    (T : string → option dir → option dir → Prop) :
  (∀ a cls w, cls ∈ class_folders →
     ∃ a' w',
       turn a cls w = (Ok a', w') ∧
       (∀ cls', cls' ≠ cls → fs w' !! cls' = fs w !! cls') ∧
       T cls (fs w !! cls) (fs w' !! cls)) →
  ∀ a w,
    ∃ a' w',
      for_each turn class_folders a w = (Ok a', w') ∧
      (∀ cls, cls ∉ class_folders → fs w' !! cls = fs w !! cls) ∧
      (∀ cls, cls ∈ class_folders → T cls (fs w !! cls) (fs w' !! cls)).
Proof.
  intros Hturn a w.
  destruct (class_folders_each (λ cls, cls ∈ class_folders))
    as (Hgood & Hbad & Hugly); [done|].
  destruct (Hturn a "Good" w Hgood) as (a1 & w1 & Hr1 & Hf1 & Ht1).
  destruct (Hturn a1 "Bad" w1 Hbad) as (a2 & w2 & Hr2 & Hf2 & Ht2).
  destruct (Hturn a2 "Ugly" w2 Hugly) as (a3 & w3 & Hr3 & Hf3 & Ht3).
  exists a3, w3. split_and!.
  - unfold class_folders. simpl.
    rewrite (bind_run _ _ w _ _ Hr1), (bind_run _ _ w1 _ _ Hr2).
    by rewrite (bind_run _ _ w2 _ _ Hr3).
  - intros cls Hcls. unfold class_folders in Hcls.
    rewrite !not_elem_of_cons in Hcls. destruct Hcls as (? & ? & ? & _).
    by rewrite Hf3, Hf2, Hf1.
  - intros cls Hcls. unfold class_folders in Hcls.
    rewrite !elem_of_cons, elem_of_nil in Hcls.
    destruct Hcls as [->|[->|[->|[]]]].
    + by rewrite (Hf3 "Good"), (Hf2 "Good").
    + by rewrite (Hf3 "Bad"), <-(Hf1 "Bad").
    + by rewrite <-(Hf1 "Ugly"), <-(Hf2 "Ugly").
Qed.

(** The convert pass, seen from each folder. *)
Lemma convert_run_any (C : codec) source_dir del w :
  ∃ totals w',
    convert_and_rename_heic_to_jpg C quiet_env source_dir del w =
      (Ok totals, w') ∧
    (∀ cls, cls ∉ class_folders → fs w' !! cls = fs w !! cls) ∧
    (∀ cls, cls ∈ class_folders →
       match fs w !! cls with
       | None => fs w' !! cls = None
       | Some d =>
           ∃ d',
             fs w' !! cls = Some d' ∧
             (∀ name bytes, d !! name = Some bytes → name ∉ heic_files_of d →
                d' !! name = Some bytes) ∧
             (∀ name, d !! name = None → (∀ k, name ≠ scheme_name cls k) →
                d' !! name = None) ∧
             (∀ x, x ∈ heic_files_of d →
                d' !! x =
                  if del && bool_decide (is_Some (d !! x ≫= jpeg_of C))
                  then None else d !! x)
       end).
Proof.
  set (T := λ (cls : string) (before after : option dir),
    match before with
    | None => after = None
    | Some d =>
        ∃ d',
          after = Some d' ∧
          (∀ name bytes, d !! name = Some bytes → name ∉ heic_files_of d →
             d' !! name = Some bytes) ∧
          (∀ name, d !! name = None → (∀ k, name ≠ scheme_name cls k) →
             d' !! name = None) ∧
          (∀ x, x ∈ heic_files_of d →
             d' !! x =
               if del && bool_decide (is_Some (d !! x ≫= jpeg_of C))
               then None else d !! x)
    end).
  destruct (for_each_class (convert_class C quiet_env source_dir del) T)
    with (a := (0, 0, 0)) (w := w) as (totals & w3 & Hrun & Hout & Hin).
  { intros [[c dl] e] cls w0 Hcls.
    destruct (convert_class_any C source_dir cls del c dl e w0 Hcls)
      as (r & w' & Hr & Hframe & Hturn).
    exists r, w'. split_and!; [done..|].
    unfold T. destruct (fs w0 !! cls) as [d|] eqn:Hd.
    - destruct Hturn as (d' & Hd' & H1 & H2 & H3 & _). by exists d'.
    - destruct Hturn as [Hfs _]. by rewrite Hfs. }
  assert (Hend : ∃ w',
    convert_and_rename_heic_to_jpg C quiet_env source_dir del w =
      (Ok totals, w') ∧ fs w' = fs w3).
  { unfold convert_and_rename_heic_to_jpg.
    rewrite (bind_run _ _ w _ _ Hrun). unfold_calls. simpl. by eexists. }
  destruct Hend as (w' & Hrun' & Hfs). exists totals, w'.
  rewrite Hfs. by split_and!.
Qed.

(** X3. While nothing else touches the tree, the convert pass returns,
    leaves every folder but the three class folders alone, and creates no
    folder.  In a class folder every file that is not one of the
    originals it lists stays as it was; no file appears under a name that
    is not of the scheme; and an original is gone when deletion is asked
    for and the image library accepts it, and stays as it was
    otherwise. *)
Theorem convert_frame (C : codec) (source_dir : string)
    (delete_originals : bool) (w : world) :
  ∃ totals w',
    convert_and_rename_heic_to_jpg C quiet_env source_dir delete_originals w =
      (Ok totals, w') ∧
    (∀ cls, cls ∉ class_folders → fs w' !! cls = fs w !! cls) ∧
    (∀ cls, fs w !! cls = None → fs w' !! cls = None) ∧
    (∀ cls d, cls ∈ class_folders → fs w !! cls = Some d →
       ∃ d',
         fs w' !! cls = Some d' ∧
         (∀ name bytes, d !! name = Some bytes → name ∉ heic_files_of d →
            d' !! name = Some bytes) ∧
         (∀ name, d !! name = None → (∀ k, name ≠ scheme_name cls k) →
            d' !! name = None) ∧
         (∀ x, x ∈ heic_files_of d →
            d' !! x =
              if delete_originals && bool_decide (is_Some (d !! x ≫= jpeg_of C))
              then None else d !! x)).
Proof.
  destruct (convert_run_any C source_dir delete_originals w)
    as (totals & w' & Hrun & Hout & Hin).
  exists totals, w'. split_and!; [done..| |].
  - intros cls Hnone.
    destruct (decide (cls ∈ class_folders)) as [Hcls|Hcls].
    + specialize (Hin cls Hcls). by rewrite Hnone in Hin.
    + by rewrite Hout.
  - intros cls d Hcls Hd. specialize (Hin cls Hcls).
    by rewrite Hd in Hin.
Qed.

(** ** The rename pass on any folder, when nothing else touches the tree *)

Lemma count_app p l1 l2 : count p (l1 ++ l2) = count p l1 + count p l2.
Proof. induction l1 as [|ev l1 IH]; simpl; [done|]. rewrite IH. lia. Qed.

(** One turn on a file that is there and whose target is free: the file
    is moved. *)
Lemma rename_one_moves cls n jpg (d : dir) w bytes :
  fs w !! cls = Some d → d !! jpg = Some bytes →
  d !! scheme_name cls (n + 1) = None →
  ∃ w',
    rename_one quiet_env cls n jpg w = (Ok (n + 1), w') ∧
    fs w' = <[cls := <[scheme_name cls (n + 1) := bytes]> (delete jpg d)]> (fs w) ∧
    log w' =
      [Rename cls jpg (scheme_name cls (n + 1)) Done;
       Print ("  Renaming: " +:+ jpg +:+ " -> " +:+ scheme_name cls (n + 1));
       Exists cls (scheme_name cls (n + 1)) false;
       Exists cls jpg true] ++ log w.
Proof.
  intros Hd Hb Hfree.
  unfold rename_one. unfold_calls. unfold scheme_name in *. simpl.
  do 8 (rewrite ?Hd, ?Hb, ?Hfree; simpl).
  eexists. split; [reflexivity|]. split; reflexivity.
Qed.

(** The loop over [sorted(to_rename)], on files that are there, whose
    names are not of the scheme, when the numbers above [n] are free. *)
Lemma rename_loop_into cls l n (d : dir) w :
  NoDup l → fs w !! cls = Some d →
  (∀ x, x ∈ l → is_Some (d !! x)) →
  (∀ x k, x ∈ l → n < k → x ≠ scheme_name cls k) →
  (∀ k, n < k → d !! scheme_name cls k = None) →
  ∃ w' d' new,
    for_each (rename_one quiet_env cls) l n w =
      (Ok (n + Z.of_nat (length l)), w') ∧
    fs w' = <[cls := d']> (fs w) ∧
    renamed_into cls (n + 1) d l d' ∧
    log w' = new ++ log w ∧
    count is_rename new = Z.of_nat (length l) ∧
    count is_failed_rename new = 0.
Proof.
  intros Hnd. revert n d w.
  induction Hnd as [|x l Hx Hnd IH]; intros n d w Hd Hsome Hnames Hfresh.
  { exists w, d, []. split_and!; try done.
    - simpl. unfold mret, M_ret. do 2 f_equal. lia.
    - by rewrite insert_id.
    - split_and!; [done|by intros ? ?%elem_of_nil|done]. }
  destruct (Hsome x) as [bytes Hb]; [by left|].
  set (new := scheme_name cls (n + 1)).
  assert (Hdnew : d !! new = None) by (apply Hfresh; lia).
  destruct (rename_one_moves cls n x d w bytes Hd Hb Hdnew)
    as (w1 & Hrun1 & Hfs1 & Hlog1).
  fold new in Hrun1, Hfs1, Hlog1.
  set (d1 := <[new := bytes]> (delete x d)) in *.
  assert (Hxnew : x ≠ new) by (apply Hnames; [by left|lia]).
  assert (Hd1 : ∀ y, y ≠ x → y ≠ new → d1 !! y = d !! y).
  { intros y ??. subst d1. by rewrite lookup_insert_ne, lookup_delete_ne. }
  assert (Hd1new : d1 !! new = Some bytes).
  { subst d1. by rewrite lookup_insert_eq. }
  assert (Hd1x : d1 !! x = None).
  { subst d1. by rewrite lookup_insert_ne, lookup_delete_eq. }
  assert (Hl : ∀ y, y ∈ l → d1 !! y = d !! y).
  { intros y Hy. apply Hd1; [by intros ->|]. apply Hnames; [by right|lia]. }
  destruct (IH (n + 1) d1 w1)
    as (w' & d' & new2 & Hrun & Hfs & (Hc1 & Hc2 & Hc3) & Hlog & Hcount & Hfail).
  { by rewrite Hfs1, lookup_insert_eq. }
  { intros y Hy. rewrite Hl by done. apply Hsome. by right. }
  { intros y k Hy Hk. apply Hnames; [by right|lia]. }
  { intros k Hk.
    assert (scheme_name cls k ≠ new).
    { intros Heq%scheme_name_inj. lia. }
    destruct (decide (scheme_name cls k = x)) as [Heq|Hne].
    - by rewrite Heq.
    - rewrite Hd1 by done. apply Hfresh. lia. }
  exists w', d', (new2 ++ [Rename cls x new Done;
                           Print ("  Renaming: " +:+ x +:+ " -> " +:+ new);
                           Exists cls new false; Exists cls x true]).
  split_and!.
  - simpl for_each. rewrite (bind_run _ _ w _ _ Hrun1), Hrun.
    do 2 f_equal. simpl length. lia.
  - by rewrite Hfs, Hfs1, insert_insert_eq.
  - split_and!.
    + intros [|i] name Hi; simpl in Hi.
      * simplify_eq. rewrite Z.add_0_r. fold new. rewrite Hb, <-Hd1new.
        apply Hc3.
        -- intros Hin. by eapply (Hnames new (n + 1)); [right|lia|].
        -- intros i _ Heq%scheme_name_inj. lia.
      * replace (n + 1 + Z.of_nat (S i)) with (n + 1 + 1 + Z.of_nat i) by lia.
        rewrite (Hc1 i name Hi). apply Hl. by eapply list_elem_of_lookup_2.
    + intros name [->|Hin]%elem_of_cons; [|by apply Hc2].
      rewrite <-Hd1x. apply Hc3; [done|].
      intros i _. apply Hnames; [by left|lia].
    + intros name [Hne Hnot]%not_elem_of_cons Hfree.
      rewrite Hc3; [|done|].
      * apply Hd1; [done|]. specialize (Hfree 0%nat ltac:(simpl; lia)).
        by rewrite Z.add_0_r in Hfree.
      * intros i Hi. specialize (Hfree (S i) ltac:(simpl; lia)).
        by replace (n + 1 + Z.of_nat (S i))
          with (n + 1 + 1 + Z.of_nat i) in Hfree by lia.
  - rewrite Hlog, Hlog1. by rewrite <-(assoc_L (++)).
  - rewrite count_app, Hcount. simpl length. simpl count. lia.
  - rewrite count_app, Hfail. reflexivity.
Qed.

Lemma elem_of_to_rename cls (d : dir) x :
  x ∈ to_rename_of cls d ↔
  x ∈ all_jpgs_of d ∧ Text.pattern_match (Text.lower cls) x = false.
Proof.
  unfold to_rename_of. rewrite sorted_Permutation, list_elem_of_filter. tauto.
Qed.

Lemma NoDup_to_rename cls (d : dir) : NoDup (to_rename_of cls d).
Proof.
  unfold to_rename_of, all_jpgs_of. rewrite sorted_Permutation.
  apply NoDup_filter, NoDup_elements.
Qed.

Lemma max_num_of_nonneg cls (d : dir) : 0 ≤ max_num_of cls d.
Proof.
  unfold max_num_of.
  destruct (maximum _) as [m|] eqn:Hmax; simpl; [|done].
  apply maximum_in, list_elem_of_omap in Hmax as (name & _ & Hm).
  destruct (Text.pattern_match _ name); [|done].
  destruct (Text.re_search_digits name) as [ds|] eqn:Hds; [|done].
  simpl in Hm. simplify_eq.
  apply int_acc_nonneg; [|done]. by eapply re_search_digits_all_digits.
Qed.

(** The numbers above the one the rename pass starts from are free. *)
Lemma max_num_of_fresh cls (d : dir) k :
  cls ∈ class_folders → max_num_of cls d < k →
  d !! scheme_name cls k = None.
Proof.
  intros Hcls Hk. pose proof (max_num_of_nonneg cls d) as Hpos.
  destruct (d !! scheme_name cls k) as [b|] eqn:Hb; [|done].
  assert (Hs : scheme_name cls k ∈ all_jpgs_of d).
  { apply elem_of_all_jpgs. split; [left; apply scheme_jpg|by eexists]. }
  unfold max_num_of in Hk, Hpos.
  destruct (maximum _) as [m|] eqn:Hmax; simpl in Hk, Hpos.
  - assert (k ≤ m); [|lia].
    eapply maximum_elem_of; [done|]. apply list_elem_of_omap.
    exists (scheme_name cls k). split; [done|].
    rewrite scheme_pattern by lia.
    rewrite scheme_first_digits by (done || lia). simpl.
    by rewrite int_pretty by lia.
  - apply maximum_None in Hmax.
    assert (Hin : k ∈ omap
      (λ name, if Text.pattern_match (Text.lower cls) name
               then Text.int <$> Text.re_search_digits name else None)
      (all_jpgs_of d)).
    { apply list_elem_of_omap. exists (scheme_name cls k). split; [done|].
      rewrite scheme_pattern by lia.
      rewrite scheme_first_digits by (done || lia). simpl.
      by rewrite int_pretty by lia. }
    rewrite Hmax in Hin. by apply elem_of_nil in Hin.
Qed.

(** One turn of the loop over [class_folders]. *)
Lemma rename_class_any source_dir cls w :
  cls ∈ class_folders →
  ∃ w',
    rename_class quiet_env source_dir cls w = (Ok (), w') ∧
    (∀ cls', cls' ≠ cls → fs w' !! cls' = fs w !! cls') ∧
    match fs w !! cls with
    | None => fs w' = fs w
    | Some d =>
        ∃ d',
          fs w' !! cls = Some d' ∧
          renamed_into cls (max_num_of cls d + 1) d (to_rename_of cls d) d' ∧
          (to_rename_of cls d = [] → fs w' = fs w)
    end.
Proof.
  intros Hcls.
  destruct (fs w !! cls) as [d|] eqn:Hd.
  2:{ unfold rename_class. unfold_calls. simpl. rewrite Hd.
      rewrite bool_decide_eq_false_2 by (by intros [??]). simpl.
      by eexists. }
  destruct (classify_run (Text.lower cls) (all_jpgs_of d) [] [])
    as (found & Hcl & Hfound).
  assert (Hmax : default 0 (maximum found.*1) = max_num_of cls d).
  { unfold max_num_of. by rewrite Hfound. }
  assert (Hloop : ∀ w0, fs w0 = fs w →
    ∃ w' d',
      for_each (rename_one quiet_env cls) (to_rename_of cls d)
        (max_num_of cls d) w0 =
        (Ok (max_num_of cls d + Z.of_nat (length (to_rename_of cls d))), w') ∧
      fs w' = <[cls := d']> (fs w) ∧
      renamed_into cls (max_num_of cls d + 1) d (to_rename_of cls d) d').
  { intros w0 Hw0.
    destruct (rename_loop_into cls (to_rename_of cls d) (max_num_of cls d) d w0)
      as (w' & d' & new & Hrun & Hfs & Hinto & _).
    - apply NoDup_to_rename.
    - by rewrite Hw0.
    - intros x [Hin _]%elem_of_to_rename.
      by apply elem_of_all_jpgs in Hin as [_ ?].
    - intros x k [_ Hx]%elem_of_to_rename Hk ->.
      pose proof (max_num_of_nonneg cls d).
      rewrite scheme_pattern in Hx by lia. done.
    - intros k Hk. by apply max_num_of_fresh.
    - exists w', d'. by rewrite <-Hw0. }
  unfold rename_class, banner. unfold_calls. simpl.
  rewrite Hd. rewrite bool_decide_eq_true_2 by (by eexists). simpl.
  rewrite !Hd. simpl.
  fold (all_jpgs_of d). rewrite Hcl. simpl.
  fold (to_rename_of cls d). rewrite Hmax.
  destruct (filter _ (all_jpgs_of d)) as [|x tr] eqn:Htr.
  { eexists. split; [reflexivity|]. simpl. split; [done|].
    exists d. split; [done|]. unfold to_rename_of. rewrite Htr.
    split; [|done].
    split_and!; [done|by intros ? ?%elem_of_nil|done]. }
  match goal with
  | |- context [for_each _ _ _ ?w0] =>
      destruct (Hloop w0) as (w' & d' & Hrun & Hfs & Hinto); [done|]
  end.
  rewrite Hrun. simpl.
  eexists. split; [reflexivity|]. simpl. rewrite Hfs. split_and!.
  - intros cls' Hne. by rewrite lookup_insert_ne.
  - exists d'. split; [by rewrite lookup_insert_eq|]. split; [done|].
    intros Hnil. apply (f_equal length) in Hnil.
    unfold to_rename_of in Hnil. rewrite sorted_length, Htr in Hnil. done.
Qed.

(** After the files to rename were moved, every file the pass would list
    carries a name of the scheme. *)
Lemma renamed_all cls (d d' : dir) :
  cls ∈ class_folders →
  renamed_into cls (max_num_of cls d + 1) d (to_rename_of cls d) d' →
  all_renamed cls d'.
Proof.
  intros Hcls (Hc1 & Hc2 & Hc3) name Hname.
  pose proof (max_num_of_nonneg cls d) as Hpos.
  destruct (Text.pattern_match (Text.lower cls) name) eqn:Hp; [done|].
  apply elem_of_all_jpgs in Hname as [Hm Hsome].
  destruct (decide (name ∈ to_rename_of cls d)) as [Hin|Hnot].
  { rewrite (Hc2 name Hin) in Hsome. by destruct Hsome. }
  rewrite Hc3 in Hsome; [|done|].
  - destruct Hnot. apply elem_of_to_rename. split; [|done].
    by apply elem_of_all_jpgs.
  - intros i _ ->. rewrite scheme_pattern in Hp by lia. done.
Qed.

(** The bytes of every file are still there, under its name or under the
    name it was given. *)
Lemma renamed_keeps_bytes cls (d d' : dir) name bytes :
  cls ∈ class_folders →
  renamed_into cls (max_num_of cls d + 1) d (to_rename_of cls d) d' →
  d !! name = Some bytes →
  ∃ name', d' !! name' = Some bytes ∧
    (name' = name ∨
     name ∈ to_rename_of cls d ∧ ∃ k, max_num_of cls d < k ∧
       name' = scheme_name cls k).
Proof.
  intros Hcls (Hc1 & Hc2 & Hc3) Hb.
  destruct (decide (name ∈ to_rename_of cls d)) as [Hin|Hnot].
  - pose proof Hin as [i Hi]%list_elem_of_lookup_1.
    exists (scheme_name cls (max_num_of cls d + 1 + Z.of_nat i)). split.
    + by rewrite (Hc1 i name Hi).
    + right. split; [done|]. eexists. split; [|done]. lia.
  - exists name. split; [|by left]. rewrite Hc3; [done..|].
    intros i _ ->.
    rewrite max_num_of_fresh in Hb; [done..|lia].
Qed.

Lemma all_renamed_nil cls (d : dir) :
  all_renamed cls d → to_rename_of cls d = [].
Proof.
  intros Hall. apply elem_of_nil_inv. intros x [Hin Hx]%elem_of_to_rename.
  rewrite (Hall x Hin) in Hx. done.
Qed.

(** The pass, seen from each folder. *)
Lemma rename_run_any source_dir w :
  ∃ w',
    rename_jpg_files quiet_env source_dir w = (Ok (), w') ∧
    (∀ cls, cls ∉ class_folders → fs w' !! cls = fs w !! cls) ∧
    (∀ cls, cls ∈ class_folders →
       match fs w !! cls with
       | None => fs w' !! cls = None
       | Some d =>
           ∃ d', fs w' !! cls = Some d' ∧
             renamed_into cls (max_num_of cls d + 1) d (to_rename_of cls d) d'
       end).
Proof.
  set (T := λ (cls : string) (before after : option dir),
    match before with
    | None => after = None
    | Some d =>
        ∃ d', after = Some d' ∧
          renamed_into cls (max_num_of cls d + 1) d (to_rename_of cls d) d'
    end).
  destruct (for_each_class (λ _ cls, rename_class quiet_env source_dir cls) T)
    with (a := ()) (w := w) as ([] & w' & Hrun & Hout & Hin).
  { intros [] cls w0 Hcls.
    destruct (rename_class_any source_dir cls w0 Hcls)
      as (w1 & Hr & Hframe & Hturn).
    exists (), w1. split_and!; [done..|].
    unfold T. destruct (fs w0 !! cls) as [d|] eqn:Hd.
    - destruct Hturn as (d' & Hd' & Hinto & _). by exists d'.
    - by rewrite Hturn. }
  by exists w'.
Qed.

(** X5. While nothing else touches the tree, [rename_jpg_files] returns
    and leaves every folder but the three class folders alone.  In a class
    folder the files it lists ([*.jpg], [*.JPG]) whose names are not of
    the scheme are moved, in the order of their names, to the numbers that
    follow the largest number in use, one after the other without a gap;
    every other file stays as it was; the bytes of every file are still
    there, under its name or its new one; and afterwards every file the
    pass lists carries a name of the scheme. *)
Theorem rename_numbers_in_order (source_dir : string) (w : world) :
  ∃ w',
    rename_jpg_files quiet_env source_dir w = (Ok (), w') ∧
    (∀ cls, cls ∉ class_folders → fs w' !! cls = fs w !! cls) ∧
    (∀ cls, fs w !! cls = None → fs w' !! cls = None) ∧
    (∀ cls d, cls ∈ class_folders → fs w !! cls = Some d →
       ∃ d',
         fs w' !! cls = Some d' ∧
         renamed_into cls (max_num_of cls d + 1) d (to_rename_of cls d) d' ∧
         StronglySorted String.le (to_rename_of cls d) ∧
         (∀ name bytes, d !! name = Some bytes →
            ∃ name', d' !! name' = Some bytes) ∧
         all_renamed cls d').
Proof.
  destruct (rename_run_any source_dir w) as (w' & Hrun & Hout & Hin).
  exists w'. split_and!; [done..| |].
  - intros cls Hnone.
    destruct (decide (cls ∈ class_folders)) as [Hcls|Hcls].
    + specialize (Hin cls Hcls). by rewrite Hnone in Hin.
    + by rewrite Hout.
  - intros cls d Hcls Hd. specialize (Hin cls Hcls).
    rewrite Hd in Hin. destruct Hin as (d' & Hd' & Hinto).
    exists d'. split_and!; [done..| | |].
    + apply StronglySorted_merge_sort; apply _.
    + intros name bytes Hb.
      destruct (renamed_keeps_bytes cls d d' name bytes Hcls Hinto Hb)
        as (name' & ? & _). by exists name'.
    + by eapply renamed_all.
Qed.

(** A turn on a folder whose listed files all carry names of the scheme
    leaves the tree as it is. *)
Lemma rename_run_done source_dir w :
  (∀ cls d, cls ∈ class_folders → fs w !! cls = Some d → all_renamed cls d) →
  ∃ w', rename_jpg_files quiet_env source_dir w = (Ok (), w') ∧ fs w' = fs w.
Proof.
  intros Hall.
  destruct (class_folders_each (λ cls, cls ∈ class_folders))
    as (Hgood & Hbad & Hugly); [done|].
  assert (Hturn : ∀ cls w0, cls ∈ class_folders → fs w0 = fs w →
    ∃ w1, rename_class quiet_env source_dir cls w0 = (Ok (), w1) ∧
          fs w1 = fs w).
  { intros cls w0 Hcls Hw0.
    destruct (rename_class_any source_dir cls w0 Hcls)
      as (w1 & Hr & _ & Hturn).
    exists w1. split; [done|]. rewrite <-Hw0.
    destruct (fs w0 !! cls) as [d|] eqn:Hd; [|done].
    destruct Hturn as (d' & _ & _ & Hnil). apply Hnil, all_renamed_nil.
    apply Hall; [done|]. by rewrite <-Hw0. }
  destruct (Hturn "Good" w Hgood eq_refl) as (w1 & Hr1 & Hf1).
  destruct (Hturn "Bad" w1 Hbad Hf1) as (w2 & Hr2 & Hf2).
  destruct (Hturn "Ugly" w2 Hugly Hf2) as (w3 & Hr3 & Hf3).
  exists w3. split; [|done].
  unfold rename_jpg_files, class_folders. simpl for_each.
  rewrite (bind_run _ _ w _ _ Hr1), (bind_run _ _ w1 _ _ Hr2).
  by rewrite (bind_run _ _ w2 _ _ Hr3).
Qed.

(** X6. While nothing else touches the tree, [rename_jpg_files] run a
    second time on what its first run left renames nothing: it returns
    and leaves the tree as it is. *)
Theorem rename_twice_is_once (source_dir : string) (w : world) :
  ∃ w1 w2,
    rename_jpg_files quiet_env source_dir w = (Ok (), w1) ∧
    rename_jpg_files quiet_env source_dir w1 = (Ok (), w2) ∧
    fs w2 = fs w1.
Proof.
  destruct (rename_run_any source_dir w) as (w1 & Hrun1 & Hout & Hin).
  destruct (rename_run_done source_dir w1) as (w2 & Hrun2 & Hfs).
  { intros cls d1 Hcls Hd1. specialize (Hin cls Hcls).
    destruct (fs w !! cls) as [d|] eqn:Hd.
    - destruct Hin as (d' & Hd' & Hinto). simplify_eq.
      by eapply renamed_all.
    - rewrite Hin in Hd1. done. }
  by exists w1, w2.
Qed.

(** ** What the rename pass leaves in the log, in any environment *)

Section RenameLog.
Context (E : env) (P : list event → Prop).
Context (P_print : ∀ l line,
  is_renaming_line (Print line) = false →
  is_rename_error_line (Print line) = false →
  P l → P (Print line :: l)).
Context (P_dir : ∀ l cls r, P l → P (DirExists cls r :: l)).
Context (P_glob : ∀ l cls pat r, P l → P (Glob cls pat r :: l)).
Context (P_turn : ∀ cls n jpg w n' w',
  rename_one E cls n jpg w = (Ok n', w') → P (log w) → P (log w')).

Lemma rename_loop_log cls l n w n' w' :
  for_each (rename_one E cls) l n w = (Ok n', w') →
  P (log w) → P (log w').
Proof.
  revert n w. induction l as [|x l IH]; intros n w Hrun HP; simpl in Hrun.
  - unfold mret, M_ret in Hrun. by simplify_eq.
  - unfold mbind, M_bind in Hrun.
    destruct (rename_one E cls n x w) as [[n1|e] w1] eqn:Hone; [|done].
    eapply IH; [done|]. by eapply P_turn.
Qed.

Lemma rename_class_log source_dir cls w r w' :
  rename_class E source_dir cls w = (Ok r, w') →
  P (log w) → P (log w').
Proof.
  unfold rename_class, banner. unfold_calls. simpl.
  destruct (negb _); simpl.
  { intros ? HP. simplify_eq. simpl. apply P_print; [done..|]. by apply P_dir. }
  destruct (classify _ _ [] []) as [[ar tr]|e]; simpl; [|done].
  assert (HP0 : ∀ l, P l →
    P (Print ("  Need to rename: " +:+ pretty (Z.of_nat (length tr)))
       :: Print ("  Already renamed: " +:+ pretty (Z.of_nat (length ar)))
       :: l)).
  { intros l HP. by do 2 (apply P_print; [done..|]). }
  destruct tr as [|x tr].
  { intros ? HP. simplify_eq. simpl. apply HP0.
    do 2 apply P_glob. do 3 (apply P_print; [done..|]). by apply P_dir. }
  match goal with
  | |- context [for_each ?b ?l ?n ?w0] =>
      destruct (for_each b l n w0) as [[n1|e1] w1] eqn:Hloop; [|done]
  end.
  intros ? HP. simplify_eq. simpl.
  apply P_print; [done..|]. apply P_glob.
  eapply rename_loop_log; [done|]. simpl. apply HP0.
  do 2 apply P_glob. do 3 (apply P_print; [done..|]). by apply P_dir.
Qed.

Lemma rename_run_log source_dir w r w' :
  rename_jpg_files E source_dir w = (Ok r, w') →
  P (log w) → P (log w').
Proof.
  unfold rename_jpg_files, class_folders. simpl for_each.
  unfold mbind at 1, M_bind at 1.
  destruct (rename_class E source_dir "Good" w) as [[r1|e1] w1] eqn:H1;
    [|done].
  unfold mbind at 1, M_bind at 1.
  destruct (rename_class E source_dir "Bad" w1) as [[r2|e2] w2] eqn:H2;
    [|done].
  unfold mbind at 1, M_bind at 1.
  destruct (rename_class E source_dir "Ugly" w2) as [[r3|e3] w3] eqn:H3;
    [|done].
  unfold mret, M_ret. intros ? HP. simplify_eq.
  eapply rename_class_log; [exact H3|].
  eapply rename_class_log; [exact H2|].
  by eapply rename_class_log.
Qed.
End RenameLog.

Lemma prefix_app s x : String.prefix s (s +:+ x) = true.
Proof.
  induction s as [|c s IH].
  - by destruct x.
  - rewrite string_app_cons. simpl. rewrite IH.
    by destruct (Ascii.ascii_dec c c).
Qed.

Ltac printed_lines :=
  repeat match goal with
  | |- context [String.prefix ?a (?a +:+ ?c)] => rewrite (prefix_app a c)
  | |- context [String.prefix ?a (?b +:+ ?c)] =>
      change (String.prefix a (b +:+ c)) with false
  end.

(** One turn of the loop over [sorted(to_rename)], in any environment:
    each call of [rename] is announced, each one that fails is reported,
    and no other call is made than [exists] and [rename]. *)
Lemma rename_one_reports (E : env) cls n jpg w :
  ∃ n' w' new,
    rename_one E cls n jpg w = (Ok n', w') ∧
    log w' = new ++ log w ∧
    count is_rename new = count is_renaming_line new ∧
    count is_failed_rename new = count is_rename_error_line new ∧
    forallb rename_pass_event new = true.
Proof.
  unfold rename_one. unfold_calls.
  repeat (first [ match goal with
                  | |- context [bool_decide ?P] =>
                      destruct (bool_decide P) eqn:?
                  end
                | case_match ]; simpl in *; simplify_eq);
    (eexists _, _, _; split; [reflexivity|]; split; [new_events|]);
    simpl; printed_lines; done.
Qed.

(** X7. A [rename] that fails does not stop [rename_jpg_files]: whatever
    other processes do to the folders between its calls, and whichever
    calls of [rename] fail, the exception is caught and the pass goes on
    to its end.  Each call of [rename] it makes is announced by a line
    "Renaming:", and each call that fails is reported by a line "Error
    renaming" and by nothing else.  (The checks [exists()], the globs and
    [print] stand outside the [try]; they are taken to answer.) *)
Theorem rename_failures_reported (E : env) (source_dir : string) (w : world) :
  ∃ w' new,
    rename_jpg_files E source_dir w = (Ok (), w') ∧
    log w' = new ++ log w ∧
    count is_rename new = count is_renaming_line new ∧
    count is_failed_rename new = count is_rename_error_line new.
Proof.
  destruct (rename_run_spec E source_dir w) as (w' & Hrun & _).
  set (P := λ l : list event, ∃ new,
    l = new ++ log w ∧
    count is_rename new = count is_renaming_line new ∧
    count is_failed_rename new = count is_rename_error_line new).
  assert (HP : P (log w')).
  { eapply (rename_run_log E P); [..|exact Hrun|by exists []].
    - intros l line H1 H2 (new & -> & Hc1 & Hc2).
      exists (Print line :: new). split; [done|].
      simpl count. simpl in H1, H2. rewrite H1, H2. simpl count. done.
    - intros l cls r (new & -> & Hc1 & Hc2).
      by exists (DirExists cls r :: new).
    - intros l cls pat r (new & -> & Hc1 & Hc2).
      by exists (Glob cls pat r :: new).
    - intros cls n jpg w0 n' w0' Hone (new & Hlog & Hc1 & Hc2).
      destruct (rename_one_reports E cls n jpg w0)
        as (n1 & w1 & new1 & Hone' & Hlog1 & Hd1 & Hd2 & _).
      rewrite Hone in Hone'. simplify_eq.
      exists (new1 ++ new). split; [by rewrite Hlog1, Hlog, (assoc_L (++))|].
      rewrite !count_app. lia. }
  destruct HP as (new & Hlog & Hc1 & Hc2). by exists w', new.
Qed.

(** ** The calls each pass makes *)

Section ConvertLogAt.
Context (C : codec) (E : env) (del : bool) (P : list event → Prop).
Context (P_print : ∀ l line, P l → P (Print line :: l)).
Context (P_dir : ∀ l cls r, P l → P (DirExists cls r :: l)).
Context (P_glob : ∀ l cls pat r, P l → P (Glob cls pat r :: l)).
Context (P_turn : ∀ cls s heic w s' w',
  convert_one C E cls del s heic w = (Ok s', w') → P (log w) → P (log w')).

Lemma convert_loop_log_at cls l s w s' w' :
  for_each (convert_one C E cls del) l s w = (Ok s', w') →
  P (log w) → P (log w').
Proof.
  revert s w. induction l as [|x l IH]; intros s w Hrun HP; simpl in Hrun.
  - unfold mret, M_ret in Hrun. by simplify_eq.
  - unfold mbind, M_bind in Hrun.
    destruct (convert_one C E cls del s x w) as [[s1|e] w1] eqn:Hone; [|done].
    eapply IH; [done|]. by eapply P_turn.
Qed.

Lemma convert_class_log_at source_dir totals cls w r w' :
  convert_class C E source_dir del totals cls w = (Ok r, w') →
  P (log w) → P (log w').
Proof.
  unfold convert_class, banner. unfold_calls. simpl.
  destruct (negb _); simpl.
  { intros ? HP. simplify_eq. simpl. auto. }
  destruct (sorted _) as [|h hs] eqn:Hsorted.
  { intros ? HP. simplify_eq. simpl. auto 10. }
  destruct totals as [[c d] e].
  match goal with
  | |- context [for_each ?b ?l ?s ?w0] =>
      destruct (for_each b l s w0) as [[s1|e1] w1] eqn:Hloop; [|done]
  end.
  intros ? HP. simplify_eq.
  eapply convert_loop_log_at; [done|]. simpl. auto 12.
Qed.

Lemma convert_run_log_at source_dir w r w' :
  convert_and_rename_heic_to_jpg C E source_dir del w = (Ok r, w') →
  P (log w) → P (log w').
Proof.
  unfold convert_and_rename_heic_to_jpg, class_folders. simpl for_each.
  unfold mbind at 1, M_bind at 1.
  unfold mbind at 1, M_bind at 1.
  destruct (convert_class C E source_dir del (0, 0, 0) "Good" w)
    as [[r1|e1] w1] eqn:H1; [|done].
  unfold mbind at 1, M_bind at 1.
  destruct (convert_class C E source_dir del r1 "Bad" w1)
    as [[r2|e2] w2] eqn:H2; [|done].
  unfold mbind at 1, M_bind at 1.
  destruct (convert_class C E source_dir del r2 "Ugly" w2)
    as [[r3|e3] w3] eqn:H3; [|done].
  unfold_calls. simpl. intros ? HP. simplify_eq. simpl.
  do 6 apply P_print.
  eapply convert_class_log_at; [done|].
  eapply convert_class_log_at; [done|].
  by eapply convert_class_log_at.
Qed.
End ConvertLogAt.

Lemma convert_one_events (C : codec) (E : env) cls del s heic w :
  ∃ s' w' new,
    convert_one C E cls del s heic w = (Ok s', w') ∧
    log w' = new ++ log w ∧
    forallb (convert_pass_event del) new = true.
Proof.
  unfold convert_one. unfold_calls.
  repeat (case_match; simpl in *; simplify_eq);
    (eexists _, _, _; split; [reflexivity|]; split; [new_events|]); done.
Qed.

Lemma rename_run_events (E : env) source_dir w :
  ∃ w' new,
    rename_jpg_files E source_dir w = (Ok (), w') ∧
    log w' = new ++ log w ∧
    forallb rename_pass_event new = true.
Proof.
  destruct (rename_run_spec E source_dir w) as (w' & Hrun & _).
  set (P := λ l : list event, ∃ new,
    l = new ++ log w ∧ forallb rename_pass_event new = true).
  assert (HP : P (log w')).
  { eapply (rename_run_log E P); [..|exact Hrun|by exists []].
    - intros l line _ _ (new & -> & Hall). by exists (Print line :: new).
    - intros l cls r (new & -> & Hall). by exists (DirExists cls r :: new).
    - intros l cls pat r (new & -> & Hall). by exists (Glob cls pat r :: new).
    - intros cls n jpg w0 n' w0' Hone (new & Hlog & Hall).
      destruct (rename_one_reports E cls n jpg w0)
        as (n1 & w1 & new1 & Hone' & Hlog1 & _ & _ & Hall1).
      rewrite Hone in Hone'. simplify_eq.
      exists (new1 ++ new).
      split; [by rewrite Hlog1, Hlog, (assoc_L (++))|].
      by rewrite forallb_app, Hall1, Hall. }
  destruct HP as (new & Hlog & Hall). by exists w', new.
Qed.

Lemma convert_run_events (C : codec) (E : env) source_dir delete_originals w :
  ∃ totals w' new,
    convert_and_rename_heic_to_jpg C E source_dir delete_originals w =
      (Ok totals, w') ∧
    log w' = new ++ log w ∧
    forallb (convert_pass_event delete_originals) new = true.
Proof.
  destruct (convert_run_books C E source_dir delete_originals w)
    as (c & d & e & w' & Hrun & _).
  set (P := λ l : list event, ∃ new,
    l = new ++ log w ∧
    forallb (convert_pass_event delete_originals) new = true).
  assert (HP : P (log w')).
  { eapply (convert_run_log_at C E delete_originals P);
      [..|exact Hrun|by exists []].
    - intros l line (new & -> & Hall). by exists (Print line :: new).
    - intros l cls r (new & -> & Hall). by exists (DirExists cls r :: new).
    - intros l cls pat r (new & -> & Hall).
      by exists (Glob cls pat r :: new).
    - intros cls s heic w0 s' w0' Hone (new & Hlog & Hall).
      destruct (convert_one_events C E cls delete_originals s heic w0)
        as (s1 & w1 & new1 & Hone' & Hlog1 & Hall1).
      rewrite Hone in Hone'. simplify_eq.
      exists (new1 ++ new).
      split; [by rewrite Hlog1, Hlog, (assoc_L (++))|].
      by rewrite forallb_app, Hall1, Hall. }
  destruct HP as (new & Hlog & Hall). by exists (c, d, e), w', new.
Qed.

(** X8. In every environment, the only calls [rename_jpg_files] makes on
    the file system are checks that a folder or a file is there, globs and
    renames: it opens, writes and deletes no file.  The only calls
    [convert_and_rename_heic_to_jpg] makes are checks that a folder is
    there, globs, openings of files, writes and, when [delete_originals] is
    set, deletions: it renames no file, never checks that a file is there,
    and without [delete_originals] deletes none. *)
Theorem passes_calls (C : codec) (E : env) (source_dir : string)
    (delete_originals : bool) (w : world) :
  (∃ w' new,
     rename_jpg_files E source_dir w = (Ok (), w') ∧
     log w' = new ++ log w ∧
     forallb rename_pass_event new = true) ∧
  (∃ totals w' new,
     convert_and_rename_heic_to_jpg C E source_dir delete_originals w =
       (Ok totals, w') ∧
     log w' = new ++ log w ∧
     forallb (convert_pass_event delete_originals) new = true).
Proof.
  split.
  - destruct (rename_run_events E source_dir w) as (w' & new & Hrun & Hlog & Hall).
    by exists w', new.
  - destruct (convert_run_events C E source_dir delete_originals w)
      as (totals & w' & new & Hrun & Hlog & Hall).
    by exists totals, w', new.
Qed.

(** ** The script: both passes, one after the other *)

Lemma all_jpgs_not_heic (d : dir) x :
  x ∈ all_jpgs_of d →
  Text.fnmatch "*.HEIC" x = false ∧ Text.fnmatch "*.heic" x = false.
Proof.
  intros [Hm _]%elem_of_all_jpgs.
  assert (Hlast : last_char x = Some "g"%char ∨ last_char x = Some "G"%char).
  { destruct Hm as [Hm|Hm]; apply fnmatch_star_inv in Hm as [pre ->];
      try done; rewrite last_char_app by done; auto. }
  split.
  - destruct (Text.fnmatch "*.HEIC" x) eqn:Hh; [|done].
    apply fnmatch_star_inv in Hh as [pre ->]; [|done].
    rewrite last_char_app in Hlast by done. by destruct Hlast.
  - destruct (Text.fnmatch "*.heic" x) eqn:Hh; [|done].
    apply fnmatch_star_inv in Hh as [pre ->]; [|done].
    rewrite last_char_app in Hlast by done. by destruct Hlast.
Qed.

(** The rename pass leaves the originals as they are. *)
Lemma renamed_keeps_originals cls (d d' : dir) x :
  renamed_into cls (max_num_of cls d + 1) d (to_rename_of cls d) d' →
  Text.fnmatch "*.HEIC" x = true ∨ Text.fnmatch "*.heic" x = true →
  d' !! x = d !! x.
Proof.
  intros (_ & _ & Hc3) Hm. apply Hc3.
  - intros [Hin _]%elem_of_to_rename.
    destruct (all_jpgs_not_heic d x Hin). destruct Hm; congruence.
  - intros i _ ->. destruct (scheme_not_heic cls (max_num_of cls d + 1 + Z.of_nat i)).
    destruct Hm; congruence.
Qed.

Lemma renamed_keeps_rejected (C : codec) cls (d d' : dir) :
  renamed_into cls (max_num_of cls d + 1) d (to_rename_of cls d) d' →
  rejected_only C d → rejected_only C d'.
Proof.
  intros Hinto Hrej x [Hm Hsome]%elem_of_heic_files_of.
  rewrite (renamed_keeps_originals cls d d' x Hinto Hm) in *.
  apply Hrej. by apply elem_of_heic_files_of.
Qed.

Lemma renamed_keeps_canonical cls (d d' : dir) name bytes :
  cls ∈ class_folders →
  renamed_into cls (max_num_of cls d + 1) d (to_rename_of cls d) d' →
  d !! name = Some bytes →
  Text.pattern_match (Text.lower cls) name = true →
  d' !! name = Some bytes.
Proof.
  intros Hcls (_ & _ & Hc3) Hb Hp. rewrite Hc3; [done| |].
  - intros [_ Hx]%elem_of_to_rename. congruence.
  - intros i _ ->. rewrite max_num_of_fresh in Hb; [done..|lia].
Qed.

(** The script, while nothing else touches the tree. *)
Lemma main_run_quiet (C : codec) training_data_dir w :
  ∃ w',
    main C quiet_env training_data_dir w = (Ok (), w') ∧
    keeps (fs w) (fs w') ∧
    (∀ cls, cls ∉ class_folders → fs w' !! cls = fs w !! cls) ∧
    (∀ cls d', cls ∈ class_folders → fs w' !! cls = Some d' →
       all_renamed cls d' ∧ rejected_only C d').
Proof.
  destruct (convert_run_settles C training_data_dir w)
    as (totals & w1 & Hrun1 & Hrej1).
  destruct (convert_run_spares C training_data_dir true w (fs w))
    as (totals2 & wb & Hrunb & Hk1); [by intros cls name bytes|].
  assert (wb = w1) as -> by congruence.
  destruct (convert_run_any C training_data_dir true w)
    as (totals3 & wc & Hrunc & Hout1 & _).
  assert (wc = w1) as -> by congruence.
  set (wm := {| fs := fs w1; now := now w1;
                log := Print (Text.times "=" 50)
                       :: Print "RENAMING REMAINING JPG FILES"
                       :: Print (Text.nl +:+ Text.nl +:+ Text.times "=" 50)
                       :: log w1 |}).
  destruct (rename_run_any training_data_dir wm) as (w2 & Hrun2 & Hout2 & Hin2).
  change (fs wm) with (fs w1) in Hout2, Hin2.
  exists w2. split_and!.
  - assert (Hp : ∀ line w0,
      print line w0 =
        (Ok (), {| fs := fs w0; now := now w0; log := Print line :: log w0 |}))
      by reflexivity.
    unfold main. rewrite (bind_run _ _ w _ _ Hrun1).
    do 3 rewrite (bind_run _ _ _ _ _ (Hp _ _)).
    exact Hrun2.
  - intros cls name bytes Hb Hp. specialize (Hk1 cls name bytes Hb Hp).
    destruct (decide (cls ∈ class_folders)) as [Hcls|Hcls];
      [|by rewrite Hout2].
    specialize (Hin2 cls Hcls).
    destruct (fs w1 !! cls) as [d1|] eqn:Hd1; [|done].
    destruct Hin2 as (d2 & Hd2 & Hinto). rewrite Hd2. simpl in *.
    by eapply renamed_keeps_canonical.
  - intros cls Hcls. by rewrite Hout2, Hout1.
  - intros cls d2 Hcls Hd2. specialize (Hin2 cls Hcls).
    destruct (fs w1 !! cls) as [d1|] eqn:Hd1; [|congruence].
    destruct Hin2 as (d2' & Hd2' & Hinto). simplify_eq. split.
    + by eapply renamed_all.
    + eapply renamed_keeps_rejected; [done|]. by eapply Hrej1.
Qed.

(** X9. The script (lines 176-186: the convert pass with deletion, then
    the rename pass), run while nothing else touches the tree, returns and
    leaves a dataset in which, in each class folder, every file named
    [*.jpg] or [*.JPG] carries a name of the scheme and the only originals
    left are those the image library does not accept.  The files that
    carried a name of the scheme before are there with the bytes they had,
    and the folders other than the class folders are as they were. *)
Theorem main_leaves_dataset (C : codec) (training_data_dir : string)
    (w : world) :
  ∃ w',
    main C quiet_env training_data_dir w = (Ok (), w') ∧
    keeps (fs w) (fs w') ∧
    (∀ cls, cls ∉ class_folders → fs w' !! cls = fs w !! cls) ∧
    (∀ cls d', cls ∈ class_folders → fs w' !! cls = Some d' →
       all_renamed cls d' ∧ rejected_only C d').
Proof.
  destruct (main_run_quiet C training_data_dir w)
    as (w' & Hrun & Hkeep & Hout & Hin).
  exists w'. split_and!; [done..|].
  intros cls d' Hcls Hd'. by apply Hin.
Qed.

(** ** The files the rename pass sorts out *)

Lemma classify_parts label jpgs already_renamed to_rename :
  ∃ found,
    classify label jpgs already_renamed to_rename =
      Ok (already_renamed ++ found,
          to_rename ++ filter (λ x, Text.pattern_match label x = false) jpgs) ∧
    found.*2 = filter (λ x, Text.pattern_match label x = true) jpgs ∧
    Forall (λ p, Text.int <$> Text.re_search_digits p.2 = Some p.1) found.
Proof.
  revert already_renamed to_rename.
  induction jpgs as [|jpg jpgs IH]; intros ar tr; simpl.
  - exists []. by rewrite !app_nil_r.
  - destruct (Text.pattern_match label jpg) eqn:Hm.
    + destruct (pattern_match_has_digits _ _ Hm) as [ds Hds]. rewrite Hds.
      destruct (IH (ar ++ [(Text.int ds, jpg)]) tr)
        as (found & -> & Hnames & Hnums).
      exists ((Text.int ds, jpg) :: found). split_and!.
      * rewrite filter_cons_False by congruence.
        by rewrite <-(assoc_L (++)).
      * rewrite filter_cons_True by done. by rewrite fmap_cons, Hnames.
      * constructor; [|done]. simpl. by rewrite Hds.
    + destruct (IH ar (tr ++ [jpg])) as (found & -> & Hnames & Hnums).
      exists found. split_and!; [|by rewrite filter_cons_False by congruence|done].
      rewrite filter_cons_True by done. by rewrite <-(assoc_L (++)).
Qed.

Lemma filter_lengths {A} (p : A → bool) (l : list A) :
  (length (filter (λ x, p x = true) l) +
   length (filter (λ x, p x = false) l))%nat = length l.
Proof.
  induction l as [|x l IH]; [done|].
  destruct (p x) eqn:Hp.
  - rewrite filter_cons_True, filter_cons_False by congruence. simpl. lia.
  - rewrite filter_cons_False, filter_cons_True by congruence. simpl. lia.
Qed.

(** X11. Lines 51-57 never raise: for a name the pattern accepts, the
    search for its digits finds some, so [.group()] is never called on
    [None].  The loop sorts every listed file into exactly one of the two
    lists, keeping the order: [already_renamed] gets the names the pattern
    accepts, each with the number read from it, [to_rename] the others,
    and the two counts the pass prints add up to the number of files
    listed. *)
Theorem classify_partitions (label : string) (jpgs : list string) :
  ∃ already_renamed to_rename,
    classify label jpgs [] [] = Ok (already_renamed, to_rename) ∧
    already_renamed.*2 = filter (λ x, Text.pattern_match label x = true) jpgs ∧
    to_rename = filter (λ x, Text.pattern_match label x = false) jpgs ∧
    Forall (λ p, Text.int <$> Text.re_search_digits p.2 = Some p.1)
      already_renamed ∧
    (length already_renamed + length to_rename)%nat = length jpgs.
Proof.
  destruct (classify_parts label jpgs [] []) as (found & Hrun & Hnames & Hnums).
  exists found, (filter (λ x, Text.pattern_match label x = false) jpgs).
  split_and!; [done..|].
  rewrite <-(length_fmap snd found), Hnames.
  apply (filter_lengths (Text.pattern_match label)).
Qed.

(** ** The names the rename pass gives, in any environment *)

Lemma renamed_to_app l1 l2 :
  renamed_to (l1 ++ l2) = renamed_to l1 ++ renamed_to l2.
Proof. unfold renamed_to. apply omap_app. Qed.

Lemma rename_one_targets (E : env) cls n jpg w :
  ∃ n' w' new,
    rename_one E cls n jpg w = (Ok n', w') ∧
    log w' = new ++ log w ∧
    ((renamed_to new = [scheme_name cls (n + 1)] ∧ n' = n + 1) ∨
     (renamed_to new = [] ∧ n ≤ n' ≤ n + 1)).
Proof.
  unfold rename_one, scheme_name. unfold_calls.
  repeat (first [ match goal with
                  | |- context [bool_decide ?P] =>
                      destruct (bool_decide P) eqn:?
                  end
                | case_match ]; simpl in *; simplify_eq);
    (eexists _, _, _; split; [reflexivity|]; split; [new_events|]);
    simpl; first [by left|right; split; [done|lia]].
Qed.

(** X12. Lines 72-91, in every environment: in one run of the loop over
    [sorted(to_rename)] no two calls of [rename] are given the same new
    name.  Each new name is of the scheme, with a number above the one the
    loop starts from and up to the one it ends with. *)
Theorem rename_targets_distinct (E : env) (cls : string)
    (to_rename : list string) (max_num : Z) (w : world) :
  ∃ n' w' new,
    for_each (rename_one E cls) to_rename max_num w = (Ok n', w') ∧
    log w' = new ++ log w ∧
    max_num ≤ n' ≤ max_num + Z.of_nat (length to_rename) ∧
    NoDup (renamed_to new) ∧
    Forall (λ dst, ∃ k, max_num < k ≤ n' ∧ dst = scheme_name cls k)
      (renamed_to new).
Proof.
  revert max_num w. induction to_rename as [|x l IH]; intros n w.
  { exists n, w, []. split_and!; try done; try (simpl; lia). constructor. }
  destruct (rename_one_targets E cls n x w)
    as (n1 & w1 & new1 & Hrun1 & Hlog1 & Hturn).
  destruct (IH n1 w1) as (n2 & w2 & new2 & Hrun2 & Hlog2 & Hn2 & Hnd2 & Hall2).
  assert (Hn1 : n ≤ n1 ≤ n + 1) by (destruct Hturn as [[_ ->]|[_ ?]]; lia).
  exists n2, w2, (new2 ++ new1). split_and!.
  - simpl. by rewrite (bind_run _ _ w _ _ Hrun1).
  - by rewrite Hlog2, Hlog1, (assoc_L (++)).
  - lia.
  - simpl length. lia.
  - rewrite renamed_to_app. apply NoDup_app. split_and!; [done| |].
    + intros dst Hin2 Hin1.
      rewrite Forall_forall in Hall2.
      destruct (Hall2 dst Hin2) as (k & Hk & ->).
      destruct Hturn as [[Hr ->]|[Hr _]]; rewrite Hr in Hin1.
      * apply list_elem_of_singleton, scheme_name_inj in Hin1. lia.
      * by apply elem_of_nil in Hin1.
    + destruct Hturn as [[-> _]|[-> _]]; [apply NoDup_singleton|constructor].
  - rewrite renamed_to_app. apply Forall_app. split.
    + eapply Forall_impl; [done|]. intros dst (k & Hk & ->).
      exists k. split; [lia|done].
    + destruct Hturn as [[-> ->]|[-> _]]; [|constructor].
      constructor; [|constructor]. exists (n + 1). split; [lia|done].
Qed.

(** ** The totals of the convert pass *)

Lemma filter_ext_elem {A} (P Q : A → Prop) `{∀ x, Decision (P x)}
    `{∀ x, Decision (Q x)} (l : list A) :
  (∀ x, x ∈ l → P x ↔ Q x) → filter P l = filter Q l.
Proof.
  induction l as [|x l IH]; intros Hext; [done|].
  assert (IH' : filter P l = filter Q l).
  { apply IH. intros y Hy. apply Hext. by right. }
  destruct (decide (P x)) as [HP|HP].
  - rewrite !filter_cons_True, IH'; [done| |done]. apply Hext; [by left|done].
  - rewrite !filter_cons_False, IH'; [done| |done].
    intros HQ. apply HP, Hext; [by left|done].
Qed.

(** The loop over the originals of a folder counts each of them once: as
    converted (and deleted, on request) when the image library accepts
    it, as an error when it does not. *)
Lemma convert_loop_counts (C : codec) cls del l s (d : dir) w :
  NoDup l → fs w !! cls = Some d →
  (∀ x k, x ∈ l → x ≠ scheme_name cls k) →
  let a := Z.of_nat (length (filter (λ x, accepted C d x = true) l)) in
  ∃ s' w',
    for_each (convert_one C quiet_env cls del) l s w = (Ok s', w') ∧
    total_converted s' = total_converted s + a ∧
    total_deleted s' = total_deleted s + (if del then a else 0) ∧
    total_errors s' = total_errors s + (Z.of_nat (length l) - a).
Proof.
  intros Hnd. revert s d w.
  induction Hnd as [|x l Hx Hnd IH]; intros s d w Hd Hnames a.
  { exists s, w. subst a. simpl. split; [done|]. destruct del; lia. }
  destruct (convert_one_quiet C cls del s x w d Hd) as [w1 H1].
  assert (Hacc : accepted C d x = if d !! x ≫= jpeg_of C is Some _ then true else false)
    by done.
  destruct (d !! x ≫= jpeg_of C) as [jpeg|] eqn:Hjpeg.
  - destruct H1 as [Hrun1 Hfs1].
    set (new := scheme_name cls (next_num s)) in *.
    set (d1 := if del then delete x (<[new := jpeg]> d)
               else <[new := jpeg]> d) in *.
    assert (Hl : ∀ y, y ∈ l → d1 !! y = d !! y).
    { intros y Hy.
      assert (y ≠ x) by (by intros ->).
      assert (y ≠ new) by (apply Hnames; by right).
      subst d1. destruct del.
      - by rewrite lookup_delete_ne, lookup_insert_ne.
      - by rewrite lookup_insert_ne. }
    match type of Hrun1 with _ = (Ok ?s1, _) =>
      destruct (IH s1 d1 w1) as (s' & w' & Hrun & Hc & Hdl & He)
    end.
    { by rewrite Hfs1, lookup_insert_eq. }
    { intros y k Hy. apply Hnames. by right. }
    assert (Hsame : filter (λ y, accepted C d1 y = true) l =
                    filter (λ y, accepted C d y = true) l).
    { apply filter_ext_elem. intros y Hy. unfold accepted. by rewrite Hl. }
    rewrite Hsame in Hc, Hdl, He. simpl in Hc, Hdl, He.
    exists s', w'. subst a.
    rewrite filter_cons_True by done. simpl length.
    split; [by simpl; rewrite (bind_run _ _ w _ _ Hrun1)|].
    destruct del; lia.
  - destruct H1 as [Hrun1 Hfs1].
    match type of Hrun1 with _ = (Ok ?s1, _) =>
      destruct (IH s1 d w1) as (s' & w' & Hrun & Hc & Hdl & He)
    end.
    { by rewrite Hfs1. }
    { intros y k Hy. apply Hnames. by right. }
    simpl in Hc, Hdl, He.
    exists s', w'. subst a.
    rewrite filter_cons_False by congruence. simpl length.
    split; [by simpl; rewrite (bind_run _ _ w _ _ Hrun1)|].
    destruct del; lia.
Qed.

Lemma heic_files_of_empty : heic_files_of ∅ = [].
Proof.
  apply elem_of_nil_inv. intros x [_ Hsome]%elem_of_heic_files_of.
  rewrite lookup_empty in Hsome. by destruct Hsome.
Qed.

(** One turn of the loop over [class_folders]: what it adds to the
    totals. *)
Lemma convert_class_counts (C : codec) source_dir cls del c dl e w :
  cls ∈ class_folders →
  let d := default ∅ (fs w !! cls) in
  let a := Z.of_nat (length (filter (λ x, accepted C d x = true)
                               (heic_files_of d))) in
  ∃ w',
    convert_class C quiet_env source_dir del (c, dl, e) cls w =
      (Ok (c + a, dl + (if del then a else 0),
           e + (Z.of_nat (length (heic_files_of d)) - a)), w') ∧
    (∀ cls', cls' ≠ cls → fs w' !! cls' = fs w !! cls').
Proof.
  intros Hcls d a.
  assert (Hcount : ∃ w',
    convert_class C quiet_env source_dir del (c, dl, e) cls w =
      (Ok (c + a, dl + (if del then a else 0),
           e + (Z.of_nat (length (heic_files_of d)) - a)), w')).
  { subst a d. unfold convert_class, banner. unfold_calls. simpl.
    destruct (fs w !! cls) as [d|] eqn:Hd; simpl.
    2:{ rewrite heic_files_of_empty. simpl. eexists.
        do 2 f_equal. destruct del; repeat f_equal; lia. }
    rewrite ?Hd. simpl. fold (heic_files_of d).
    destruct (heic_files_of d) as [|h hs] eqn:Hheic.
    { simpl. eexists. do 2 f_equal. destruct del; repeat f_equal; lia. }
    rewrite <-Hheic in *.
    match goal with
    | |- context [for_each _ _ ?s ?w0] =>
        destruct (convert_loop_counts C cls del (heic_files_of d) s d w0)
          as (s' & w1 & Hrun & Hc & Hdl & He)
    end.
    { apply NoDup_heic_files_of. }
    { done. }
    { intros x k. apply heic_files_not_scheme. }
    rewrite Hrun. simpl in *. rewrite Hc, Hdl, He. by eexists. }
  destruct Hcount as (w1 & Hrun1).
  destruct (convert_class_any C source_dir cls del c dl e w Hcls)
    as (r & w' & Hrun & Hframe & _).
  exists w1. split; [done|].
  assert (w' = w1) as <- by congruence. done.
Qed.

(** X13. While nothing else touches the tree, the triple the convert
    pass returns counts the originals it lists in the three class folders
    (a missing folder has none): [converted] is the number of those the
    image library accepts, [errors] the number of the others, and
    [deleted] is [converted] when [delete_originals] is set and 0 when it
    is not. *)
Theorem convert_totals_exact (C : codec) (source_dir : string)
    (delete_originals : bool) (w : world) :
  let originals cls := heic_files_of (default ∅ (fs w !! cls)) in
  let accepted_in cls :=
    Z.of_nat (length (filter
      (λ x, accepted C (default ∅ (fs w !! cls)) x = true) (originals cls))) in
  let listed_in cls := Z.of_nat (length (originals cls)) in
  let a := accepted_in "Good" + accepted_in "Bad" + accepted_in "Ugly" in
  let n := listed_in "Good" + listed_in "Bad" + listed_in "Ugly" in
  ∃ w',
    convert_and_rename_heic_to_jpg C quiet_env source_dir delete_originals w =
      (Ok (a, (if delete_originals then a else 0), n - a), w').
Proof.
  intros originals accepted_in listed_in a n.
  destruct (class_folders_each (λ cls, cls ∈ class_folders))
    as (Hgood & Hbad & Hugly); [done|].
  destruct (convert_class_counts C source_dir "Good" delete_originals 0 0 0 w
              Hgood) as (w1 & Hr1 & Hf1).
  match type of Hr1 with _ = (Ok (?c1, ?d1, ?e1), _) =>
    destruct (convert_class_counts C source_dir "Bad" delete_originals
                c1 d1 e1 w1 Hbad) as (w2 & Hr2 & Hf2)
  end.
  match type of Hr2 with _ = (Ok (?c2, ?d2, ?e2), _) =>
    destruct (convert_class_counts C source_dir "Ugly" delete_originals
                c2 d2 e2 w2 Hugly) as (w3 & Hr3 & Hf3)
  end.
  rewrite (Hf1 "Bad") in Hr2, Hr3 by done.
  rewrite (Hf2 "Ugly"), (Hf1 "Ugly") in Hr3 by done.
  destruct (convert_run_of_turns C source_dir delete_originals w _ _ _ _ _ _
              Hr1 Hr2 Hr3) as (w' & Hrun & _).
  exists w'. rewrite Hrun. subst a n accepted_in listed_in originals. simpl.
  do 2 f_equal. destruct delete_originals; repeat f_equal; lia.
Qed.

(** ** The script, run twice *)

(** X14. While nothing else touches the tree, the script run a second
    time on what its first run left converts nothing, renames nothing
    and leaves the tree as it is. *)
Theorem main_twice_is_once (C : codec) (training_data_dir : string)
    (w : world) :
  ∃ w1 w2,
    main C quiet_env training_data_dir w = (Ok (), w1) ∧
    main C quiet_env training_data_dir w1 = (Ok (), w2) ∧
    fs w2 = fs w1.
Proof.
  destruct (main_run_quiet C training_data_dir w)
    as (w1 & Hrun1 & _ & _ & Hin).
  destruct (convert_run_settled C training_data_dir true w1)
    as (e & wa & Hruna & Hfsa).
  { intros cls d Hcls Hd. by apply (Hin cls d Hcls Hd). }
  set (wm := {| fs := fs wa; now := now wa;
                log := Print (Text.times "=" 50)
                       :: Print "RENAMING REMAINING JPG FILES"
                       :: Print (Text.nl +:+ Text.nl +:+ Text.times "=" 50)
                       :: log wa |}).
  destruct (rename_run_done training_data_dir wm) as (w2 & Hrun2 & Hfs2).
  { intros cls d Hcls Hd. change (fs wm) with (fs wa) in Hd.
    rewrite Hfsa in Hd. by apply (Hin cls d Hcls Hd). }
  exists w1, w2. split_and!; [done| |].
  - assert (Hp : ∀ line w0,
      print line w0 =
        (Ok (), {| fs := fs w0; now := now w0; log := Print line :: log w0 |}))
      by reflexivity.
    unfold main. rewrite (bind_run _ _ w1 _ _ Hruna).
    do 3 rewrite (bind_run _ _ _ _ _ (Hp _ _)).
    exact Hrun2.
  - rewrite Hfs2. exact Hfsa.
Qed.

(** ** Where the convert pass writes each original *)

Lemma take_filter_cons_True {A} (P : A → Prop) `{∀ x, Decision (P x)}
    (x : A) (l : list A) (i : nat) :
  P x →
  length (filter P (take (S i) (x :: l))) = S (length (filter P (take i l))).
Proof. intros HP. simpl. by rewrite filter_cons_True. Qed.

Lemma take_filter_cons_False {A} (P : A → Prop) `{∀ x, Decision (P x)}
    (x : A) (l : list A) (i : nat) :
  ¬ P x →
  length (filter P (take (S i) (x :: l))) = length (filter P (take i l)).
Proof. intros HP. simpl. by rewrite filter_cons_False. Qed.

(** The loop over the originals of a folder: an original the image
    library accepts is written under the number the loop starts with plus
    the number of originals accepted before it. *)
Lemma convert_loop_places (C : codec) cls del l s (d : dir) w :
  NoDup l → fs w !! cls = Some d →
  (∀ x k, x ∈ l → x ≠ scheme_name cls k) →
  (∀ k, next_num s ≤ k → d !! scheme_name cls k = None) →
  ∃ s' w' d',
    for_each (convert_one C quiet_env cls del) l s w = (Ok s', w') ∧
    fs w' = <[cls := d']> (fs w) ∧
    (∀ i x jpeg, l !! i = Some x → d !! x ≫= jpeg_of C = Some jpeg →
       d' !! scheme_name cls
               (next_num s +
                Z.of_nat (length (filter (λ y, accepted C d y = true)
                                         (take i l)))) = Some jpeg).
Proof.
  intros Hnd. revert s d w.
  induction Hnd as [|x l Hx Hnd IH]; intros s d w Hd Hnames Hfresh.
  { exists s, w, d. split_and!; [done|by rewrite insert_id|done]. }
  destruct (convert_one_quiet C cls del s x w d Hd) as [w1 H1].
  assert (Hacc : accepted C d x =
                 if d !! x ≫= jpeg_of C is Some _ then true else false)
    by done.
  destruct (d !! x ≫= jpeg_of C) as [jpeg|] eqn:Hjpeg.
  - destruct H1 as [Hrun1 Hfs1].
    set (new := scheme_name cls (next_num s)) in *.
    set (d1 := if del then delete x (<[new := jpeg]> d)
               else <[new := jpeg]> d) in *.
    assert (Hxnew : x ≠ new) by (apply Hnames; by left).
    assert (Hl : ∀ y, y ∈ l → d1 !! y = d !! y).
    { intros y Hy.
      assert (y ≠ x) by (by intros ->).
      assert (y ≠ new) by (apply Hnames; by right).
      subst d1. destruct del.
      - by rewrite lookup_delete_ne, lookup_insert_ne.
      - by rewrite lookup_insert_ne. }
    assert (Hd1new : d1 !! new = Some jpeg).
    { subst d1. destruct del.
      - by rewrite lookup_delete_ne, lookup_insert_eq.
      - by rewrite lookup_insert_eq. }
    assert (Hw1 : fs w1 !! cls = Some d1) by (by rewrite Hfs1, lookup_insert_eq).
    assert (Hnames1 : ∀ y k, y ∈ l → y ≠ scheme_name cls k).
    { intros y k Hy. apply Hnames. by right. }
    match type of Hrun1 with _ = (Ok ?t, _) => set (s1 := t) in * end.
    assert (Hfresh1 : ∀ k, next_num s1 ≤ k → d1 !! scheme_name cls k = None).
    { simpl. intros k Hk.
      assert (scheme_name cls k ≠ new).
      { intros Heq%scheme_name_inj. lia. }
      assert (d !! scheme_name cls k = None) by (apply Hfresh; lia).
      subst d1. destruct del.
      - destruct (decide (scheme_name cls k = x)) as [->|?].
        + by rewrite lookup_delete_eq.
        + by rewrite lookup_delete_ne, lookup_insert_ne.
      - by rewrite lookup_insert_ne. }
    destruct (IH s1 d1 w1 Hw1 Hnames1 Hfresh1)
      as (s' & w' & d' & Hrun & Hfs & Hplaces).
    destruct (convert_loop_any C cls del l s1 d1 w1 Hnd Hw1 Hnames1 Hfresh1)
      as (s'' & w'' & d'' & Hrun' & Hfs' & Hkeep & _).
    assert (d'' = d') as ->.
    { rewrite Hrun in Hrun'. simplify_eq.
      apply (f_equal (lookup cls)) in Hfs'.
      rewrite Hfs, !lookup_insert_eq in Hfs'. by simplify_eq. }
    exists s', w', d'. split_and!.
    + simpl. by rewrite (bind_run _ _ w _ _ Hrun1).
    + by rewrite Hfs, Hfs1, insert_insert_eq.
    + intros [|i] y jpeg' Hi Hy.
      * simpl in Hi. simplify_eq. simpl. rewrite Z.add_0_r. fold new.
        apply Hkeep; [done|]. intros Hin. by eapply Hnames1.
      * simpl in Hi.
        assert (Hyl : y ∈ l) by (by eapply list_elem_of_lookup_2).
        rewrite take_filter_cons_True by done.
        specialize (Hplaces i y jpeg' Hi). rewrite Hl in Hplaces by done.
        specialize (Hplaces Hy).
        rewrite (filter_ext_elem (λ y0, accepted C d1 y0 = true)
                   (λ y0, accepted C d y0 = true)) in Hplaces.
        2:{ intros z Hz. unfold accepted. rewrite Hl; [done|].
            apply elem_of_take in Hz as (j & Hj & _).
            by eapply list_elem_of_lookup_2. }
        simpl in Hplaces.
        by replace (next_num s + Z.of_nat (S (length (filter
                     (λ y0, accepted C d y0 = true) (take i l)))))
          with (next_num s + 1 + Z.of_nat (length (filter
                     (λ y0, accepted C d y0 = true) (take i l)))) by lia.
  - destruct H1 as [Hrun1 Hfs1].
    match type of Hrun1 with _ = (Ok ?s1, _) =>
      destruct (IH s1 d w1) as (s' & w' & d' & Hrun & Hfs & Hplaces)
    end.
    { by rewrite Hfs1. }
    { intros y k Hy. apply Hnames. by right. }
    { done. }
    exists s', w', d'. split_and!.
    + simpl. by rewrite (bind_run _ _ w _ _ Hrun1).
    + by rewrite Hfs, Hfs1.
    + intros [|i] y jpeg' Hi Hy.
      * simpl in Hi. simplify_eq.
      * simpl in Hi. rewrite take_filter_cons_False by congruence.
        by apply (Hplaces i y jpeg').
Qed.

Lemma convert_class_places (C : codec) source_dir cls del c dl e w :
  cls ∈ class_folders →
  ∃ r w',
    convert_class C quiet_env source_dir del (c, dl, e) cls w = (Ok r, w') ∧
    (∀ cls', cls' ≠ cls → fs w' !! cls' = fs w !! cls') ∧
    match fs w !! cls with
    | None => fs w' !! cls = None
    | Some d =>
        ∃ d',
          fs w' !! cls = Some d' ∧
          ∀ i x jpeg,
            heic_files_of d !! i = Some x →
            d !! x ≫= jpeg_of C = Some jpeg →
            d' !! scheme_name cls
                    (first_num (glob_names (Text.lower cls +:+ "*.jpg") d) +
                     Z.of_nat (length (filter (λ y, accepted C d y = true)
                                              (take i (heic_files_of d))))) =
              Some jpeg
    end.
Proof.
  intros Hcls.
  destruct (convert_class_any C source_dir cls del c dl e w Hcls)
    as (r & w' & Hrun & Hframe & Hturn).
  exists r, w'. split_and!; [done..|].
  destruct (fs w !! cls) as [d|] eqn:Hd.
  2:{ destruct Hturn as [Hfs _]. by rewrite Hfs. }
  destruct Hturn as (d' & Hd' & _).
  exists d'. split; [done|].
  destruct (heic_files_of d) as [|h hs] eqn:Hheic.
  { intros i x jpeg Hi. done. }
  rewrite <-Hheic.
  revert Hrun. unfold convert_class, banner. unfold_calls. simpl.
  rewrite Hd. rewrite bool_decide_eq_true_2 by (by eexists). simpl.
  rewrite !Hd. simpl. fold (heic_files_of d). rewrite Hheic.
  rewrite <-Hheic.
  match goal with
  | |- context [for_each _ _ ?s ?w0] =>
      destruct (convert_loop_places C cls del (heic_files_of d) s d w0)
        as (s' & w1 & d1 & Hrun & Hfs & Hplaces)
  end.
  { apply NoDup_heic_files_of. }
  { done. }
  { intros x k. apply heic_files_not_scheme. }
  { simpl. rewrite ?Hd. simpl. intros k. by apply first_num_fresh. }
  rewrite Hrun. simpl in *. rewrite ?Hd in *. simpl in *.
  intros [= <- <-]. rewrite Hfs in Hd'. simpl in Hd'.
  rewrite lookup_insert_eq in Hd'. by simplify_eq.
Qed.

(** X15. While nothing else touches the tree, the convert pass writes the
    JPEG of each original the image library accepts under the first
    number of the folder (one past the largest number found in the names
    [<label>*.jpg], or 1) plus the number of accepted originals that come
    before it in the order of the names: the originals the library
    rejects leave no gap. *)
Theorem convert_places_accepted (C : codec) (source_dir : string)
    (delete_originals : bool) (w : world) :
  ∃ totals w',
    convert_and_rename_heic_to_jpg C quiet_env source_dir delete_originals w =
      (Ok totals, w') ∧
    ∀ cls d i x jpeg,
      cls ∈ class_folders → fs w !! cls = Some d →
      heic_files_of d !! i = Some x →
      d !! x ≫= jpeg_of C = Some jpeg →
      fs w' !! cls ≫=
        (.!! scheme_name cls
               (first_num (glob_names (Text.lower cls +:+ "*.jpg") d) +
                Z.of_nat (length (filter (λ y, accepted C d y = true)
                                         (take i (heic_files_of d)))))) =
        Some jpeg.
Proof.
  set (T := λ (cls : string) (before after : option dir),
    match before with
    | None => after = None
    | Some d =>
        ∃ d',
          after = Some d' ∧
          ∀ i x jpeg,
            heic_files_of d !! i = Some x →
            d !! x ≫= jpeg_of C = Some jpeg →
            d' !! scheme_name cls
                    (first_num (glob_names (Text.lower cls +:+ "*.jpg") d) +
                     Z.of_nat (length (filter (λ y, accepted C d y = true)
                                              (take i (heic_files_of d))))) =
              Some jpeg
    end).
  destruct (for_each_class (convert_class C quiet_env source_dir delete_originals)
              T) with (a := (0, 0, 0)) (w := w)
    as (totals & w3 & Hrun & _ & Hin).
  { intros [[c dl] e] cls w0 Hcls.
    destruct (convert_class_places C source_dir cls delete_originals c dl e w0
                Hcls) as (r & w' & Hr & Hframe & Hturn).
    by exists r, w'. }
  assert (Hend : ∃ w',
    convert_and_rename_heic_to_jpg C quiet_env source_dir delete_originals w =
      (Ok totals, w') ∧ fs w' = fs w3).
  { unfold convert_and_rename_heic_to_jpg.
    rewrite (bind_run _ _ w _ _ Hrun). unfold_calls. simpl. by eexists. }
  destruct Hend as (w' & Hrun' & Hfs). exists totals, w'. split; [done|].
  intros cls d i x jpeg Hcls Hd Hi Hx.
  specialize (Hin cls Hcls). unfold T in Hin. rewrite Hd in Hin.
  destruct Hin as (d' & Hd' & Hplaces).
  rewrite Hfs, Hd'. simpl. by eapply Hplaces.
Qed.

(** ** Two runs, computed *)

(** The script on a folder with photos under camera names in both cases
    of the extension, one file of the scheme, one original the image
    library accepts and one it does not. *)
Example main_on_mixed_tree :
  let run := main toy_codec quiet_env "Training_Data" (boot mixed_tree) in
  run.1 = Ok () ∧
  fs run.2 =
    {[ "Ugly" := {[ "broken.HEIC" := "not an image"; "notes.txt" := "text";
                    "ugly3.jpg" := "three"; "ugly4.jpg" := "jpeg:heic 5";
                    "ugly5.jpg" := "ten"; "ugly6.jpg" := "two" ]} ]}.
Proof. vm_compute. split; reflexivity. Qed.

(** The rename pass on a disk where the first call of [rename] fails: the
    failure is reported, the number is used up, and the next file is
    renamed. *)
Example rename_on_flaky_disk :
  let run := rename_jpg_files flaky_env "Training_Data" (boot camera_tree) in
  run.1 = Ok () ∧
  fs run.2 = {[ "Good" := {[ "IMG_1.jpg" := "first"; "good2.jpg" := "second" ]} ]} ∧
  count is_failed_rename (log run.2) = 1 ∧
  count is_rename_error_line (log run.2) = 1.
Proof. vm_compute. split_and!; reflexivity. Qed.

(** ** The totals of the convert pass and its calls *)

Section ConvertCalls.
Context (C : codec) (E : env).

(** One turn of the loop over [heic_files], read off the calls it makes:
    it opens its file once; the file is counted as converted when its
    JPEG was saved and as an error when it was not; an original is
    counted as deleted when its [unlink] succeeded and as one more error
    when it failed. *)
Lemma convert_one_calls_books cls del s heic w :
  ∃ s' w' new,
    convert_one C E cls del s heic w = (Ok s', w') ∧
    log w' = new ++ log w ∧
    total_converted s' - total_converted s = saved new ∧
    total_deleted s' - total_deleted s = unlinked new ∧
    total_errors s' - total_errors s =
      attempts new - saved new + failed_unlinks new ∧
    attempts new = 1.
Proof.
  unfold convert_one. unfold_calls.
  repeat (case_match; simpl in *; simplify_eq);
    (eexists _, _, _; split; [reflexivity|]; split; [new_events|]);
    unfold saved, unlinked, attempts, failed_unlinks; simpl;
    split_and!; lia.
Qed.

Lemma convert_loop_calls_books cls del heic_files s w :
  ∃ s' w' new,
    for_each (convert_one C E cls del) heic_files s w = (Ok s', w') ∧
    log w' = new ++ log w ∧
    total_converted s' - total_converted s = saved new ∧
    total_deleted s' - total_deleted s = unlinked new ∧
    total_errors s' - total_errors s =
      attempts new - saved new + failed_unlinks new ∧
    attempts new = Z.of_nat (length heic_files).
Proof.
  revert s w. induction heic_files as [|x l IH]; intros s w.
  { exists s, w, []. split_and!; try done; unfold saved, unlinked,
      attempts, failed_unlinks; simpl; lia. }
  destruct (convert_one_calls_books cls del s x w)
    as (s1 & w1 & new1 & Hr1 & Hl1 & Hc1 & Hd1 & He1 & Ha1).
  destruct (IH s1 w1) as (s2 & w2 & new2 & Hr2 & Hl2 & Hc2 & Hd2 & He2 & Ha2).
  exists s2, w2, (new2 ++ new1). split_and!.
  - simpl. by rewrite (bind_run _ _ w _ _ Hr1).
  - by rewrite Hl2, Hl1, app_assoc.
  - unfold saved in *. rewrite count_app. lia.
  - unfold unlinked in *. rewrite count_app. lia.
  - unfold saved, attempts, failed_unlinks in *. rewrite !count_app. lia.
  - unfold attempts in *. rewrite count_app.
    rewrite length_cons, Nat2Z.inj_succ. lia.
Qed.

(** One turn of the loop over [class_folders]. *)
Lemma convert_class_calls_books source_dir del c d e cls w :
  ∃ c' d' e' w' new,
    convert_class C E source_dir del (c, d, e) cls w =
      (Ok (c', d', e'), w') ∧
    log w' = new ++ log w ∧
    c' - c = saved new ∧
    d' - d = unlinked new ∧
    e' - e = attempts new - saved new + failed_unlinks new.
Proof.
  unfold convert_class, banner. unfold_calls. simpl.
  case_match; simpl.
  - eexists c, d, e, _, _. split; [reflexivity|]. split; [new_events|].
    unfold saved, unlinked, attempts, failed_unlinks; simpl.
    split_and!; lia.
  - destruct (sorted _) as [|h hs] eqn:Hsorted.
    + eexists c, d, e, _, _. split; [reflexivity|]. split; [new_events|].
      unfold saved, unlinked, attempts, failed_unlinks; simpl.
      split_and!; lia.
    + rewrite <-Hsorted.
      match goal with
      | |- context [for_each _ ?l ?s ?w0] =>
          destruct (convert_loop_calls_books cls del l s w0)
            as (s' & w' & new & Hrun & Hl & Hc & Hd & He & _)
      end.
      unfold enter in *. simpl in *. rewrite Hrun.
      eexists _, _, _, _, (new ++ [_; _; _; _; _; _; _; _]).
      split; [reflexivity|]. split.
      { rewrite Hl, <-app_assoc. reflexivity. }
      unfold saved, unlinked, attempts, failed_unlinks in *.
      rewrite !count_app. simpl. split_and!; lia.
Qed.

(** The whole pass, from any world. *)
Lemma convert_run_calls_books source_dir del w :
  ∃ c d e w' new,
    convert_and_rename_heic_to_jpg C E source_dir del w =
      (Ok (c, d, e), w') ∧
    log w' = new ++ log w ∧
    c = saved new ∧
    d = unlinked new ∧
    e = attempts new - saved new + failed_unlinks new.
Proof.
  unfold convert_and_rename_heic_to_jpg, class_folders. simpl for_each.
  destruct (convert_class_calls_books source_dir del 0 0 0 "Good" w)
    as (c1 & d1 & e1 & w1 & n1 & Hr1 & Hl1 & Hc1 & Hd1 & He1).
  destruct (convert_class_calls_books source_dir del c1 d1 e1 "Bad" w1)
    as (c2 & d2 & e2 & w2 & n2 & Hr2 & Hl2 & Hc2 & Hd2 & He2).
  destruct (convert_class_calls_books source_dir del c2 d2 e2 "Ugly" w2)
    as (c3 & d3 & e3 & w3 & n3 & Hr3 & Hl3 & Hc3 & Hd3 & He3).
  rewrite (bind_run _ _ w (c3, d3, e3) w3).
  2:{ rewrite (bind_run _ _ w _ _ Hr1), (bind_run _ _ w1 _ _ Hr2).
      rewrite (bind_run _ _ w2 _ _ Hr3). done. }
  unfold_calls. simpl.
  eexists c3, d3, e3, _, ([_; _; _; _; _; _] ++ n3 ++ n2 ++ n1).
  split; [reflexivity|]. split.
  { simpl. rewrite Hl3, Hl2, Hl1, <-!app_assoc. reflexivity. }
  unfold saved, unlinked, attempts, failed_unlinks in *.
  rewrite !count_app. simpl. split_and!; lia.
Qed.
End ConvertCalls.

(** C4. No exception leaves [convert_and_rename_heic_to_jpg], whatever the
    files, the image library and the environment do to the file it is
    working on: the pass returns its three totals.  Every HEIC file the
    globs listed got its turn (one [Open] each) and all three class folders
    were visited, so the pass went on after each failure.  The totals are
    those of the calls made: [converted] is the number of JPEGs saved,
    [deleted] the number of originals removed, and [errors] counts each
    file whose turn ended without a saved JPEG and each [unlink] that
    failed; [errors] is also the number of failures reported. *)
Theorem convert_never_raises (C : codec) (E : env) (source_dir : string)
    (delete_originals : bool) (t : tree) :
  ∃ converted deleted errors w',
    convert_and_rename_heic_to_jpg C E source_dir delete_originals (boot t) =
      (Ok (converted, deleted, errors), w') ∧
    converted = saved (log w') ∧
    deleted = unlinked (log w') ∧
    errors = attempts (log w') - saved (log w') + failed_unlinks (log w') ∧
    errors = failures (log w') ∧
    attempts (log w') = listed (log w') ∧
    attempts (log w') = converted + errors - failed_unlinks (log w') ∧
    Forall (λ cls, ∃ r, DirExists cls r ∈ log w') class_folders.
Proof.
  destruct (convert_run_books C E source_dir delete_originals (boot t))
    as (c & d & e & w' & Hrun & Hl & Ha & Hd).
  destruct (convert_run_calls_books C E source_dir delete_originals (boot t))
    as (c' & d' & e' & w'' & new & Hrun' & Hlog & Hc & Hdl & He).
  assert (c' = c ∧ d' = d ∧ e' = e ∧ w'' = w') as (-> & -> & -> & ->).
  { rewrite Hrun in Hrun'. by simplify_eq. }
  simpl in Hlog. rewrite app_nil_r in Hlog. subst new.
  exists c, d, e, w'. split; [done|].
  unfold ledger in Hl. simpl in *.
  change (attempts []) with 0 in *. change (failures []) with 0 in *.
  change (failed_unlinks []) with 0 in *.
  split_and!; [done|done|done|lia|lia|lia|done].
Qed.

(** C8, as amended.  In [rename_jpg_files] every [rename] comes right after
    the check that its destination is free, which comes right after the
    check that its source is there.  In [convert_and_rename_heic_to_jpg]
    no call checks that a file is there: every [unlink] of an original
    comes right after the successful [save] of its turn, which comes right
    after the successful opening of that original.  When the original is
    gone by then, [unlink] raises; the exception does not leave the pass,
    and it is counted: [errors] is the number of files whose turn ended
    without a saved JPEG plus the number of [unlink]s that failed, and
    [deleted] is the number of [unlink]s that succeeded.  All this holds
    in every environment. *)
Theorem removals_in_context (C : codec) (E : env) (source_dir : string)
    (delete_originals : bool) (t : tree) :
  (∃ w',
     rename_jpg_files E source_dir (boot t) = (Ok (), w') ∧
     renames_checked (calls (log w')) = true) ∧
  (∃ converted deleted errors w',
     convert_and_rename_heic_to_jpg C E source_dir delete_originals (boot t) =
       (Ok (converted, deleted, errors), w') ∧
     unlinks_follow_save (calls (log w')) = true ∧
     no_file_check (log w') = true ∧
     deleted = unlinked (log w') ∧
     errors = attempts (log w') - saved (log w') + failed_unlinks (log w') ∧
     errors = failures (log w')).
Proof.
  split.
  - destruct (rename_run_spec E source_dir (boot t)) as (w' & Hrun & _ & Hck & _).
    exists w'. split; [done|]. by apply Hck.
  - destruct (convert_run_books C E source_dir delete_originals (boot t))
      as (c & d & e & w' & Hrun & Hl & _).
    destruct (convert_run_calls_books C E source_dir delete_originals (boot t))
      as (c' & d' & e' & w'' & new & Hrun' & Hlog & Hc & Hdl & He).
    assert (c' = c ∧ d' = d ∧ e' = e ∧ w'' = w') as (-> & -> & -> & ->).
    { rewrite Hrun in Hrun'. by simplify_eq. }
    simpl in Hlog. rewrite app_nil_r in Hlog. subst new.
    exists c, d, e, w'. split; [done|]. split_and!.
    + eapply (convert_run_log C E
        (λ l, unlinks_follow_save (calls l) = true)); [..|exact Hrun|done];
        try done.
      intros. by eapply convert_one_calls.
    + eapply (convert_run_log C E (λ l, no_file_check l = true));
        [..|exact Hrun|done]; try done.
      intros. by eapply convert_one_calls.
    + done.
    + done.
    + unfold ledger in Hl. simpl in Hl.
      change (failures []) with 0 in Hl. lia.
Qed.

(** ** A file that goes away during the rename pass *)

(** C7, as amended.  In [rename_jpg_files], a file of [to_rename] that is
    gone when the loop re-checks it (line 74) is skipped: its turn returns
    without raising, prints that the file was skipped and nothing else,
    calls neither [rename] nor the error branch, and leaves the number for
    the next file.  A file that is there at that check, whose new name is
    free, and that is gone when [rename] is called (line 89) is not
    skipped in silence: [rename] raises, the handler of lines 90-91 prints
    "Error renaming", and the number is used up.  In both cases the turn
    returns, the loop goes on with the files after it, and the loop and
    the pass end without raising, in every environment. *)
Theorem rename_skips_vanished (E : env) (source_dir cls jpg : string)
    (max_num : Z) (rest : list string) (w : world) :
  let new_name := scheme_name cls (max_num + 1) in
  let skipped :=
    {| fs := enter E w; now := S (now w);
       log := Print ("  Skipping (already moved): " +:+ jpg)
              :: Exists cls jpg false :: log w |} in
  let w1 := leave w (enter E w) (Exists cls jpg true) in
  let w2 := leave w1 (enter E w1) (Exists cls new_name false) in
  let e := FileNotFoundError jpg in
  let failed :=
    {| fs := enter E w2; now := S (now w2);
       log := Print ("  Error renaming " +:+ jpg +:+ ": " +:+ exn_text e)
              :: Rename cls jpg new_name (Failed e)
              :: Print ("  Renaming: " +:+ jpg +:+ " -> " +:+ new_name)
              :: log w2 |} in
  (enter E w !! cls ≫= (.!! jpg) = None →
   rename_one E cls max_num jpg w = (Ok max_num, skipped) ∧
   for_each (rename_one E cls) (jpg :: rest) max_num w =
     for_each (rename_one E cls) rest max_num skipped) ∧
  (is_Some (enter E w !! cls ≫= (.!! jpg)) →
   enter E w1 !! cls ≫= (.!! new_name) = None →
   enter E w2 !! cls ≫= (.!! jpg) = None →
   rename_one E cls max_num jpg w = (Ok (max_num + 1), failed) ∧
   for_each (rename_one E cls) (jpg :: rest) max_num w =
     for_each (rename_one E cls) rest (max_num + 1) failed) ∧
  (∃ n' w', for_each (rename_one E cls) (jpg :: rest) max_num w = (Ok n', w')) ∧
  (∃ w', rename_jpg_files E source_dir w = (Ok (), w')).
Proof.
  intros new_name skipped w1 w2 e failed.
  split; [|split; [|split]].
  - intros Hgone.
    assert (Hone : rename_one E cls max_num jpg w = (Ok max_num, skipped)).
    { subst skipped. unfold rename_one. unfold_calls.
      unfold enter, mbind in Hgone. rewrite Hgone.
      rewrite bool_decide_eq_false_2 by (by intros [??]). done. }
    split; [done|]. simpl. by rewrite (bind_run _ _ w _ _ Hone).
  - intros Hthere Hfree Hgone.
    assert (Hone : rename_one E cls max_num jpg w = (Ok (max_num + 1), failed)).
    { subst failed e w2 w1 new_name. unfold scheme_name in *.
      unfold rename_one. unfold_calls.
      unfold enter, leave, mbind in Hthere, Hfree, Hgone. simpl in *.
      rewrite bool_decide_eq_true_2 by done. simpl.
      rewrite Hfree.
      rewrite bool_decide_eq_false_2 by (by intros [??]). simpl.
      destruct (sync E (S (S (now w))) _ !! cls) as [d|] eqn:Hd; simpl in *.
      - rewrite Hgone. done.
      - done. }
    split; [done|]. simpl. by rewrite (bind_run _ _ w _ _ Hone).
  - destruct (rename_loop_spec E cls (jpg :: rest) max_num w)
      as (n' & w' & _ & Hrun & _). eauto.
  - destruct (rename_run_spec E source_dir w) as (w' & Hrun & _). eauto.
Qed.

(** Both cases happen: on [camera_tree], a sync client that takes
    [IMG_1.jpg] away before the re-check, and one that takes it away
    between the checks and the [rename]. *)
Lemma rename_skips_vanished_witness :
  let w := at_loop camera_tree in
  (enter vanish_env w !! "Good" ≫= (.!! "IMG_1.jpg") = None ∧
   rename_one vanish_env "Good" 0 "IMG_1.jpg" w =
     (Ok 0,
      {| fs := {[ "Good" := {[ "IMG_2.jpg" := "second" ]} ]}; now := 4;
         log := [Print "  Skipping (already moved): IMG_1.jpg";
                 Exists "Good" "IMG_1.jpg" false] |})) ∧
  (rename_one late_vanish_env "Good" 0 "IMG_1.jpg" w).1 = Ok 1 ∧
  log (rename_one late_vanish_env "Good" 0 "IMG_1.jpg" w).2 =
    [Print "  Error renaming IMG_1.jpg: No such file or directory: IMG_1.jpg";
     Rename "Good" "IMG_1.jpg" "good1.jpg"
       (Failed (FileNotFoundError "IMG_1.jpg"));
     Print "  Renaming: IMG_1.jpg -> good1.jpg";
     Exists "Good" "good1.jpg" false;
     Exists "Good" "IMG_1.jpg" true].
Proof.
  intros w.
  destruct (rename_skips_vanished vanish_env "photos" "Good" "IMG_1.jpg" 0
              ["IMG_2.jpg"] w) as (Hearly & _).
  destruct (rename_skips_vanished late_vanish_env "photos" "Good" "IMG_1.jpg"
              0 ["IMG_2.jpg"] w) as (_ & Hlate & _).
  assert (Hgone : enter vanish_env w !! "Good" ≫= (.!! "IMG_1.jpg") = None)
    by (vm_compute; reflexivity).
  destruct (Hearly Hgone) as [Hone _].
  destruct Hlate as [Hone' _].
  { vm_compute. eexists. reflexivity. }
  { vm_compute. reflexivity. }
  { vm_compute. reflexivity. }
  split; [split|split].
  - exact Hgone.
  - rewrite Hone. vm_compute. reflexivity.
  - rewrite Hone'. reflexivity.
  - rewrite Hone'. vm_compute. reflexivity.
Defined.

(** C7, as stated, fails for a file that goes away between the re-check
    and the [rename]: on [camera_tree], with [IMG_1.jpg] taken away just
    before it is renamed, the pass returns, but the file is treated as an
    error ("Error renaming" is printed after a failed [rename]) and its
    number is used up: [IMG_2.jpg] becomes [good2.jpg] and no file is
    [good1.jpg]. *)
Lemma rename_skips_vanished_counterexample :
  let run := rename_jpg_files late_vanish_env "photos" (boot camera_tree) in
  run.1 = Ok () ∧
  Rename "Good" "IMG_1.jpg" "good1.jpg" (Failed (FileNotFoundError "IMG_1.jpg"))
    ∈ log run.2 ∧
  Print "  Error renaming IMG_1.jpg: No such file or directory: IMG_1.jpg"
    ∈ log run.2 ∧
  count is_rename_error_line (log run.2) = 1 ∧
  count (λ ev, if ev is Print line
               then String.prefix "  Skipping" line else false) (log run.2)
    = 0 ∧
  fs run.2 !! "Good" ≫= (.!! "good1.jpg") = None ∧
  fs run.2 !! "Good" ≫= (.!! "good2.jpg") = Some "second".
Proof.
  intros run. split; [|split; [|split; [|split; [|split; [|split]]]]].
  - vm_compute. reflexivity.
  - vm_compute. do 11 right. left.
  - vm_compute. do 10 right. left.
  - vm_compute. reflexivity.
  - vm_compute. reflexivity.
  - vm_compute. reflexivity.
  - vm_compute. reflexivity.
Qed.

(** ** The convert pass, run twice *)









(** ** What the rename pass leaves alone *)

(** C10, as amended.  [rename_jpg_files] never moves a file whose name is
    of the scheme of its class folder, and each of its renames comes right
    after the check that the destination is free (and that after the
    check that the source is there): both hold in every environment.
    When nothing else touches the tree during the pass, no rename
    replaces a file, and every file that carries a name of the scheme
    before the pass is there after it, with the bytes it had.  The check
    and the rename are two calls: when a file arrives at the destination
    between them, the rename goes through, replaces that file and reports
    nothing. *)
Theorem rename_spares_canonical (E : env) (source_dir : string) (t : tree) :
  (∃ w',
     rename_jpg_files E source_dir (boot t) = (Ok (), w') ∧
     renames_only_new (log w') = true ∧
     renames_checked (calls (log w')) = true) ∧
  (∃ w',
     rename_jpg_files quiet_env source_dir (boot t) = (Ok (), w') ∧
     no_replaced (log w') = true ∧
     keeps t (fs w')) ∧
  (∀ cls jpg max_num w d bytes lost,
     let new_name := scheme_name cls (max_num + 1) in
     let w1 := leave w (enter E w) (Exists cls jpg true) in
     let w2 := leave w1 (enter E w1) (Exists cls new_name false) in
     is_Some (enter E w !! cls ≫= (.!! jpg)) →
     enter E w1 !! cls ≫= (.!! new_name) = None →
     enter E w2 !! cls = Some d →
     d !! jpg = Some bytes →
     d !! new_name = Some lost →
     fault E (now w2) = false →
     rename_one E cls max_num jpg w =
       (Ok (max_num + 1),
        {| fs := <[cls := <[new_name := bytes]> (delete jpg d)]> (enter E w2);
           now := S (now w2);
           log := Rename cls jpg new_name Replaced
                  :: Print ("  Renaming: " +:+ jpg +:+ " -> " +:+ new_name)
                  :: log w2 |})).
Proof.
  split; [|split].
  - destruct (rename_run_spec E source_dir (boot t))
      as (w' & Hrun & _ & Hck & Hnew).
    exists w'. split_and!; [done|by apply Hnew|by apply Hck].
  - destruct (rename_run_quiet t source_dir (boot t)) as (w' & Hrun & Hk & Hl).
    + by intros cls name bytes.
    + done.
    + by exists w'.
  - intros cls jpg max_num w d bytes lost new_name w1 w2
      Hthere Hfree Hd Hsrc Hdst Hfault.
    subst w2 w1 new_name. unfold scheme_name in *.
    unfold rename_one. unfold_calls.
    unfold enter, leave, mbind in Hthere, Hfree, Hd, Hfault. simpl in *.
    rewrite bool_decide_eq_true_2 by done. simpl.
    rewrite Hfree.
    rewrite bool_decide_eq_false_2 by (by intros [??]). simpl.
    rewrite Hd, Hsrc, Hfault, Hdst. done.
Qed.

(** C10, as stated, fails when a file arrives at the destination between
    the check that the name is free and the [rename]: on [camera_tree],
    with a [good1.jpg] put into [Good] just before [IMG_1.jpg] is renamed
    to it, every [rename] of the pass still comes right after its two
    checks, and yet the first one replaces the file that arrived, whose
    bytes are lost. *)
Lemma rename_spares_canonical_counterexample :
  let run := rename_jpg_files late_intruder_env "photos" (boot camera_tree) in
  run.1 = Ok () ∧
  renames_checked (calls (log run.2)) = true ∧
  Exists "Good" "good1.jpg" false ∈ log run.2 ∧
  Rename "Good" "IMG_1.jpg" "good1.jpg" Replaced ∈ log run.2 ∧
  no_replaced (log run.2) = false ∧
  enter late_intruder_env
    {| fs := camera_tree; now := 5; log := [] |} !! "Good"
    ≫= (.!! "good1.jpg") = Some "synced" ∧
  fs run.2 !! "Good" ≫= (.!! "good1.jpg") = Some "first".
Proof.
  intros run. split; [|split; [|split; [|split; [|split; [|split]]]]].
  - vm_compute. reflexivity.
  - vm_compute. reflexivity.
  - vm_compute. do 12 right. left.
  - vm_compute. do 10 right. left.
  - vm_compute. reflexivity.
  - vm_compute. reflexivity.
  - vm_compute. reflexivity.
Qed.
